(** * Pesticide search backend (app.py): model and verified properties

    The search pipeline of [app.py] is embedded function by function:
    the pest-name normalizer, the two duplicate removers, the keyword
    splitter and classifier, the eight strategy handlers, the overlap
    marker and the final ranker.

    Conventions of the embedding.
    - A Python [str] is a list of Unicode code points ([str := list N]);
      literals are written [u "..."], decoded from UTF-8.  The texts
      are those a request and the table can hold: scalar values, and
      shorter than SQLite's limit on the length of a string.
    - A card is a Python dict with insertion order: an association list
      from field names to dynamically typed values.
    - The table [crop_usage] is the list of its rows in table order; a
      [SELECT] is a [filter] over that list.  The seven identifying
      columns hold text; the five descriptive columns may be NULL, which
      is where the handlers write [row[...] or ''].
    - A lookup with [LIKE] raises when its pattern is over SQLite's
      limit on patterns.  The exception ends the request in the
      [except] clause whatever rows were read before, so it is kept
      apart from the rows, as a test of its own ([route_raises]).
    - The interpreter's Unicode services that are too large to tabulate
      ([unicodedata.normalize('NFKC', _)] and [str.lower]) are section
      variables; the small ones (whitespace, decimal digits) are tables. *)

From Stdlib Require Import List NArith ZArith Lia Bool String Ascii.
From Stdlib Require Import Permutation Sorted.
Import ListNotations.
Open Scope N_scope.
Open Scope list_scope.

Set Implicit Arguments.

(** ** Strings *)

Definition str := list N.

Definition bytes_of (s : string) : list N :=
  map (fun b => N.of_nat (nat_of_ascii b)) (list_ascii_of_string s).

(** UTF-8 decoding of a literal: [need] continuation bytes are still
    expected for the code point accumulated in [acc]. *)
Fixpoint utf8_go (need : nat) (acc : N) (bs : list N) : str :=
  match bs with
  | [] => []
  | b :: bs' =>
      match need with
      | O =>
          if b <? 128 then b :: utf8_go 0 0 bs'
          else if b <? 224 then utf8_go 1 (b - 192) bs'
          else if b <? 240 then utf8_go 2 (b - 224) bs'
          else utf8_go 3 (b - 240) bs'
      | S n =>
          let acc' := acc * 64 + (b - 128) in
          match n with
          | O => acc' :: utf8_go 0 0 bs'
          | S _ => utf8_go n acc' bs'
          end
      end
  end.

Definition u (s : string) : str := utf8_go 0 0 (bytes_of s).

Definition str_eqb (a b : str) : bool :=
  if list_eq_dec N.eq_dec a b then true else false.

Definition mem (x : str) (l : list str) : bool := existsb (str_eqb x) l.

(** [a.startswith(p)] and [p in s] on Python strings. *)
Fixpoint starts_with (p s : str) : bool :=
  match p, s with
  | [], _ => true
  | _ :: _, [] => false
  | a :: p', b :: s' => (a =? b) && starts_with p' s'
  end.

Fixpoint contains (p s : str) : bool :=
  starts_with p s ||
  match s with
  | [] => false
  | _ :: s' => contains p s'
  end.

(** [s.replace(c, '')] for a one-character [c]. *)
Definition remove_char (c : N) (s : str) : str :=
  filter (fun x => negb (x =? c)) s.

(** [sep.join(parts)]. *)
Fixpoint join (sep : str) (parts : list str) : str :=
  match parts with
  | [] => []
  | [p] => p
  | p :: ps => p ++ sep ++ join sep ps
  end.

(** ** Unicode tables *)

(** Code points for which [str.isspace] holds; the regular expression
    class [\s] on [str] patterns is the same set. *)
Definition is_space (c : N) : bool :=
  ((9 <=? c) && (c <=? 13)) || ((28 <=? c) && (c <=? 32)) ||
  (c =? 133) || (c =? 160) || (c =? 5760) ||
  ((8192 <=? c) && (c <=? 8202)) || (c =? 8232) || (c =? 8233) ||
  (c =? 8239) || (c =? 8287) || (c =? 12288).

(** First code point of each run of ten decimal digits (general category
    Nd, Unicode 14.0): the members of [\d], valued 0..9 in order. *)
Definition decimal_zeros : list N :=
  [ 0x30; 0x660; 0x6f0; 0x7c0; 0x966; 0x9e6; 0xa66; 0xae6; 0xb66; 0xbe6;
    0xc66; 0xce6; 0xd66; 0xde6; 0xe50; 0xed0; 0xf20; 0x1040; 0x1090;
    0x17e0; 0x1810; 0x1946; 0x19d0; 0x1a80; 0x1a90; 0x1b50; 0x1bb0;
    0x1c40; 0x1c50; 0xa620; 0xa8d0; 0xa900; 0xa9d0; 0xa9f0; 0xaa50;
    0xabf0; 0xff10; 0x104a0; 0x10d30; 0x11066; 0x110f0; 0x11136;
    0x111d0; 0x112f0; 0x11450; 0x114d0; 0x11650; 0x116c0; 0x11730;
    0x118e0; 0x11950; 0x11c50; 0x11d50; 0x11da0; 0x16a60; 0x16ac0;
    0x16b50; 0x1d7ce; 0x1d7d8; 0x1d7e2; 0x1d7ec; 0x1d7f6; 0x1e140;
    0x1e2f0; 0x1e950; 0x1fbf0 ].

Definition decimal (c : N) : option N :=
  match find (fun z => (z <=? c) && (c <? z + 10)) decimal_zeros with
  | Some z => Some (c - z)
  | None => None
  end.

Definition is_digit (c : N) : bool :=
  match decimal c with Some _ => true | None => false end.

(** ** Python values *)

(** [f"{x}"] and [x or ''] for a nullable text column. *)
Definition fmt (x : option str) : str :=
  match x with Some s => s | None => u "None" end.

Definition or_empty (x : option str) : str :=
  match x with Some s => s | None => [] end.

(** A usage entry: the dict built at every [usages.append] site. *)
Record usage := mkUsage {
  u_crop : str;              (* 作物名稱 *)
  u_pest : str;              (* 病蟲害名稱 *)
  u_pest_normalized : str;   (* 病蟲害名稱_normalized *)
  u_phi : str;               (* 安全採收期 *)
  u_dilution : str;          (* 稀釋倍數 *)
  u_dosage : str             (* 每公頃使用用藥量 *)
}.

Inductive value :=
| VNone
| VBool (b : bool)
| VStr (s : str)
| VUsages (us : list usage).

Definition of_sql (x : option str) : value :=
  match x with Some s => VStr s | None => VNone end.

(** A card: a dict in insertion order; [k |-> v] is one of its items. *)
Definition card := list (string * value).

Notation "k |-> v" := (@pair string value k%string v) (at level 60).

Fixpoint get (k : string) (c : card) : option value :=
  match c with
  | [] => None
  | (k', v) :: c' => if String.eqb k k' then Some v else get k c'
  end.

(** [c[k] = v]: overwrite in place, or append a new key. *)
Fixpoint set (k : string) (v : value) (c : card) : card :=
  match c with
  | [] => [(k, v)]
  | (k', v') :: c' =>
      if String.eqb k k' then (k', v) :: c' else (k', v') :: set k v c'
  end.

(** Python truthiness, as used by [result.get('no_match')]. *)
Definition truthy (v : option value) : bool :=
  match v with
  | None | Some VNone => false
  | Some (VBool b) => b
  | Some (VStr s) => match s with [] => false | _ => true end
  | Some (VUsages us) => match us with [] => false | _ => true end
  end.

Definition is_no_match (c : card) : bool := truthy (get "no_match" c).

Definition usages_of (c : card) : list usage :=
  match get "usages" c with
  | Some (VUsages us) => us
  | _ => []
  end.

(** ** remove_duplicate_usages *)

Definition same_usage (a b : usage) : bool :=
  str_eqb (u_pest a) (u_pest b) && str_eqb (u_phi a) (u_phi b) &&
  str_eqb (u_dilution a) (u_dilution b) && str_eqb (u_dosage a) (u_dosage b).

(** The loop of [remove_duplicate_usages] with [unique_usages] as the
    accumulator. *)
Fixpoint dedup_loop (unique_usages usages : list usage) : list usage :=
  match usages with
  | [] => unique_usages
  | usage :: rest =>
      if existsb (fun x => same_usage x usage) unique_usages
      then dedup_loop unique_usages rest
      else dedup_loop (unique_usages ++ [usage]) rest
  end.

Definition remove_duplicate_usages (usages : list usage) : list usage :=
  dedup_loop [] usages.

(** ** The database *)

Record row := mkRow {
  r_crop : str;                (* 作物名稱 *)
  r_pest : str;                (* 病蟲害名稱 *)
  r_chem : str;                (* 中文名稱 *)
  r_brand : str;               (* 廠牌名稱 *)
  r_barcode : str;             (* 條碼 *)
  r_form : str;                (* 劑型 *)
  r_conc : str;                (* 含量 *)
  r_mech_name : option str;    (* 作用機制名稱 *)
  r_mech_note : option str;    (* 作用機制備註 *)
  r_phi : option str;          (* 安全採收期 *)
  r_dilution : option str;     (* 稀釋倍數 *)
  r_dosage : option str        (* 每公頃使用用藥量 *)
}.

Definition database := list row.

(** SQLite's [LIKE], as built into the interpreter's [sqlite3] module
    (no ICU, no [ESCAPE]).  The matcher [patternCompare]: [%] matches
    any run of characters, [_] any single one, and all other characters
    match themselves, ASCII letters without regard to case. *)
Definition ascii_fold (c : N) : N :=
  if (65 <=? c) && (c <=? 90) then c + 32 else c.

Fixpoint pattern_compare (pat : str) : str -> bool :=
  match pat with
  | [] => fun s => match s with [] => true | _ :: _ => false end
  | c :: pat' =>
      if c =? 37 then
        fix star (s : str) : bool :=
          pattern_compare pat' s ||
          match s with [] => false | _ :: s' => star s' end
      else if c =? 95 then
        fun s => match s with [] => false | _ :: s' => pattern_compare pat' s' end
      else
        fun s =>
          match s with
          | [] => false
          | d :: s' => (ascii_fold c =? ascii_fold d) && pattern_compare pat' s'
          end
  end.

(** Pattern and text reach the matcher as C strings: each ends at its
    first U+0000. *)
Fixpoint c_string (s : str) : str :=
  match s with
  | [] => []
  | c :: s' => if c =? 0 then [] else c :: c_string s'
  end.

(** [sqlite3_value_bytes]: the length of the UTF-8 encoding. *)
Definition utf8_bytes (c : N) : N :=
  if c <? 128 then 1 else if c <? 2048 then 2 else if c <? 65536 then 3 else 4.

Definition utf8_length (s : str) : N :=
  fold_right (fun c n => utf8_bytes c + n) 0 s.

(** [SQLITE_MAX_LIKE_PATTERN_LENGTH]. *)
Definition like_pattern_limit : N := 50000.

(** [likeFunc]: a pattern of more bytes than the limit, U+0000 and what
    follows it included, raises "LIKE or GLOB pattern too complex"
    ([None]); otherwise the C strings are matched. *)
Definition like (pat s : str) : option bool :=
  if like_pattern_limit <? utf8_length pat then None
  else Some (pattern_compare (c_string pat) (c_string s)).

(** The parameter [f"%{kw}%"] is over the limit. *)
Definition like_raises (kw : str) : bool :=
  match like ([37] ++ kw ++ [37]) [] with
  | None => true
  | Some _ => false
  end.

(** [col LIKE ?] with the parameter [f"%{kw}%"], in a lookup that does
    not raise. *)
Definition like_kw (kw col : str) : bool :=
  match like ([37] ++ kw ++ [37]) col with
  | Some b => b
  | None => false
  end.

(** [SELECT * FROM crop_usage WHERE ...]. *)
Definition select (where_ : row -> bool) (db : database) : list row :=
  filter where_ db.

(** [f"{row['中文名稱']}__{row['劑型']}__{row['含量']}"]. *)
Definition key_of (r : row) : str :=
  r_chem r ++ u "__" ++ r_form r ++ u "__" ++ r_conc r.

(** ** NoMatch cards and the pesticide map *)

Definition pesticide_map := list (str * card).

Fixpoint pm_mem (k : str) (m : pesticide_map) : bool :=
  match m with
  | [] => false
  | (k', _) :: m' => str_eqb k k' || pm_mem k m'
  end.

Fixpoint pm_update (k : str) (f : card -> card) (m : pesticide_map)
  : pesticide_map :=
  match m with
  | [] => []
  | (k', c) :: m' =>
      if str_eqb k k' then (k', f c) :: m' else (k', c) :: pm_update k f m'
  end.

(** [card['usages'].append(x)] *)
Definition append_usage (x : usage) (c : card) : card :=
  set "usages" (VUsages (usages_of c ++ [x])) c.

(** [pesticide['usages'] = remove_duplicate_usages(pesticide['usages'])] *)
Definition dedup_card (c : card) : card :=
  set "usages" (VUsages (remove_duplicate_usages (usages_of c))) c.

(** The dicts appended on an empty lookup. *)
Definition no_match_card (msg crop keyword : str) : card :=
  [ "no_match" |-> VBool true;
    "error_message" |-> VStr msg;
    "crop" |-> VStr crop;
    "keyword" |-> VStr keyword ].

(** ** An excerpt of the Unicode tables

    [nfkc_excerpt] and [lower_excerpt] are the two interpreter services
    restricted to strings over ASCII, the CJK unified ideographs
    U+4E00..U+9FFF, the ideographic space U+3000, the combining caron
    U+030C and the 33 letters that an ASCII letter and the caron compose
    to.  They instantiate the section variables wherever a handler is
    run on concrete data. *)

(** Canonical composition of an ASCII letter with U+030C. *)
Definition caron_composites : list (N * N) :=
  [ (65, 461); (67, 268); (68, 270); (69, 282); (71, 486); (72, 542);
    (73, 463); (75, 488); (76, 317); (78, 327); (79, 465); (82, 344);
    (83, 352); (84, 356); (85, 467); (90, 381); (97, 462); (99, 269);
    (100, 271); (101, 283); (103, 487); (104, 543); (105, 464); (106, 496);
    (107, 489); (108, 318); (110, 328); (111, 466); (114, 345); (115, 353);
    (116, 357); (117, 468); (122, 382) ].

Definition compose_caron (base : N) : option N :=
  match find (fun bc => fst bc =? base) caron_composites with
  | Some bc => Some (snd bc)
  | None => None
  end.

(** Compatibility mapping of U+3000 to U+0020. *)
Definition compat_excerpt (c : N) : N := if c =? 12288 then 32 else c.

Fixpoint compose_excerpt (s : str) : str :=
  match s with
  | [] => []
  | c :: s' =>
      match s' with
      | m :: s'' =>
          if m =? 780 then
            match compose_caron c with
            | Some c' => c' :: compose_excerpt s''
            | None => c :: compose_excerpt s'
            end
          else c :: compose_excerpt s'
      | [] => [c]
      end
  end.

Definition nfkc_excerpt (s : str) : str :=
  compose_excerpt (map compat_excerpt s).

(** The capital letters with caron precede their small letters. *)
Definition lower_char_excerpt (c : N) : N :=
  if (65 <=? c) && (c <=? 90) then c + 32
  else if existsb (N.eqb c)
            [461; 268; 270; 282; 486; 542; 463; 488; 317; 327; 465; 344;
             352; 356; 467; 381]
  then c + 1
  else c.

Definition lower_excerpt (s : str) : str := map lower_char_excerpt s.

(** The interpreter's default limit on decimal strings. *)
Definition default_max_str_digits : N := 4300.

(** ** Sample tables

    Small tables and cards on which the handlers are run further down. *)

Definition sample_row (crop pest chem mech interval : string) : row :=
  {| r_crop := u crop;
     r_pest := u pest;
     r_chem := u chem;
     r_brand := u "農友";
     r_barcode := u "4710000000017";
     r_form := u "乳劑";
     r_conc := u "50%";
     r_mech_name := Some (u mech);
     r_mech_note := None;
     r_phi := Some (u interval);
     r_dilution := Some (u "1000");
     r_dosage := None |}.

(** The same row with NULL in the mechanism name. *)
Definition null_mechanism (r : row) : row :=
  {| r_crop := r_crop r;
     r_pest := r_pest r;
     r_chem := r_chem r;
     r_brand := r_brand r;
     r_barcode := r_barcode r;
     r_form := r_form r;
     r_conc := r_conc r;
     r_mech_name := None;
     r_mech_note := r_mech_note r;
     r_phi := r_phi r;
     r_dilution := r_dilution r;
     r_dosage := r_dosage r |}.

(** 蚜蟲 is registered for 甘藍 only, 葉蟎 for 番茄 only. *)
Definition db_reset : database :=
  [ sample_row "甘藍" "蚜蟲" "甲基拌磷" "1B" "7天";
    sample_row "番茄" "葉蟎" "乙託" "10B" "14天" ].

(** 乙託 is registered for both pests of 番茄, 甲基拌磷 for 葉蟎 only. *)
Definition db_common : database :=
  [ sample_row "番茄" "葉蟎" "乙託" "10B" "14天";
    sample_row "番茄" "葉蟎" "甲基拌磷" "1B" "7天";
    sample_row "番茄" "蚜蟲" "乙託" "10B" "14天" ].

(** Both pests are registered for 番茄 with a product whose mechanism
    columns are NULL. *)
Definition db_null : database :=
  [ null_mechanism (sample_row "番茄" "葉蟎" "乙託" "10B" "14天");
    null_mechanism (sample_row "番茄" "蚜蟲" "乙託" "10B" "7天") ].

Definition sample_usage (interval : str) : usage :=
  {| u_crop := u "甘藍";
     u_pest := u "夜蛾";
     u_pest_normalized := u "夜蛾";
     u_phi := interval;
     u_dilution := u "1000";
     u_dosage := [] |}.

Definition card_7 : card :=
  [ "中文名稱" |-> VStr (u "甲基拌磷");
    "usages" |-> VUsages [sample_usage []; sample_usage (u "7天")] ].

Definition card_14 : card :=
  [ "中文名稱" |-> VStr (u "乙託");
    "usages" |-> VUsages [sample_usage (u "14天"); sample_usage (u "3天")] ].

(** 甲基拌磷 is registered for 蚜蟲 and for a pest spelled #蚜蟲, with the
    same interval, dilution and dosage; 乙託 for 蚜蟲類. *)
Definition db_marker : database :=
  [ sample_row "甘藍" "蚜蟲" "甲基拌磷" "1B" "7天";
    sample_row "甘藍" "#蚜蟲" "甲基拌磷" "1B" "7天";
    sample_row "甘藍" "蚜蟲類" "乙託" "10B" "14天" ].

Definition db_plain : database :=
  [ sample_row "甘藍" "蚜蟲" "甲基拌磷" "1B" "7天";
    sample_row "甘藍" "蚜蟲" "甲基拌磷" "1B" "7天";
    sample_row "甘藍" "夜蛾" "乙託" "10B" "14天" ].

(** 稻飛蝱 is a registered pest, but not of 水稻. *)
Definition db_rice : database :=
  [ sample_row "水稻" "稻熱病" "甲基拌磷" "1B" "7天";
    sample_row "玉米" "稻飛蝱" "乙託" "10B" "14天" ].

(** 甲基拌磷 and 乙託 are both registered for 夜蛾 on 甘藍. *)
Definition db_overlap : database :=
  [ sample_row "甘藍" "夜蛾" "甲基拌磷" "1B" "7天";
    sample_row "甘藍" "斜紋夜蛾" "乙託" "10B" "14天";
    sample_row "甘藍" "蚜蟲" "乙託" "10B" "14天" ].

(** ** The handlers *)

Section Pipeline.

(** [unicodedata.normalize('NFKC', _)] and [str.lower]. *)
Variable nfkc : str -> str.
Variable lower : str -> str.

(** [sys.get_int_max_str_digits()]: [0] switches the limit of [int] on
    decimal strings off (as do interpreters that predate it). *)
Variable int_max_str_digits : N.

(** [None] stands for Python's [None]; [not name] also holds of [''].
    The two [replace] calls drop U+0020 and U+3000. *)
Definition normalize_pest_name (name : option str) : str :=
  match name with
  | None => []
  | Some [] => []
  | Some s => lower (remove_char 12288 (remove_char 32 (nfkc s)))
  end.

(** The usage dict every handler appends for a row. *)
Definition usage_of_row (r : row) : usage :=
  {| u_crop := r_crop r;
     u_pest := r_pest r;
     u_pest_normalized := normalize_pest_name (Some (r_pest r));
     u_phi := or_empty (r_phi r);
     u_dilution := or_empty (r_dilution r);
     u_dosage := or_empty (r_dosage r) |}.

(** One turn of the [for row in rows] loop that fills [pesticide_map];
    [new_card row] is the dict literal stored under a fresh key. *)
Definition group_step (new_card : row -> card) (m : pesticide_map) (r : row)
  : pesticide_map :=
  let key := key_of r in
  let m' := if pm_mem key m then m else m ++ [(key, new_card r)] in
  pm_update key (append_usage (usage_of_row r)) m'.

(** The grouping shared by handlers 2 to 8: fill the map, deduplicate
    every card's usages, return [pesticide_map.values()]. *)
Definition group_rows (new_card : row -> card) (rows : list row) : list card :=
  map (fun kc => dedup_card (snd kc)) (fold_left (group_step new_card) rows []).

(** *** 1. crop + several pests (intersection) *)

(** [... WHERE 作物名稱 = ? AND 病蟲害名稱 LIKE ?] with [(crop, f"%{pest}%")]. *)
Definition rows_crop_pest (db : database) (crop pest : str) : list row :=
  select (fun r => str_eqb (r_crop r) crop && like_kw pest (r_pest r)) db.

(** The lookup raises when [LIKE] is evaluated with a pattern over the
    limit: [作物名稱 = ?] is tested first, [LIKE] on the rows of the crop. *)
Definition rows_crop_pest_raises (db : database) (crop pest : str) : bool :=
  like_raises pest && existsb (fun r => str_eqb (r_crop r) crop) db.

(** The set of keys built from [SELECT DISTINCT 中文名稱, 劑型, 含量]; a set
    is kept as a list without repetition. *)
Definition pesticides_of (db : database) (crop pest : str) : list str :=
  nodup (list_eq_dec N.eq_dec) (map key_of (rows_crop_pest db crop pest)).

Definition intersection (a b : list str) : list str :=
  filter (fun k => mem k b) a.

(** One turn of [for pest in pest_keywords]: [if not all_pesticides]
    takes the new set, otherwise the two sets are intersected. *)
Definition all_pesticides_step (db : database) (crop : str)
  (all_pesticides : list str) (pest : str) : list str :=
  let pesticides := pesticides_of db crop pest in
  match all_pesticides with
  | [] => pesticides
  | _ :: _ => intersection all_pesticides pesticides
  end.

Definition all_pesticides_of (db : database) (crop : str)
  (pest_keywords : list str) : list str :=
  fold_left (all_pesticides_step db crop) pest_keywords [].

(** [str(v)] of a card field that holds text, a flag or [None]; a list
    is never formatted by the program. *)
Definition text_of (v : option value) : str :=
  match v with
  | Some (VStr s) => s
  | Some VNone => u "None"
  | Some (VBool true) => u "True"
  | Some (VBool false) => u "False"
  | _ => []
  end.

(** The key of line 38, on a card that holds the three fields, as every
    card of the handlers does; a card without one of them raises
    [KeyError] there. *)
Definition card_key (p : card) : str :=
  text_of (get "中文名稱" p) ++ u "__" ++ text_of (get "劑型" p) ++
  u "__" ++ text_of (get "含量" p).

Fixpoint rdp_loop (unique_pesticides : pesticide_map) (pesticides : list card)
  : pesticide_map :=
  match pesticides with
  | [] => unique_pesticides
  | p :: rest =>
      let key := card_key p in
      if pm_mem key unique_pesticides then rdp_loop unique_pesticides rest
      else rdp_loop (unique_pesticides ++ [(key, p)]) rest
  end.

Definition remove_duplicate_pesticides (pesticides : list card) : list card :=
  map snd (rdp_loop [] pesticides).

Definition intersection_card (crop : str) (pest_keywords : list str) (r : row)
  : card :=
  [ "中文名稱" |-> VStr (r_chem r);
    "劑型" |-> VStr (r_form r);
    "含量" |-> VStr (r_conc r);
    "作用機制名稱" |-> of_sql (r_mech_name r);
    "作用機制備註" |-> of_sql (r_mech_note r);
    "usages" |-> VUsages [];
    "has_common_pesticide" |-> VBool true;
    "crop" |-> VStr crop;
    "keyword" |-> VStr (join (u ", ") pest_keywords);
    "is_crop_and_pest_search" |-> VBool true ].

Definition value_is (v : option value) (s : str) : bool :=
  match v with Some (VStr t) => str_eqb s t | _ => false end.

(** The inner [for row in all_rows] loop followed by the usage
    deduplication, for one [pesticide]. *)
Definition fill_usages (all_rows : list row) (pesticide : card) : card :=
  dedup_card
    (fold_left
       (fun p r =>
          if value_is (get "中文名稱" p) (r_chem r) &&
             value_is (get "劑型" p) (r_form r) &&
             value_is (get "含量" p) (r_conc r)
          then append_usage (usage_of_row r) p else p)
       all_rows pesticide).

Definition intersection_for_crop (db : database) (pest_keywords : list str)
  (crop : str) : list card :=
  let all_pesticides := all_pesticides_of db crop pest_keywords in
  match all_pesticides with
  | [] =>
      [ no_match_card
          (u "無共同防治藥劑：" ++ crop ++ u "的" ++ join (u ", ") pest_keywords)
          crop (join (u ", ") pest_keywords) ]
  | _ :: _ =>
      let all_rows := flat_map (rows_crop_pest db crop) pest_keywords in
      let unique_pesticides :=
        filter (fun p => mem (card_key p) all_pesticides)
          (remove_duplicate_pesticides
             (map (intersection_card crop pest_keywords) all_rows)) in
      map (fill_usages all_rows) unique_pesticides
  end.

Definition handle_crop_pests_intersection (db : database)
  (crop_keywords pest_keywords : list str) : list card :=
  flat_map (intersection_for_crop db pest_keywords) crop_keywords.

(** *** 2. crop + one pest *)

Definition single_pest_card (crop pest : str) (r : row) : card :=
  [ "中文名稱" |-> VStr (r_chem r);
    "劑型" |-> VStr (r_form r);
    "含量" |-> VStr (r_conc r);
    "作用機制名稱" |-> VStr (or_empty (r_mech_name r));
    "作用機制備註" |-> VStr (or_empty (r_mech_note r));
    "usages" |-> VUsages [];
    "crop" |-> VStr crop;
    "keyword" |-> VStr pest;
    "is_crop_and_pest_search" |-> VBool true ].

Definition single_pest_for_crop (db : database) (pest crop : str)
  : list card :=
  match rows_crop_pest db crop pest with
  | [] =>
      [ no_match_card (u "無登記使用防治藥劑：" ++ crop ++ u "的" ++ pest)
          crop pest ]
  | rows => group_rows (single_pest_card crop pest) rows
  end.

Definition handle_crop_single_pest (db : database) (crop_keywords : list str)
  (pest : str) : list card :=
  flat_map (single_pest_for_crop db pest) crop_keywords.

(** *** 3. crop + chemical / brand / barcode *)

Inductive kw_type := Chem | Brand | Barcode.

(** The [if kw in all_chems ... elif ... else: continue] cascade. *)
Definition resolve (all_chems all_brands all_barcodes : list str) (kw : str)
  : option kw_type :=
  if mem kw all_chems then Some Chem
  else if mem kw all_brands then Some Brand
  else if mem kw all_barcodes then Some Barcode
  else None.

Definition column_of (t : kw_type) : row -> str :=
  match t with Chem => r_chem | Brand => r_brand | Barcode => r_barcode end.

Definition rows_crop_mixed (db : database) (crop kw : str) (t : kw_type)
  : list row :=
  select (fun r => str_eqb (r_crop r) crop && str_eqb (column_of t r) kw) db.

Definition query_type_of (t : kw_type) : str :=
  match t with
  | Chem => u "作物+農藥"
  | Brand => u "作物+brand"
  | Barcode => u "作物+barcode"
  end.

Definition brand_name (r : row) : str :=
  r_chem r ++ u "（" ++ r_brand r ++ u "）".

Definition barcode_name (r : row) : str :=
  r_chem r ++ u "（" ++ r_brand r ++ u "） 條碼：" ++ r_barcode r.

(** [display_name] of the card-building loop. *)
Definition mixed_display_name (t : kw_type) (r : row) : str :=
  match t with
  | Chem => r_chem r
  | Brand => brand_name r
  | Barcode => barcode_name r
  end.

(** [display_name] of the empty-lookup branch: the second query goes to
    the whole table, [chems[0]] and [fetchone()] take its first row. *)
Definition missing_display_name (db : database) (t : kw_type) (kw : str)
  : str :=
  match t with
  | Chem => kw
  | Brand =>
      match select (fun r => str_eqb (r_brand r) kw) db with
      | r :: _ => r_chem r ++ u "（" ++ kw ++ u "）"
      | [] => u "（" ++ kw ++ u "）"
      end
  | Barcode =>
      match select (fun r => str_eqb (r_barcode r) kw) db with
      | r :: _ => r_chem r ++ u "（" ++ r_brand r ++ u "） 條碼：" ++ kw
      | [] => u "條碼：" ++ kw
      end
  end.

Definition mixed_no_match (db : database) (crop kw : str) (t : kw_type)
  : card :=
  [ "no_match" |-> VBool true;
    "error_message" |->
      VStr (missing_display_name db t kw ++ u " 無法使用於作物：" ++ crop);
    "crop" |-> VStr crop;
    "keyword" |-> VStr kw;
    "query_type" |-> VStr (query_type_of t) ].

Definition mixed_card (crop kw : str) (t : kw_type) (r : row) : card :=
  [ "中文名稱" |-> VStr (mixed_display_name t r);
    "raw_chem_name" |-> VStr (r_chem r);
    "劑型" |-> VStr (r_form r);
    "含量" |-> VStr (r_conc r);
    "作用機制名稱" |-> VStr (or_empty (r_mech_name r));
    "作用機制備註" |-> VStr (or_empty (r_mech_note r));
    "usages" |-> VUsages [];
    "crop" |-> VStr crop;
    "keyword" |-> VStr kw;
    "is_crop_and_pest_search" |-> VBool false;
    "query_type" |-> VStr (query_type_of t) ].

(** [pest_names_by_chem]: a dict from raw chemical names to sets of pest
    names.  A set is kept as a list without repetition; the program only
    tests membership and emptiness of these sets. *)
Definition pest_names := list (str * list str).

Definition set_add (x : str) (s : list str) : list str :=
  if mem x s then s else s ++ [x].

Fixpoint pn_get (chem : str) (m : pest_names) : list str :=
  match m with
  | [] => []
  | (c, ps) :: m' => if str_eqb chem c then ps else pn_get chem m'
  end.

Fixpoint pn_has (chem : str) (m : pest_names) : bool :=
  match m with
  | [] => false
  | (c, _) :: m' => str_eqb chem c || pn_has chem m'
  end.

Fixpoint pn_update (chem : str) (f : list str -> list str) (m : pest_names)
  : pest_names :=
  match m with
  | [] => []
  | (c, ps) :: m' =>
      if str_eqb chem c then (c, f ps) :: m' else (c, ps) :: pn_update chem f m'
  end.

Definition collect_pest (m : pest_names) (r : row) : pest_names :=
  let m' := if pn_has (r_chem r) m then m else m ++ [(r_chem r, [])] in
  pn_update (r_chem r) (set_add (r_pest r)) m'.

(** The body of [for kw in mixed_keywords], on the pair of [results] and
    [pest_names_by_chem]. *)
Definition mixed_step (db : database) (all_chems all_brands all_barcodes : list str)
  (crop : str) (st : list card * pest_names) (kw : str)
  : list card * pest_names :=
  match resolve all_chems all_brands all_barcodes kw with
  | None => st
  | Some t =>
      match rows_crop_mixed db crop kw t with
      | [] => (mixed_no_match db crop kw t :: fst st, snd st)
      | rows =>
          (fst st ++ group_rows (mixed_card crop kw t) rows,
           fold_left collect_pest rows (snd st))
      end
  end.

(** First step: both loops. *)
Definition mixed_collect (db : database) (crop_keywords mixed_keywords : list str)
  (all_chems all_brands all_barcodes : list str) : list card * pest_names :=
  fold_left
    (fun st crop =>
       fold_left (mixed_step db all_chems all_brands all_barcodes crop)
         mixed_keywords st)
    crop_keywords ([], []).

(** The four ways two pest names count as the same pest. *)
Definition same_pest (pest1 pest2 : str) : bool :=
  str_eqb pest1 pest2 || contains pest1 pest2 || contains pest2 pest1 ||
  str_eqb (remove_char 33865 pest1) (remove_char 33865 pest2).

Definition common_pests (pests1 pests2 : list str) : list str :=
  fold_left
    (fun acc pest1 =>
       fold_left
         (fun acc pest2 =>
            if same_pest pest1 pest2 then set_add pest2 (set_add pest1 acc)
            else acc)
         pests2 acc)
    pests1 [].

(** The index pairs [i < j] of the double [range] loop. *)
Fixpoint pairs (A : Type) (l : list A) : list (A * A) :=
  match l with
  | [] => []
  | x :: t => map (pair x) t ++ pairs t
  end.

(** Second step. *)
Definition duplicate_pests_of (m : pest_names) : list str :=
  fold_left
    (fun dup cc =>
       let pests1 := pn_get (fst cc) m in
       let pests2 := pn_get (snd cc) m in
       match pests1, pests2 with
       | [], _ | _, [] => dup
       | _, _ => fold_left (fun d p => set_add p d) (common_pests pests1 pests2) dup
       end)
    (pairs (map fst m)) [].

(** Third step: [usage['病蟲害名稱'] = f"#{pest_name}"]. *)
Definition mark_usage (duplicate_pests : list str) (x : usage) : usage :=
  if mem (u_pest x) duplicate_pests then
    {| u_crop := u_crop x;
       u_pest := u "#" ++ u_pest x;
       u_pest_normalized := u_pest_normalized x;
       u_phi := u_phi x;
       u_dilution := u_dilution x;
       u_dosage := u_dosage x |}
  else x.

Definition mark_card (duplicate_pests : list str) (result : card) : card :=
  if is_no_match result then result
  else
    match get "usages" result with
    | Some (VUsages us) =>
        set "usages" (VUsages (map (mark_usage duplicate_pests) us)) result
    | _ => result
    end.

(** The contribution of one card to [marked_count]. *)
Definition marked_in (duplicate_pests : list str) (result : card) : nat :=
  if is_no_match result then 0%nat
  else List.length
         (filter (fun x => mem (u_pest x) duplicate_pests) (usages_of result)).

Definition marked_count_of (duplicate_pests : list str) (results : list card)
  : nat :=
  fold_left (fun n c => (n + marked_in duplicate_pests c)%nat) results 0%nat.

Definition overlap_notice (crop_keywords mixed_keywords : list str) : card :=
  no_match_card (u "沒有重複防治的害物")
    (match crop_keywords with c :: _ => c | [] => [] end)
    (join (u ", ") mixed_keywords).

(** Second and third step on the outcome of the first. *)
Definition mixed_mark (crop_keywords mixed_keywords : list str)
  (st : list card * pest_names) : list card :=
  let duplicate_pests := duplicate_pests_of (snd st) in
  let marked_count := marked_count_of duplicate_pests (fst st) in
  let results := map (mark_card duplicate_pests) (fst st) in
  if Nat.eqb marked_count 0 && Nat.leb 2 (List.length mixed_keywords)
  then overlap_notice crop_keywords mixed_keywords :: results
  else results.

Definition handle_crop_mixed_keywords (db : database)
  (crop_keywords mixed_keywords all_chems all_brands all_barcodes : list str)
  : list card :=
  mixed_mark crop_keywords mixed_keywords
    (mixed_collect db crop_keywords mixed_keywords
       all_chems all_brands all_barcodes).

(** *** 4 to 8. one bucket *)

Definition plain_card (r : row) : card :=
  [ "中文名稱" |-> VStr (r_chem r);
    "劑型" |-> VStr (r_form r);
    "含量" |-> VStr (r_conc r);
    "作用機制名稱" |-> VStr (or_empty (r_mech_name r));
    "作用機制備註" |-> VStr (or_empty (r_mech_note r));
    "usages" |-> VUsages [] ].

Definition chem_card (r : row) : card :=
  [ "中文名稱" |-> VStr (r_chem r);
    "作物名稱" |-> VStr (r_crop r);
    "病蟲害名稱" |-> VStr (r_pest r);
    "劑型" |-> VStr (r_form r);
    "含量" |-> VStr (r_conc r);
    "作用機制名稱" |-> VStr (or_empty (r_mech_name r));
    "作用機制備註" |-> VStr (or_empty (r_mech_note r));
    "usages" |-> VUsages [] ].

Definition decorated_card (name : row -> str) (r : row) : card :=
  [ "中文名稱" |-> VStr (name r);
    "劑型" |-> VStr (r_form r);
    "含量" |-> VStr (r_conc r);
    "作用機制名稱" |-> VStr (or_empty (r_mech_name r));
    "作用機制備註" |-> VStr (or_empty (r_mech_note r));
    "usages" |-> VUsages [] ].

Definition rows_where (col : row -> str) (db : database) (kw : str) : list row :=
  select (fun r => str_eqb (col r) kw) db.

Definition rows_fallback (db : database) (kw : str) : list row :=
  select
    (fun r =>
       like_kw kw (r_crop r) || like_kw kw (r_pest r) || like_kw kw (r_chem r) ||
       like_kw kw (r_brand r) || like_kw kw (r_barcode r))
    db.

(** The five patterns are the same text: the first [LIKE] on the first
    row of the table raises when it is over the limit. *)
Definition rows_fallback_raises (db : database) (kw : str) : bool :=
  like_raises kw && match db with [] => false | _ :: _ => true end.

Definition handle_crop_only (db : database) (crop_keywords : list str)
  : list card :=
  flat_map (fun crop => group_rows plain_card (rows_where r_crop db crop))
    crop_keywords.

Definition handle_chem_only (db : database) (chem_keywords : list str)
  : list card :=
  flat_map (fun chem => group_rows chem_card (rows_where r_chem db chem))
    chem_keywords.

Definition handle_brand_only (db : database) (brand_keywords : list str)
  : list card :=
  flat_map
    (fun brand =>
       group_rows (decorated_card brand_name) (rows_where r_brand db brand))
    brand_keywords.

Definition handle_barcode_only (db : database) (barcode_keywords : list str)
  : list card :=
  flat_map
    (fun barcode =>
       group_rows (decorated_card barcode_name)
         (rows_where r_barcode db barcode))
    barcode_keywords.

Definition handle_fallback_partial_match (db : database)
  (other_keywords : list str) : list card :=
  flat_map (fun kw => group_rows plain_card (rows_fallback db kw))
    other_keywords.

(** ** The ranker *)

(** The second component of the sort key: an [int] or [float('inf')]. *)
Inductive days := Days (n : N) | Inf.

(** [int(digits)] on a string of decimal digits: the value, or the
    [ValueError] of an empty string or of one longer than the limit. *)
Definition int_of_digits (digits : str) : option N :=
  match digits with
  | [] => None
  | _ :: _ =>
      if (0 <? int_max_str_digits) &&
         (int_max_str_digits <? N.of_nat (List.length digits))
      then None
      else
        Some (fold_left
                (fun acc c =>
                   acc * 10 + match decimal c with Some d => d | None => 0 end)
                digits 0)
  end.

Definition extract_days (text : str) : days :=
  match text with
  | [] => Inf
  | _ :: _ =>
      match int_of_digits (filter is_digit text) with
      | Some n => Days n
      | None => Inf
      end
  end.

(** [next((u['安全採收期'] for u in usages if u['安全採收期']), '')] *)
Definition first_interval (usages : list usage) : str :=
  match find (fun x => match u_phi x with [] => false | _ :: _ => true end)
          usages with
  | Some x => u_phi x
  | None => []
  end.

(** The key of the [lambda]; [None] is a [TypeError] (a flag that cannot
    be negated, a [usages] value that cannot be iterated over). *)
Definition sort_key (x : card) : option (Z * days) :=
  match
    match get "has_exact_match" x with
    | None => Some 0%Z
    | Some (VBool b) => Some (if b then (-1)%Z else 0%Z)
    | Some _ => None
    end
  with
  | None => None
  | Some flag =>
      match get "usages" x with
      | None => Some (flag, Inf)
      | Some (VUsages us) => Some (flag, extract_days (first_interval us))
      | Some (VStr []) => Some (flag, Inf)
      | Some _ => None
      end
  end.

Definition days_ltb (a b : days) : bool :=
  match a, b with
  | Days m, Days n => m <? n
  | Days _, Inf => true
  | Inf, _ => false
  end.

(** [<] on the key tuples. *)
Definition key_ltb (a b : Z * days) : bool :=
  (fst a <? fst b)%Z || ((fst a =? fst b)%Z && days_ltb (snd a) (snd b)).

(** [list.sort(key=...)] is stable: a keyed element goes in front of the
    first sorted element whose key is not smaller. *)
Fixpoint insert_keyed (A K : Type) (ltb : K -> K -> bool) (x : K * A)
  (l : list (K * A)) : list (K * A) :=
  match l with
  | [] => [x]
  | y :: l' =>
      if ltb (fst y) (fst x) then y :: insert_keyed ltb x l' else x :: y :: l'
  end.

Definition sort_keyed (A K : Type) (ltb : K -> K -> bool) (l : list (K * A))
  : list (K * A) :=
  fold_right (insert_keyed ltb) [] l.

(** The keys of all elements are computed before any comparison. *)
Fixpoint keyed (A K : Type) (key : A -> option K) (l : list A)
  : option (list (K * A)) :=
  match l with
  | [] => Some []
  | x :: l' =>
      match key x, keyed key l' with
      | Some k, Some kl => Some ((k, x) :: kl)
      | _, _ => None
      end
  end.

(** The keyword arguments of the function are not used by its body and
    are left out. *)
Definition deduplicate_and_sort_results (results : list card)
  : option (list card) :=
  match keyed sort_key results with
  | Some kl => Some (map snd (sort_keyed key_ltb kl))
  | None => None
  end.

(** ** The search entry point *)

(** The separator class [[,，\s]]. *)
Definition is_sep (c : N) : bool := (c =? 44) || (c =? 65292) || is_space c.

(** [re.split(r'[,，\s]+', s)]; [in_run] tells that the previous
    character already belonged to a separator run. *)
Fixpoint re_split (in_run : bool) (s : str) : list str :=
  match s with
  | [] => [[]]
  | c :: s' =>
      if is_sep c then
        if in_run then re_split true s' else [] :: re_split true s'
      else
        match re_split false s' with
        | p :: ps => (c :: p) :: ps
        | [] => [[c]]
        end
  end.

Fixpoint lstrip (s : str) : str :=
  match s with
  | [] => []
  | c :: s' => if is_space c then lstrip s' else s
  end.

Definition strip (s : str) : str := rev (lstrip (rev (lstrip s))).

Definition keyword_list_of (keywords : str) : list str :=
  map strip
    (filter (fun k => match strip k with [] => false | _ :: _ => true end)
       (re_split false keywords)).

Definition nonempty (A : Type) (l : list A) : bool :=
  match l with [] => false | _ :: _ => true end.

(** The response: [jsonify(results)], or the 500 answer of the
    [except] clause. *)
Inductive response := Ok (cards : list card) | Error.

Record buckets := mkBuckets {
  crop_keywords : list str;
  pest_keywords : list str;
  chem_keywords : list str;
  brand_keywords : list str;
  barcode_keywords : list str;
  other_keywords : list str
}.

Definition classify (db : database) (keyword_list : list str) : buckets :=
  let all_crops := map r_crop db in
  let all_pests := map r_pest db in
  let all_chems := map r_chem db in
  let all_brands := map r_brand db in
  let all_barcodes := map r_barcode db in
  {| crop_keywords := filter (fun kw => mem kw all_crops) keyword_list;
     pest_keywords := filter (fun kw => mem kw all_pests) keyword_list;
     chem_keywords := filter (fun kw => mem kw all_chems) keyword_list;
     brand_keywords := filter (fun kw => mem kw all_brands) keyword_list;
     barcode_keywords := filter (fun kw => mem kw all_barcodes) keyword_list;
     other_keywords :=
       filter
         (fun kw =>
            negb (mem kw (all_crops ++ all_pests ++ all_chems ++ all_brands ++
                          all_barcodes)))
         keyword_list |}.

Definition mixed_keywords (b : buckets) : list str :=
  chem_keywords b ++ brand_keywords b ++ barcode_keywords b.

(** The eight [if ...: results += ...] statements. *)
Definition route (db : database) (b : buckets) : list card :=
  let crops := crop_keywords b in
  let pests := pest_keywords b in
  let mixed := mixed_keywords b in
  (if nonempty crops && Nat.leb 2 (List.length pests)
   then handle_crop_pests_intersection db crops pests else []) ++
  (if nonempty crops
   then match pests with
        | [pest] => handle_crop_single_pest db crops pest
        | _ => []
        end
   else []) ++
  (if nonempty crops && nonempty mixed
   then handle_crop_mixed_keywords db crops mixed
          (map r_chem db) (map r_brand db) (map r_barcode db)
   else []) ++
  (if nonempty crops && negb (nonempty pests || nonempty mixed)
   then handle_crop_only db crops else []) ++
  (if nonempty (chem_keywords b) && negb (nonempty crops)
   then handle_chem_only db (chem_keywords b) else []) ++
  (if nonempty (brand_keywords b) && negb (nonempty crops)
   then handle_brand_only db (brand_keywords b) else []) ++
  (if nonempty (barcode_keywords b) && negb (nonempty crops)
   then handle_barcode_only db (barcode_keywords b) else []) ++
  (if negb (nonempty crops) && negb (nonempty pests) && negb (nonempty mixed) &&
      nonempty (other_keywords b)
   then handle_fallback_partial_match db (other_keywords b) else []).

(** Whether a handler raises: the intersection strategy runs the lookup
    of every pest keyword for every crop keyword, the single-pest
    strategy the lookup of its pest for every crop keyword, the
    fallback the lookup of every keyword.  The lookups of the other
    strategies compare with [=] and do not raise. *)
Definition handle_crop_pests_intersection_raises (db : database)
  (crop_keywords pest_keywords : list str) : bool :=
  existsb (fun crop => existsb (rows_crop_pest_raises db crop) pest_keywords)
    crop_keywords.

Definition handle_crop_single_pest_raises (db : database)
  (crop_keywords : list str) (pest : str) : bool :=
  existsb (fun crop => rows_crop_pest_raises db crop pest) crop_keywords.

Definition handle_fallback_partial_match_raises (db : database)
  (other_keywords : list str) : bool :=
  existsb (rows_fallback_raises db) other_keywords.

(** Some handler that [route] runs raises. *)
Definition route_raises (db : database) (b : buckets) : bool :=
  let crops := crop_keywords b in
  let pests := pest_keywords b in
  let mixed := mixed_keywords b in
  (nonempty crops && Nat.leb 2 (List.length pests) &&
   handle_crop_pests_intersection_raises db crops pests) ||
  (nonempty crops &&
   match pests with
   | [pest] => handle_crop_single_pest_raises db crops pest
   | _ => false
   end) ||
  (negb (nonempty crops) && negb (nonempty pests) && negb (nonempty mixed) &&
   nonempty (other_keywords b) &&
   handle_fallback_partial_match_raises db (other_keywords b)).

(** [store] is the table behind [get_db_connection()]; [None] is a store
    whose first query raises.  An exception raised anywhere in the [try]
    block, by a lookup of a handler or by the sort, ends in the
    [except] clause whatever cards were built before it.  No card
    carries a [matchSet] key, so the loop after the sort changes
    nothing. *)
Definition search_pesticides (store : option database) (keywords : str)
  : response :=
  match keywords with
  | [] => Ok []
  | _ :: _ =>
      match keyword_list_of keywords with
      | [] => Ok []
      | keyword_list =>
          match store with
          | None => Error
          | Some db =>
              let b := classify db keyword_list in
              if route_raises db b then Error
              else
                match deduplicate_and_sort_results (route db b) with
                | Some results => Ok results
                | None => Error
                end
          end
      end
  end.

(** ** Vocabulary of the properties *)

(** Two entries agree when the four compared fields coincide. *)
Definition agree (a b : usage) : Prop :=
  u_pest a = u_pest b /\ u_phi a = u_phi b /\
  u_dilution a = u_dilution b /\ u_dosage a = u_dosage b.

(** No two entries of the list, at different positions, agree. *)
Definition unique_usages (l : list usage) : Prop :=
  forall i j a b,
    nth_error l i = Some a -> nth_error l j = Some b -> i <> j -> ~ agree a b.

Definition card_unique (c : card) : Prop := unique_usages (usages_of c).

Definition differ (a b : usage) : Prop := same_usage a b = false.

Definition pairwise (l : list usage) : Prop := ForallOrdPairs differ l.

(** A property of cards that survives every assignment to [usages]. *)
Definition usages_stable (P : card -> Prop) : Prop :=
  forall us c, P c -> P (set "usages" (VUsages us) c).

(** The dict literals of the program. *)
Record holds_on_literals (P : card -> Prop) : Prop := {
  lit_no_match : forall msg crop kw, P (no_match_card msg crop kw);
  lit_intersection : forall crop pests r, P (intersection_card crop pests r);
  lit_single_pest : forall crop pest r, P (single_pest_card crop pest r);
  lit_mixed_no_match : forall db crop kw t, P (mixed_no_match db crop kw t);
  lit_mixed : forall crop kw t r, P (mixed_card crop kw t r);
  lit_plain : forall r, P (plain_card r);
  lit_chem : forall r, P (chem_card r);
  lit_decorated : forall name r, P (decorated_card name r)
}.

(** [x] may stand in front of [y]. *)
Definition in_order (A K : Type) (ltb : K -> K -> bool) (x y : K * A) : Prop :=
  ltb (fst y) (fst x) = false.

(** The two criteria in the words of the ranking rule: the exact-match
    flag, false when absent, and the days read off the first non-empty
    interval among the usage entries. *)
Definition exact_match (c : card) : bool := truthy (get "has_exact_match" c).

Definition interval_days (c : card) : days :=
  extract_days (first_interval (usages_of c)).

(** A flagged card ranks before an unflagged one; with equal flags the
    smaller number of days ranks first, any number before infinity. *)
Definition ranks_before (c1 c2 : card) : Prop :=
  (exact_match c1 = true /\ exact_match c2 = false) \/
  (exact_match c1 = exact_match c2 /\
   days_ltb (interval_days c1) (interval_days c2) = true).

Definition days_eqb (a b : days) : bool :=
  match a, b with
  | Days m, Days n => m =? n
  | Inf, Inf => true
  | _, _ => false
  end.

Definition has_rank (flag : bool) (d : days) (c : card) : bool :=
  Bool.eqb (exact_match c) flag && days_eqb (interval_days c) d.

(** The key the [lambda] computes, when it computes one. *)
Definition rank_key (c : card) : Z * days :=
  ((if exact_match c then (-1)%Z else 0%Z), interval_days c).

(** The limit on decimal strings is off or at least 640, the values the
    interpreter accepts. *)
Definition limit_ok : Prop :=
  int_max_str_digits = 0 \/ 640 <= int_max_str_digits.

Definition rankable (c : card) : Prop :=
  get "has_exact_match" c = None /\
  (get "usages" c = None \/ exists us, get "usages" c = Some (VUsages us)).

(** The list handed to the ranker for a query. *)
Definition routed (db : database) (keywords : str) : list card :=
  match keyword_list_of keywords with
  | [] => []
  | keyword_list => route db (classify db keyword_list)
  end.

(** A lookup of the query raises. *)
Definition raises (db : database) (keywords : str) : bool :=
  match keyword_list_of keywords with
  | [] => false
  | keyword_list => route_raises db (classify db keyword_list)
  end.

(** The part of the routed list that comes from strategy 3. *)
Definition mixed_part (db : database) (b : buckets) : list card :=
  if nonempty (crop_keywords b) && nonempty (mixed_keywords b)
  then handle_crop_mixed_keywords db (crop_keywords b) (mixed_keywords b)
         (map r_chem db) (map r_brand db) (map r_barcode db)
  else [].

Inductive bucket := CropOnly | ChemOnly | BrandOnly | BarcodeOnly | Fallback.

(** The lookup a single-bucket handler runs for one keyword. *)
Definition bucket_lookup (s : bucket) (db : database) (kw : str) : list row :=
  match s with
  | CropOnly => rows_where r_crop db kw
  | ChemOnly => rows_where r_chem db kw
  | BrandOnly => rows_where r_brand db kw
  | BarcodeOnly => rows_where r_barcode db kw
  | Fallback => rows_fallback db kw
  end.

Definition bucket_handler (s : bucket) : database -> list str -> list card :=
  match s with
  | CropOnly => handle_crop_only
  | ChemOnly => handle_chem_only
  | BrandOnly => handle_brand_only
  | BarcodeOnly => handle_barcode_only
  | Fallback => handle_fallback_partial_match
  end.

(** Outside the intersection strategy the two mechanism fields of a
    product card always hold text. *)
Definition mechanism_text (c : card) : Prop :=
  get "has_common_pesticide" c = Some (VBool true) \/
  get "no_match" c = Some (VBool true) \/
  exists name note,
    get "作用機制名稱" c = Some (VStr name) /\
    get "作用機制備註" c = Some (VStr note).

(** [p in s] holds exactly of the substrings. *)
Definition substring (p s : str) : Prop := exists pre post, s = pre ++ p ++ post.

(** The three rules of the comparison, exact equality being a case of
    containment as well. *)
Definition same_pest_rel (p q : str) : Prop :=
  p = q \/ substring p q \/ substring q p \/
  remove_char 33865 p = remove_char 33865 q.

(** A pest name recurs when two different chemicals of the collected
    map list it, or list it and a name that counts as the same pest. *)
Definition recurs (m : pest_names) (p : str) : Prop :=
  exists chem1 chem2 q,
    chem1 <> chem2 /\ In p (pn_get chem1 m) /\ In q (pn_get chem2 m) /\
    same_pest_rel p q.

(** The rows whose pest names the first step records. *)
Definition recorded (db : database) (crops mixed ac ab abar : list str)
  (chem p : str) : Prop :=
  exists crop kw t r,
    In crop crops /\ In kw mixed /\ resolve ac ab abar kw = Some t /\
    In r (rows_crop_mixed db crop kw t) /\ r_chem r = chem /\ r_pest r = p.

(** Every usage entry of a collected card was built from a row. *)
Definition from_rows (c : card) : Prop :=
  Forall (fun x => exists r, x = usage_of_row r) (usages_of c).

(** What the third step does to one usage entry and to one card, told
    with [recurs] on the collected map [m]. *)
Definition marked_usage (m : pest_names) (x x' : usage) : Prop :=
  (recurs m (u_pest x) -> u_pest x' = u "#" ++ u_pest x) /\
  (~ recurs m (u_pest x) -> u_pest x' = u_pest x) /\
  u_pest_normalized x' = normalize_pest_name (Some (u_pest x)) /\
  u_pest_normalized x' = u_pest_normalized x /\
  u_crop x' = u_crop x /\ u_phi x' = u_phi x /\
  u_dilution x' = u_dilution x /\ u_dosage x' = u_dosage x.

Definition marked_card (m : pest_names) (c c' : card) : Prop :=
  (is_no_match c = true -> c' = c) /\
  (is_no_match c = false ->
   (forall k, k <> "usages"%string -> get k c' = get k c) /\
   Forall2 (marked_usage m) (usages_of c) (usages_of c')).

(** No usage entry of a product card has a recurring pest name. *)
Definition none_marked (m : pest_names) (results : list card) : Prop :=
  forall c x,
    In c results -> is_no_match c = false -> In x (usages_of c) ->
    ~ recurs m (u_pest x).

(** A character that is not a separator of the query. *)
Definition keyword_char (c : N) : bool := negb (is_sep c).

(** The two kinds of cards: a product card has no [no_match] key, text
    in its three identifying fields and a list of usages; a NoMatch card
    has [no_match] set, text in [error_message], [crop] and [keyword],
    and no usages. *)
Definition product_card (c : card) : Prop :=
  get "no_match" c = None /\
  (exists name form conc,
      get "中文名稱" c = Some (VStr name) /\ get "劑型" c = Some (VStr form) /\
      get "含量" c = Some (VStr conc)) /\
  exists us, get "usages" c = Some (VUsages us).

Definition notice_card (c : card) : Prop :=
  get "no_match" c = Some (VBool true) /\ get "usages" c = None /\
  exists msg crop kw,
    get "error_message" c = Some (VStr msg) /\
    get "crop" c = Some (VStr crop) /\ get "keyword" c = Some (VStr kw).

(** The reference sets of the classifier. *)
Definition classified (db : database) (kw : str) : Prop :=
  In kw (map r_crop db) \/ In kw (map r_pest db) \/ In kw (map r_chem db) \/
  In kw (map r_brand db) \/ In kw (map r_barcode db).

(** A key that every pest keyword has for the crop. *)
Definition common_pesticide (db : database) (crop : str) (pests : list str)
  (k : str) : Prop :=
  forall pest, In pest pests -> In k (pesticides_of db crop pest).

(** The first row of every key, in table order; [seen] holds the keys
    met so far. *)
Fixpoint first_rows (seen : list str) (rows : list row) : list row :=
  match rows with
  | [] => []
  | r :: rest =>
      if mem (key_of r) seen then first_rows seen rest
      else r :: first_rows (key_of r :: seen) rest
  end.

(** The rows that share the key of [r0]. *)
Definition same_key (r0 r : row) : bool := str_eqb (key_of r) (key_of r0).



(** The value can stand in an f-string of the program: the key is
    there and holds text, a flag or [None]. *)
Definition formattable (v : option value) : Prop :=
  match v with
  | Some (VStr _) | Some VNone | Some (VBool _) => True
  | Some (VUsages _) | None => False
  end.

(** The three fields that [remove_duplicate_pesticides] reads are
    there; a card without one of them raises [KeyError] at line 38. *)
Definition key_fields (c : card) : Prop :=
  formattable (get "中文名稱" c) /\ formattable (get "劑型" c) /\
  formattable (get "含量" c).

(** No pest name of the table starts with the overlap marker. *)
Definition marker_free (db : database) : Prop :=
  forall r, In r db -> starts_with (u "#") (r_pest r) = false.

(** The list starts with NoMatch cards and goes on with product cards. *)
Definition notices_first (l : list card) : Prop :=
  exists notices products,
    l = notices ++ products /\
    Forall (fun c => is_no_match c = true) notices /\
    Forall (fun c => is_no_match c = false) products.

(** Every usage entry of the card is for one of the crops. *)
Definition usages_for (crops : list str) (c : card) : Prop :=
  Forall (fun x => In (u_crop x) crops) (usages_of c).

(** A card of one of two kinds. *)
Definition either (P Q : card -> Prop) (c : card) : Prop := P c \/ Q c.

(** ** Properties *)

(** *** Strings *)

Lemma str_eqb_eq (a b : str) : str_eqb a b = true <-> a = b.
Proof.
  unfold str_eqb. destruct (list_eq_dec N.eq_dec a b); split; congruence.
Qed.

Lemma str_eqb_refl (a : str) : str_eqb a a = true.
Proof. now apply str_eqb_eq. Qed.

Lemma str_eqb_neq (a b : str) : str_eqb a b = false <-> a <> b.
Proof.
  unfold str_eqb. destruct (list_eq_dec N.eq_dec a b); split; congruence.
Qed.

Lemma mem_In (x : str) (l : list str) : mem x l = true <-> In x l.
Proof.
  unfold mem. rewrite existsb_exists. split.
  - intros [y [Hy He]]. apply str_eqb_eq in He. now subst.
  - intros H. exists x. split; [assumption | apply str_eqb_refl].
Qed.

(** *** Dict access *)

Lemma get_set_same (k : string) (v : value) (c : card) :
  get k (set k v c) = Some v.
Proof.
  induction c as [|[k' v'] c IH]; simpl.
  - now rewrite String.eqb_refl.
  - destruct (String.eqb k k') eqn:E; simpl; rewrite E; auto.
Qed.

Lemma get_set_other (k k' : string) (v : value) (c : card) :
  k <> k' -> get k' (set k v c) = get k' c.
Proof.
  intros Hk. induction c as [|[k0 v0] c IH]; simpl.
  - destruct (String.eqb k' k) eqn:E; [|reflexivity].
    apply String.eqb_eq in E. congruence.
  - destruct (String.eqb k k0) eqn:E; simpl.
    + apply String.eqb_eq in E. subst k0.
      destruct (String.eqb k' k) eqn:E'; [|reflexivity].
      apply String.eqb_eq in E'. congruence.
    + now rewrite IH.
Qed.

Lemma usages_of_set (us : list usage) (c : card) :
  usages_of (set "usages" (VUsages us) c) = us.
Proof. unfold usages_of. now rewrite get_set_same. Qed.

(** *** The keyword splitter *)

Lemma re_split_separators (s : str) (in_run : bool) :
  forallb is_sep s = true -> Forall (fun p => p = []) (re_split in_run s).
Proof.
  revert in_run. induction s as [|c s IH]; intros in_run H; simpl.
  - repeat constructor.
  - simpl in H. apply andb_true_iff in H as [Hc Hs]. rewrite Hc.
    destruct in_run; [|constructor]; auto.
Qed.

Lemma keyword_list_of_separators (s : str) :
  forallb is_sep s = true -> keyword_list_of s = [].
Proof.
  intros H. unfold keyword_list_of.
  pose proof (re_split_separators s false H) as F.
  induction F as [|p ps Hp F IH]; simpl; [reflexivity|].
  subst p. simpl. exact IH.
Qed.

(** C4. A query that is empty or made only of whitespace and commas
    (ASCII or full-width) is answered with the empty list, whatever the
    store is, even one that cannot be queried: no lookup takes place. *)
Theorem search_blank_query (store : option database) (keywords : str) :
  forallb is_sep keywords = true ->
  search_pesticides store keywords = Ok [].
Proof.
  intros H. unfold search_pesticides.
  destruct keywords as [|c s]; [reflexivity|].
  now rewrite (keyword_list_of_separators (c :: s) H).
Qed.

(** *** Usage deduplication *)

Lemma same_usage_agree (a b : usage) : same_usage a b = true <-> agree a b.
Proof.
  unfold same_usage, agree.
  rewrite !andb_true_iff, !str_eqb_eq. tauto.
Qed.

Lemma same_usage_sym (a b : usage) : same_usage a b = same_usage b a.
Proof.
  destruct (same_usage a b) eqn:E1, (same_usage b a) eqn:E2; trivial.
  - apply same_usage_agree in E1. destruct E1 as (?&?&?&?).
    assert (same_usage b a = true) by (apply same_usage_agree; repeat split; auto).
    congruence.
  - apply same_usage_agree in E2. destruct E2 as (?&?&?&?).
    assert (same_usage a b = true) by (apply same_usage_agree; repeat split; auto).
    congruence.
Qed.

Lemma pairwise_snoc (l : list usage) (x : usage) :
  pairwise l -> Forall (fun y => differ y x) l -> pairwise (l ++ [x]).
Proof.
  unfold pairwise. induction 1 as [|a l Ha Hl IH]; intros F; simpl.
  - repeat constructor.
  - inversion F; subst. constructor.
    + apply Forall_app. split; [assumption | now repeat constructor].
    + now apply IH.
Qed.

Lemma pairwise_middle (l1 l2 : list usage) (x : usage) :
  pairwise (l1 ++ x :: l2) -> Forall (fun y => differ y x) l1.
Proof.
  unfold pairwise. induction l1 as [|a l1 IH]; simpl; intros H.
  - constructor.
  - inversion H as [|? ? Ha Hl]; subst. constructor.
    + rewrite Forall_forall in Ha. apply Ha, in_or_app. right. now left.
    + now apply IH.
Qed.

Lemma existsb_differ (acc : list usage) (x : usage) :
  existsb (fun y => same_usage y x) acc = false <->
  Forall (fun y => differ y x) acc.
Proof.
  induction acc as [|a acc IH]; simpl.
  - split; constructor.
  - rewrite orb_false_iff, IH. split.
    + intros [? ?]. now constructor.
    + inversion 1; subst. now split.
Qed.

Lemma dedup_loop_pairwise (usages acc : list usage) :
  pairwise acc -> pairwise (dedup_loop acc usages).
Proof.
  revert acc. induction usages as [|x rest IH]; intros acc Hacc; simpl.
  - assumption.
  - destruct (existsb (fun y => same_usage y x) acc) eqn:E.
    + now apply IH.
    + apply IH, pairwise_snoc; [assumption | now apply existsb_differ].
Qed.

Lemma dedup_loop_fixed (usages acc : list usage) :
  pairwise (acc ++ usages) -> dedup_loop acc usages = acc ++ usages.
Proof.
  revert acc. induction usages as [|x rest IH]; intros acc H; simpl.
  - now rewrite app_nil_r.
  - apply pairwise_middle in H as F. apply existsb_differ in F. rewrite F.
    rewrite IH; rewrite <- app_assoc; [reflexivity | exact H].
Qed.

Lemma pairwise_unique (l : list usage) : pairwise l <-> unique_usages l.
Proof.
  unfold pairwise, unique_usages. split.
  - induction 1 as [|x l Hx Hl IH]; intros i j a b Hi Hj Hij Hab.
    + destruct i; discriminate.
    + apply same_usage_agree in Hab as Hab'.
      rewrite Forall_forall in Hx.
      destruct i as [|i], j as [|j]; simpl in Hi, Hj.
      * congruence.
      * injection Hi as <-. apply nth_error_In in Hj.
        specialize (Hx _ Hj). unfold differ in Hx. congruence.
      * injection Hj as <-. apply nth_error_In in Hi.
        specialize (Hx _ Hi). unfold differ in Hx.
        rewrite same_usage_sym in Hx. congruence.
      * apply (IH i j a b); auto.
  - induction l as [|x l IH]; intros H.
    + constructor.
    + constructor.
      * apply Forall_forall. intros y Hy.
        apply In_nth_error in Hy as [j Hj]. unfold differ.
        destruct (same_usage x y) eqn:E; [|reflexivity].
        apply same_usage_agree in E.
        exfalso. apply (H 0%nat (S j) x y); auto.
      * apply IH. intros i j a b Hi Hj Hij.
        apply (H (S i) (S j) a b); auto.
Qed.

Lemma remove_duplicate_usages_unique (l : list usage) :
  unique_usages (remove_duplicate_usages l).
Proof. apply pairwise_unique, dedup_loop_pairwise. constructor. Qed.

Lemma remove_duplicate_usages_fixed (l : list usage) :
  unique_usages l -> remove_duplicate_usages l = l.
Proof.
  intros H. apply pairwise_unique in H.
  unfold remove_duplicate_usages. now rewrite dedup_loop_fixed.
Qed.

Lemma remove_duplicate_usages_idempotent (l : list usage) :
  remove_duplicate_usages (remove_duplicate_usages l) =
  remove_duplicate_usages l.
Proof.
  apply remove_duplicate_usages_fixed, remove_duplicate_usages_unique.
Qed.

Lemma card_unique_dedup_card (c : card) : card_unique (dedup_card c).
Proof.
  unfold card_unique, dedup_card. rewrite usages_of_set.
  apply remove_duplicate_usages_unique.
Qed.

Lemma card_unique_no_usages (c : card) : usages_of c = [] -> card_unique c.
Proof.
  unfold card_unique. intros ->. intros i j a b Hi. destruct i; discriminate.
Qed.

(** *** Invariants of the card-building loops *)

Lemma fold_left_invariant (A B : Type) (f : A -> B -> A) (I : A -> Prop)
  (l : list B) (a : A) :
  I a -> (forall x y, I x -> I (f x y)) -> I (fold_left f l a).
Proof.
  intros Ha Hf. revert a Ha. induction l as [|y l IH]; simpl; auto.
Qed.

Lemma pm_update_Forall (P : card -> Prop) (k : str) (f : card -> card)
  (m : pesticide_map) :
  (forall c, P c -> P (f c)) ->
  Forall (fun kc => P (snd kc)) m ->
  Forall (fun kc => P (snd kc)) (pm_update k f m).
Proof.
  intros Hf. induction 1 as [|[k' c] m Hc Hm IH]; simpl.
  - constructor.
  - destruct (str_eqb k k'); constructor; simpl; auto.
Qed.

Lemma group_step_Forall (P : card -> Prop) (new_card : row -> card)
  (m : pesticide_map) (r : row) :
  usages_stable P -> (forall r, P (new_card r)) ->
  Forall (fun kc => P (snd kc)) m ->
  Forall (fun kc => P (snd kc)) (group_step new_card m r).
Proof.
  intros HP Hn Hm. unfold group_step.
  apply pm_update_Forall.
  - intros c Hc. apply HP, Hc.
  - destruct (pm_mem (key_of r) m); [assumption|].
    apply Forall_app. split; [assumption|]. constructor; simpl; auto.
Qed.

Lemma group_rows_Forall (P : card -> Prop) (new_card : row -> card)
  (rows : list row) :
  usages_stable P -> (forall r, P (new_card r)) ->
  Forall P (group_rows new_card rows).
Proof.
  intros HP Hn. unfold group_rows. apply Forall_map.
  eapply Forall_impl;
    [| apply (fold_left_invariant (group_step new_card)
                (Forall (fun kc => P (snd kc))) rows [])].
  - intros kc H. apply HP, H.
  - constructor.
  - intros m r Hm. now apply group_step_Forall.
Qed.

Lemma group_rows_unique (new_card : row -> card) (rows : list row) :
  Forall card_unique (group_rows new_card rows).
Proof.
  unfold group_rows. apply Forall_map, Forall_forall.
  intros kc _. apply card_unique_dedup_card.
Qed.

Lemma Forall_flat_map_intro (A B : Type) (P : B -> Prop) (f : A -> list B)
  (l : list A) :
  (forall x, In x l -> Forall P (f x)) -> Forall P (flat_map f l).
Proof.
  intros H. apply Forall_forall. intros y Hy.
  apply in_flat_map in Hy as [x [Hx Hy]].
  specialize (H x Hx). rewrite Forall_forall in H. auto.
Qed.

Lemma rdp_loop_In (pesticides : list card) (acc : pesticide_map) (kc : str * card) :
  In kc (rdp_loop acc pesticides) -> In kc acc \/ In (snd kc) pesticides.
Proof.
  revert acc. induction pesticides as [|p rest IH]; intros acc H; simpl in *.
  - now left.
  - destruct (pm_mem (card_key p) acc).
    + destruct (IH _ H); auto.
    + destruct (IH _ H) as [Hin|Hin]; auto.
      apply in_app_or in Hin as [Hin|[<-|[]]]; auto.
Qed.

Lemma remove_duplicate_pesticides_In (pesticides : list card) (p : card) :
  In p (remove_duplicate_pesticides pesticides) -> In p pesticides.
Proof.
  unfold remove_duplicate_pesticides. intros H.
  apply in_map_iff in H as [kc [<- H]].
  apply rdp_loop_In in H as [[]|H]. exact H.
Qed.

Lemma fill_usages_stable (P : card -> Prop) (all_rows : list row) (p : card) :
  usages_stable P -> P p -> P (fill_usages all_rows p).
Proof.
  intros HP Hp. unfold fill_usages, dedup_card. apply HP.
  apply fold_left_invariant; [assumption|].
  intros c r Hc.
  destruct (value_is (get "中文名稱" c) (r_chem r) &&
            value_is (get "劑型" c) (r_form r) &&
            value_is (get "含量" c) (r_conc r)); [apply HP|]; assumption.
Qed.

Section Every_card.

Variable P : card -> Prop.
Hypothesis P_stable : usages_stable P.
Hypothesis P_literals : holds_on_literals P.

Lemma intersection_Forall (db : database) (crops pests : list str) :
  Forall P (handle_crop_pests_intersection db crops pests).
Proof.
  apply Forall_flat_map_intro. intros crop _. unfold intersection_for_crop.
  destruct (all_pesticides_of db crop pests) as [|k ks].
  - constructor; [apply P_literals | constructor].
  - apply Forall_map, Forall_forall. intros p Hp.
    apply filter_In in Hp as [Hp _].
    apply remove_duplicate_pesticides_In, in_map_iff in Hp as [r [<- _]].
    apply fill_usages_stable; [assumption | apply P_literals].
Qed.

Lemma single_pest_Forall (db : database) (crops : list str) (pest : str) :
  Forall P (handle_crop_single_pest db crops pest).
Proof.
  apply Forall_flat_map_intro. intros crop _. unfold single_pest_for_crop.
  destruct (rows_crop_pest db crop pest) as [|r rows].
  - constructor; [apply P_literals | constructor].
  - apply group_rows_Forall; [assumption | intros; apply P_literals].
Qed.

Lemma mixed_collect_Forall (db : database) (crops mixed ac ab abar : list str) :
  Forall P (fst (mixed_collect db crops mixed ac ab abar)).
Proof.
  unfold mixed_collect.
  apply (fold_left_invariant _ (fun st => Forall P (fst st))); [constructor|].
  intros st crop Hst.
  apply (fold_left_invariant _ (fun st => Forall P (fst st))); [assumption|].
  clear st Hst. intros st kw Hst. unfold mixed_step.
  destruct (resolve ac ab abar kw) as [t|]; [|assumption].
  destruct (rows_crop_mixed db crop kw t) as [|r rows]; simpl.
  - constructor; [apply P_literals | assumption].
  - apply Forall_app. split; [assumption|].
    apply group_rows_Forall; [assumption | intros; apply P_literals].
Qed.

Lemma mark_card_stable (dup : list str) (c : card) : P c -> P (mark_card dup c).
Proof.
  intros H. unfold mark_card. destruct (is_no_match c); [assumption|].
  destruct (get "usages" c) as [[| | |us]|]; try assumption.
  apply P_stable, H.
Qed.

Lemma mixed_Forall (db : database) (crops mixed ac ab abar : list str) :
  Forall P (handle_crop_mixed_keywords db crops mixed ac ab abar).
Proof.
  unfold handle_crop_mixed_keywords, mixed_mark.
  pose proof (mixed_collect_Forall db crops mixed ac ab abar) as H.
  assert (Forall P (map (mark_card
            (duplicate_pests_of (snd (mixed_collect db crops mixed ac ab abar))))
            (fst (mixed_collect db crops mixed ac ab abar)))) as H'.
  { apply Forall_map. eapply Forall_impl; [|exact H].
    intros c. apply mark_card_stable. }
  match goal with |- Forall P (if ?b then _ else _) => destruct b end;
    [constructor; [apply P_literals | assumption] | assumption].
Qed.

Lemma single_bucket_Forall (new_card : row -> card)
  (lookup : str -> list row) (kws : list str) :
  (forall r, P (new_card r)) ->
  Forall P (flat_map (fun kw => group_rows new_card (lookup kw)) kws).
Proof.
  intros H. apply Forall_flat_map_intro. intros kw _.
  now apply group_rows_Forall.
Qed.

Lemma route_Forall (db : database) (b : buckets) : Forall P (route db b).
Proof.
  unfold route.
  repeat (apply Forall_app; split);
    repeat match goal with
           | |- Forall P (if ?c then _ else _) => destruct c
           | |- Forall P (match ?l with [] => _ | _ :: _ => _ end) =>
               destruct l
           end;
    try constructor;
    try apply intersection_Forall; try apply single_pest_Forall;
    try apply mixed_Forall;
    try (apply single_bucket_Forall; intros; apply P_literals).
Qed.

End Every_card.

(** *** The stable sort *)

Section Stable_sort.

Variables (A K : Type) (ltb : K -> K -> bool).
Hypothesis ltb_irrefl : forall a, ltb a a = false.
Hypothesis ltb_asym : forall a b, ltb a b = true -> ltb b a = false.
Hypothesis geb_trans :
  forall a b c, ltb b a = false -> ltb c b = false -> ltb c a = false.

Lemma insert_keyed_perm (x : K * A) (l : list (K * A)) :
  Permutation (x :: l) (insert_keyed ltb x l).
Proof.
  induction l as [|y l IH]; simpl.
  - reflexivity.
  - destruct (ltb (fst y) (fst x)).
    + rewrite perm_swap. now constructor.
    + reflexivity.
Qed.

Lemma sort_keyed_perm (l : list (K * A)) : Permutation l (sort_keyed ltb l).
Proof.
  induction l as [|x l IH]; simpl.
  - constructor.
  - rewrite <- insert_keyed_perm. now constructor.
Qed.

Lemma insert_keyed_sorted (x : K * A) (l : list (K * A)) :
  StronglySorted (in_order ltb) l -> StronglySorted (in_order ltb) (insert_keyed ltb x l).
Proof.
  induction 1 as [|y l Hl IH Hy]; simpl.
  - repeat constructor.
  - destruct (ltb (fst y) (fst x)) eqn:E.
    + constructor; [assumption|].
      eapply Permutation_Forall; [apply insert_keyed_perm|].
      constructor; [| assumption].
      unfold in_order. now apply ltb_asym.
    + constructor; [now constructor|].
      constructor; [exact E|].
      eapply Forall_impl; [|exact Hy].
      intros z Hz. unfold in_order in *. eapply geb_trans; eassumption.
Qed.

Lemma sort_keyed_sorted (l : list (K * A)) :
  StronglySorted (in_order ltb) (sort_keyed ltb l).
Proof.
  induction l as [|x l IH]; simpl.
  - constructor.
  - now apply insert_keyed_sorted.
Qed.

(** Stability: the elements selected by [sel], any two of which carry
    the same key, keep their order. *)
Lemma insert_keyed_stable (sel : K * A -> bool) (x : K * A) (l : list (K * A)) :
  (forall a b, sel a = true -> sel b = true -> fst a = fst b) ->
  filter sel (insert_keyed ltb x l) = filter sel (x :: l).
Proof.
  intros Hsel. induction l as [|y l IH]; [reflexivity|].
  simpl insert_keyed. destruct (ltb (fst y) (fst x)) eqn:E; [|reflexivity].
  change (filter sel (y :: insert_keyed ltb x l))
    with (if sel y then y :: filter sel (insert_keyed ltb x l)
          else filter sel (insert_keyed ltb x l)).
  rewrite IH. simpl.
  destruct (sel y) eqn:Ey, (sel x) eqn:Ex; try reflexivity.
  rewrite (Hsel y x Ey Ex), ltb_irrefl in E. discriminate.
Qed.

Lemma sort_keyed_stable (sel : K * A -> bool) (l : list (K * A)) :
  (forall a b, sel a = true -> sel b = true -> fst a = fst b) ->
  filter sel (sort_keyed ltb l) = filter sel l.
Proof.
  intros Hsel. induction l as [|x l IH]; [reflexivity|].
  simpl sort_keyed. rewrite insert_keyed_stable by assumption.
  simpl. now rewrite IH.
Qed.

End Stable_sort.

(** Sorting only looks at the order of the keys: a key translation that
    preserves [<] does not change the outcome. *)
Lemma sort_keyed_map (A K K' : Type) (ltb : K -> K -> bool)
  (ltb' : K' -> K' -> bool) (f : K -> K') (l : list (K * A)) :
  (forall a b, ltb' (f a) (f b) = ltb a b) ->
  sort_keyed ltb' (map (fun x => (f (fst x), snd x)) l) =
  map (fun x => (f (fst x), snd x)) (sort_keyed ltb l).
Proof.
  intros Hf. induction l as [|x l IH]; [reflexivity|].
  simpl. rewrite IH. generalize (sort_keyed ltb l). clear IH.
  intros s. induction s as [|y s IHs]; [reflexivity|].
  simpl. rewrite Hf. destruct (ltb (fst y) (fst x)); simpl; [|reflexivity].
  now rewrite IHs.
Qed.

(** *** The order of the keys *)

Lemma days_ltb_irrefl (a : days) : days_ltb a a = false.
Proof. destruct a; simpl; [apply N.ltb_irrefl | reflexivity]. Qed.

Lemma key_ltb_irrefl (a : Z * days) : key_ltb a a = false.
Proof.
  unfold key_ltb. now rewrite Z.ltb_irrefl, days_ltb_irrefl, andb_false_r.
Qed.

Lemma days_ltb_lt (a b : days) :
  days_ltb a b = true <->
  match a, b with
  | Days m, Days n => m < n
  | Days _, Inf => True
  | Inf, _ => False
  end.
Proof.
  destruct a, b; simpl; rewrite ?N.ltb_lt; intuition congruence.
Qed.

Lemma key_ltb_asym (a b : Z * days) :
  key_ltb a b = true -> key_ltb b a = false.
Proof.
  destruct a as [x d], b as [y e]. unfold key_ltb; simpl. intros H.
  apply orb_true_iff in H. apply orb_false_iff.
  destruct H as [H|H].
  - apply Z.ltb_lt in H. split.
    + apply Z.ltb_ge. lia.
    + apply andb_false_iff. left. apply Z.eqb_neq. lia.
  - apply andb_true_iff in H as [H1 H2].
    apply Z.eqb_eq in H1. subst y. split; [apply Z.ltb_irrefl|].
    apply andb_false_iff. right.
    destruct (days_ltb e d) eqn:E; [|reflexivity].
    apply days_ltb_lt in H2. apply days_ltb_lt in E.
    destruct d, e; try contradiction. lia.
Qed.

Lemma key_ltb_false (a b : Z * days) :
  key_ltb b a = false <->
  (fst a < fst b)%Z \/ (fst a = fst b /\ days_ltb (snd b) (snd a) = false).
Proof.
  unfold key_ltb. rewrite orb_false_iff, andb_false_iff, Z.ltb_ge, Z.eqb_neq.
  split.
  - intros [H [H'|H']]; [left; lia|].
    destruct (Z.eq_dec (fst a) (fst b)); [right; now split | left; lia].
  - intros [H|[H H']]; split; try lia. now right.
Qed.

Lemma days_geb_trans (a b c : days) :
  days_ltb b a = false -> days_ltb c b = false -> days_ltb c a = false.
Proof.
  destruct a, b, c; simpl; rewrite ?N.ltb_ge; try congruence; lia.
Qed.

Lemma key_geb_trans (a b c : Z * days) :
  key_ltb b a = false -> key_ltb c b = false -> key_ltb c a = false.
Proof.
  rewrite !key_ltb_false.
  intros [H1|[H1 H1']] [H2|[H2 H2']]; try (left; lia).
  right. split; [lia|]. eapply days_geb_trans; eassumption.
Qed.

(** *** The ranker *)

Lemma sort_key_rank_key (c : card) (k : Z * days) :
  sort_key c = Some k -> k = rank_key c.
Proof.
  unfold sort_key, rank_key, exact_match, interval_days, usages_of.
  destruct (get "has_exact_match" c) as [[| [|] | |]|];
    destruct (get "usages" c) as [[| ? | [|? ?] | ?]|]; simpl; congruence.
Qed.

Lemma keyed_rank_key (l : list card) :
  (forall c, In c l -> sort_key c <> None) ->
  keyed sort_key l = Some (map (fun c => (rank_key c, c)) l).
Proof.
  induction l as [|c l IH]; intros H; simpl; [reflexivity|].
  destruct (sort_key c) as [k|] eqn:E.
  - rewrite IH by (intros; apply H; now right).
    now rewrite (sort_key_rank_key c E).
  - exfalso. apply (H c); [now left | assumption].
Qed.

Lemma keyed_total (l : list card) (kl : list (Z * days * card)) :
  keyed sort_key l = Some kl -> forall c, In c l -> sort_key c <> None.
Proof.
  revert kl. induction l as [|x l IH]; intros kl H c Hc.
  - destruct Hc.
  - simpl in H. destruct (sort_key x) eqn:E; [|discriminate].
    destruct (keyed sort_key l) eqn:E2; [|discriminate].
    destruct Hc as [<-|Hc]; [congruence | eapply IH; eauto].
Qed.

Lemma map_snd_keyed (A K : Type) (f : A -> K) (l : list A) :
  map snd (map (fun c => (f c, c)) l) = l.
Proof. rewrite map_map. simpl. apply map_id. Qed.

Lemma ranks_before_key_ltb (c1 c2 : card) :
  ranks_before c1 c2 <-> key_ltb (rank_key c1) (rank_key c2) = true.
Proof.
  unfold ranks_before, key_ltb, rank_key; simpl.
  rewrite orb_true_iff, andb_true_iff, Z.ltb_lt, Z.eqb_eq.
  destruct (exact_match c1), (exact_match c2); split;
    intros [H|[H H']]; try lia; try discriminate; try (destruct H; discriminate);
    auto; try (left; split; reflexivity || lia); try (left; lia).
Qed.

Lemma days_eqb_eq (a b : days) : days_eqb a b = true <-> a = b.
Proof.
  destruct a, b; simpl; rewrite ?N.eqb_eq; split; congruence.
Qed.

Lemma has_rank_key (flag : bool) (d : days) (c : card) :
  has_rank flag d c = true <->
  rank_key c = ((if flag then (-1)%Z else 0%Z), d).
Proof.
  unfold has_rank, rank_key.
  rewrite andb_true_iff, days_eqb_eq, Bool.eqb_true_iff.
  split.
  - intros [-> ->]. reflexivity.
  - intros H. injection H as H1 H2. split; [|assumption].
    destruct (exact_match c), flag; trivial; discriminate.
Qed.

Lemma StronglySorted_map (A B : Type) (R : A -> A -> Prop) (R' : B -> B -> Prop)
  (f : A -> B) (l : list A) :
  (forall x y, In x l -> In y l -> R x y -> R' (f x) (f y)) ->
  StronglySorted R l -> StronglySorted R' (map f l).
Proof.
  intros H S. induction S as [|x l S IH F]; simpl; constructor.
  - apply IH. intros; apply H; simpl; auto.
  - apply Forall_map. rewrite Forall_forall in *. intros y Hy.
    apply H; simpl; auto.
Qed.

Lemma filter_map_swap (A B : Type) (f : A -> B) (p : B -> bool) (l : list A) :
  filter p (map f l) = map f (filter (fun x => p (f x)) l).
Proof.
  induction l as [|x l IH]; simpl; [reflexivity|].
  destruct (p (f x)); simpl; now rewrite IH.
Qed.

(** What the sort does to a list whose keys can all be computed. *)
Lemma ranker_sorted (results : list card) :
  (forall c, In c results -> sort_key c <> None) ->
  exists sorted,
    deduplicate_and_sort_results results = Some sorted /\
    Permutation results sorted /\
    StronglySorted (fun c1 c2 => ~ ranks_before c2 c1) sorted /\
    (forall flag d,
        filter (has_rank flag d) sorted = filter (has_rank flag d) results).
Proof.
  intros H. unfold deduplicate_and_sort_results.
  rewrite (keyed_rank_key results H).
  set (kl := map (fun c => (rank_key c, c)) results).
  assert (Hkl : forall x, In x (sort_keyed key_ltb kl) -> fst x = rank_key (snd x)).
  { intros x Hx.
    apply (Permutation_in _ (Permutation_sym (sort_keyed_perm key_ltb kl))) in Hx.
    apply in_map_iff in Hx as [c [<- _]]. reflexivity. }
  eexists. split; [reflexivity|]. split; [|split].
  - rewrite <- (map_snd_keyed rank_key results) at 1.
    apply Permutation_map, sort_keyed_perm.
  - eapply StronglySorted_map;
      [| apply (sort_keyed_sorted key_ltb key_ltb_asym key_geb_trans)].
    intros x y Hx Hy Hxy Hr. apply ranks_before_key_ltb in Hr.
    unfold in_order in Hxy. rewrite (Hkl x Hx), (Hkl y Hy) in Hxy. congruence.
  - intros flag d. rewrite filter_map_swap.
    rewrite <- (map_snd_keyed rank_key results) at 1. fold kl.
    rewrite filter_map_swap. f_equal.
    set (sel := fun x : Z * days * card =>
                  (fst (fst x) =? (if flag then (-1) else 0))%Z &&
                  days_eqb (snd (fst x)) d).
    assert (Hsel : forall x, fst x = rank_key (snd x) ->
                             has_rank flag d (snd x) = sel x).
    { intros [[z e] c] Hx. simpl in Hx. unfold sel. simpl.
      destruct (has_rank flag d c) eqn:E.
      - apply has_rank_key in E. rewrite <- Hx in E. injection E as -> ->.
        rewrite Z.eqb_refl. symmetry. now apply days_eqb_eq.
      - symmetry. apply not_true_is_false. intros T.
        apply andb_true_iff in T as [T1 T2].
        apply Z.eqb_eq in T1. apply days_eqb_eq in T2. subst z e.
        symmetry in Hx. apply has_rank_key in Hx. congruence. }
    rewrite (filter_ext_in _ sel) by (intros x Hx; apply Hsel, Hkl, Hx).
    rewrite (filter_ext_in (fun x => has_rank flag d (snd x)) sel kl).
    + apply (sort_keyed_stable key_ltb key_ltb_irrefl).
      intros [[z e] a] [[z' e'] b]. unfold sel. simpl.
      rewrite !andb_true_iff, !Z.eqb_eq, !days_eqb_eq.
      intros [-> ->] [-> ->]. reflexivity.
    + intros x Hx. apply Hsel.
      apply in_map_iff in Hx as [c [<- _]]. reflexivity.
Qed.

Lemma interval_days_no_usages (c : card) :
  usages_of c = [] -> interval_days c = Inf.
Proof. unfold interval_days. now intros ->. Qed.

Lemma interval_days_unparsed (c : card) :
  int_of_digits (filter is_digit (first_interval (usages_of c))) = None ->
  interval_days c = Inf.
Proof.
  unfold interval_days, extract_days. intros ->.
  now destruct (first_interval (usages_of c)).
Qed.

Lemma interval_days_parsed (c : card) (n : N) :
  int_of_digits (filter is_digit (first_interval (usages_of c))) = Some n ->
  interval_days c = Days n.
Proof.
  unfold interval_days, extract_days.
  destruct (first_interval (usages_of c)); [discriminate|]. now intros ->.
Qed.

Lemma int_of_short_digits (digits : str) :
  limit_ok -> digits <> [] -> (List.length digits <= 640)%nat ->
  int_of_digits digits =
  Some (fold_left
          (fun acc c => acc * 10 + match decimal c with Some d => d | None => 0 end)
          digits 0).
Proof.
  intros L Hd Hl. unfold int_of_digits. destruct digits as [|c r]; [congruence|].
  replace ((0 <? int_max_str_digits) &&
           (int_max_str_digits <? N.of_nat (List.length (c :: r))))
    with false; [reflexivity|].
  symmetry. apply andb_false_iff. destruct L as [->|L]; [now left | right].
  apply N.ltb_ge. lia.
Qed.

Lemma extract_days_7 : limit_ok -> extract_days (u "7天") = Days 7.
Proof.
  intros L. change (u "7天") with [55; 22825]. unfold extract_days.
  change (filter is_digit [55; 22825]) with [55].
  rewrite int_of_short_digits; [reflexivity | assumption | discriminate | simpl; lia].
Qed.

Lemma extract_days_14 : limit_ok -> extract_days (u "14天") = Days 14.
Proof.
  intros L. change (u "14天") with [49; 52; 22825]. unfold extract_days.
  change (filter is_digit [49; 52; 22825]) with [49; 52].
  rewrite int_of_short_digits; [reflexivity | assumption | discriminate | simpl; lia].
Qed.

(** C2. The final sort is a stable two-key sort.  For a result list
    whose keys can all be computed, the outcome is a rearrangement of the
    list in which no card stands behind one it ranks before (flagged
    cards first, then fewer days first, infinity last) and in which cards
    of equal rank keep their order.  The days of a card are infinite
    when it has no usage entry or its stripped interval does not parse,
    and the parsed number otherwise.  Two cards without flag whose first
    non-empty intervals read "7天" and "14天" come out with the "7天"
    card first, whichever order they came in. *)
Theorem ranker_stable_two_key (results : list card) (c7 c14 : card)
  (us7 us14 : list usage) :
  (forall c, In c results -> sort_key c <> None) ->
  limit_ok ->
  get "has_exact_match" c7 = None -> get "usages" c7 = Some (VUsages us7) ->
  first_interval us7 = u "7天" ->
  get "has_exact_match" c14 = None -> get "usages" c14 = Some (VUsages us14) ->
  first_interval us14 = u "14天" ->
  (exists sorted,
     deduplicate_and_sort_results results = Some sorted /\
     Permutation results sorted /\
     StronglySorted (fun c1 c2 => ~ ranks_before c2 c1) sorted /\
     (forall flag d,
         filter (has_rank flag d) sorted = filter (has_rank flag d) results)) /\
  (forall c, usages_of c = [] -> interval_days c = Inf) /\
  (forall c,
      int_of_digits (filter is_digit (first_interval (usages_of c))) = None ->
      interval_days c = Inf) /\
  (forall c n,
      int_of_digits (filter is_digit (first_interval (usages_of c))) = Some n ->
      interval_days c = Days n) /\
  deduplicate_and_sort_results [c14; c7] = Some [c7; c14] /\
  deduplicate_and_sort_results [c7; c14] = Some [c7; c14].
Proof.
  intros H L F7 U7 I7 F14 U14 I14.
  split; [now apply ranker_sorted|].
  split; [apply interval_days_no_usages|].
  split; [apply interval_days_unparsed|].
  split; [apply interval_days_parsed|].
  assert (K7 : sort_key c7 = Some (0%Z, Days 7)).
  { unfold sort_key. now rewrite F7, U7, I7, extract_days_7. }
  assert (K14 : sort_key c14 = Some (0%Z, Days 14)).
  { unfold sort_key. now rewrite F14, U14, I14, extract_days_14. }
  unfold deduplicate_and_sort_results. simpl. rewrite K7, K14. split; reflexivity.
Qed.

(** *** No card carries the exact-match flag *)

Lemma rankable_stable : usages_stable rankable.
Proof.
  intros us c [H _]. split.
  - rewrite get_set_other; [assumption | discriminate].
  - right. exists us. apply get_set_same.
Qed.

Lemma rankable_literals : holds_on_literals rankable.
Proof.
  split; intros; (split; [reflexivity|]);
    first [left; reflexivity | right; eexists; reflexivity].
Qed.

Lemma rankable_sort_key (c : card) :
  rankable c -> sort_key c = Some (0%Z, interval_days c).
Proof.
  intros [H1 H2]. unfold sort_key, interval_days, usages_of. rewrite H1.
  destruct H2 as [->|[us ->]]; reflexivity.
Qed.

Lemma sort_by_days (l : list card) :
  Forall rankable l ->
  deduplicate_and_sort_results l =
  Some (map snd (sort_keyed days_ltb (map (fun c => (interval_days c, c)) l))).
Proof.
  intros H. rewrite Forall_forall in H. unfold deduplicate_and_sort_results.
  rewrite keyed_rank_key
    by (intros c Hc; rewrite (rankable_sort_key (H c Hc)); discriminate).
  f_equal.
  replace (map (fun c => (rank_key c, c)) l)
    with (map (fun x : days * card => ((0%Z, fst x), snd x))
              (map (fun c => (interval_days c, c)) l)).
  - rewrite (sort_keyed_map days_ltb key_ltb (fun d => (0%Z, d))).
    + rewrite map_map. reflexivity.
    + intros a b. unfold key_ltb. simpl. reflexivity.
  - rewrite map_map. apply map_ext_in. intros c Hc. simpl.
    pose proof (rankable_sort_key (H c Hc)) as K.
    apply sort_key_rank_key in K. now rewrite <- K.
Qed.

Lemma routed_rankable (db : database) (keywords : str) :
  Forall rankable (routed db keywords).
Proof.
  unfold routed. destruct (keyword_list_of keywords); [constructor|].
  apply (route_Forall rankable_stable rankable_literals).
Qed.

Lemma search_pesticides_routed (db : database) (keywords : str) :
  search_pesticides (Some db) keywords =
  if raises db keywords then Error
  else
    match deduplicate_and_sort_results (routed db keywords) with
    | Some results => Ok results
    | None => Error
    end.
Proof.
  unfold search_pesticides, routed, raises.
  destruct keywords as [|c s]; [reflexivity|].
  destruct (keyword_list_of (c :: s)); reflexivity.
Qed.

Lemma search_pesticides_Ok (db : database) (keywords : str)
  (results : list card) :
  search_pesticides (Some db) keywords = Ok results ->
  raises db keywords = false /\
  deduplicate_and_sort_results (routed db keywords) = Some results.
Proof.
  rewrite search_pesticides_routed.
  destruct (raises db keywords); [discriminate|].
  destruct (deduplicate_and_sort_results (routed db keywords));
    [|discriminate].
  intros H. injection H as ->. now split.
Qed.

Lemma intersection_common_flag (db : database) (crops pests : list str) :
  Forall (fun c => is_no_match c = true \/
                   get "has_common_pesticide" c = Some (VBool true))
    (handle_crop_pests_intersection db crops pests).
Proof.
  apply Forall_flat_map_intro. intros crop _. unfold intersection_for_crop.
  destruct (all_pesticides_of db crop pests) as [|k ks].
  - constructor; [now left | constructor].
  - apply Forall_map, Forall_forall. intros p Hp. right.
    apply filter_In in Hp as [Hp _].
    apply remove_duplicate_pesticides_In, in_map_iff in Hp as [r [<- _]].
    apply (@fill_usages_stable
             (fun c => get "has_common_pesticide" c = Some (VBool true))).
    + intros us c Hc. rewrite get_set_other; [assumption | discriminate].
    + reflexivity.
Qed.

Lemma routed_sort_keys (db : database) (keywords : str) :
  forall c, In c (routed db keywords) -> sort_key c <> None.
Proof.
  intros c Hc. pose proof (routed_rankable db keywords) as H.
  rewrite Forall_forall in H. rewrite (rankable_sort_key (H c Hc)). discriminate.
Qed.

(** Where the running set of the intersection strategy is the
    intersection: two pests, the first of which has a triple. *)
Lemma all_pesticides_of_two (db : database) (crop pest1 pest2 : str) :
  pesticides_of db crop pest1 <> [] ->
  all_pesticides_of db crop [pest1; pest2] =
  intersection (pesticides_of db crop pest1) (pesticides_of db crop pest2).
Proof.
  intros H. unfold all_pesticides_of, all_pesticides_step. simpl.
  destruct (pesticides_of db crop pest1); [congruence | reflexivity].
Qed.

Lemma search_pesticides_perm (db : database) (keywords : str)
  (results : list card) :
  search_pesticides (Some db) keywords = Ok results ->
  Permutation (routed db keywords) results.
Proof.
  intros H. apply search_pesticides_Ok in H as [_ H].
  rewrite (sort_by_days (routed_rankable db keywords)) in H.
  injection H as <-.
  rewrite <- (map_snd_keyed interval_days (routed db keywords)) at 1.
  apply Permutation_map, sort_keyed_perm.
Qed.

(** C10. No card built by any handler has the key [has_exact_match];
    the intersection handler sets [has_common_pesticide] instead.  The
    first component of every sort key is therefore the one of an unset
    flag, and what the ranker returns, for any routed list, is the
    stable sort of the cards by their interval days alone.  A query
    one of whose lookups raises is answered by the error response;
    every other query is answered by that stable sort of its routed
    cards, none of which has the flag. *)
Theorem no_exact_match_flag (db : database) (b : buckets) (keywords : str) :
  Forall (fun c => get "has_exact_match" c = None) (route db b) /\
  Forall (fun c => is_no_match c = true \/
                   get "has_common_pesticide" c = Some (VBool true))
    (handle_crop_pests_intersection db (crop_keywords b) (pest_keywords b)) /\
  Forall (fun c => sort_key c = Some (0%Z, interval_days c)) (route db b) /\
  deduplicate_and_sort_results (route db b) =
  Some (map snd
          (sort_keyed days_ltb
             (map (fun c => (interval_days c, c)) (route db b)))) /\
  search_pesticides (Some db) keywords =
  (if raises db keywords then Error
   else Ok (map snd
              (sort_keyed days_ltb
                 (map (fun c => (interval_days c, c)) (routed db keywords))))) /\
  (forall results,
      search_pesticides (Some db) keywords = Ok results ->
      Forall (fun c => get "has_exact_match" c = None /\
                       sort_key c = Some (0%Z, interval_days c)) results).
Proof.
  pose proof (route_Forall rankable_stable rankable_literals db b) as H.
  repeat split.
  - eapply Forall_impl; [|exact H]. now intros c [Hc _].
  - apply intersection_common_flag.
  - eapply Forall_impl; [|exact H]. intros c. apply rankable_sort_key.
  - now apply sort_by_days.
  - rewrite search_pesticides_routed, sort_by_days; [reflexivity|].
    apply routed_rankable.
  - intros results Hr. apply search_pesticides_perm in Hr.
    apply (Permutation_Forall Hr).
    eapply Forall_impl; [|apply routed_rankable].
    intros c Hc. split; [apply Hc | now apply rankable_sort_key].
Qed.

(** *** Usage entries of a card are pairwise different *)

Lemma no_match_card_unique (msg crop kw : str) :
  card_unique (no_match_card msg crop kw).
Proof. now apply card_unique_no_usages. Qed.

Lemma intersection_unique (db : database) (crops pests : list str) :
  Forall card_unique (handle_crop_pests_intersection db crops pests).
Proof.
  apply Forall_flat_map_intro. intros crop _. unfold intersection_for_crop.
  destruct (all_pesticides_of db crop pests).
  - constructor; [apply no_match_card_unique | constructor].
  - apply Forall_map, Forall_forall. intros p _.
    unfold fill_usages. apply card_unique_dedup_card.
Qed.

Lemma single_pest_unique (db : database) (crops : list str) (pest : str) :
  Forall card_unique (handle_crop_single_pest db crops pest).
Proof.
  apply Forall_flat_map_intro. intros crop _. unfold single_pest_for_crop.
  destruct (rows_crop_pest db crop pest).
  - constructor; [apply no_match_card_unique | constructor].
  - apply group_rows_unique.
Qed.

Lemma mixed_collect_unique (db : database) (crops mixed ac ab abar : list str) :
  Forall card_unique (fst (mixed_collect db crops mixed ac ab abar)).
Proof.
  unfold mixed_collect.
  apply (fold_left_invariant _ (fun st => Forall card_unique (fst st)));
    [constructor|].
  intros st crop Hst.
  apply (fold_left_invariant _ (fun st => Forall card_unique (fst st)));
    [assumption|].
  clear st Hst. intros st kw Hst. unfold mixed_step.
  destruct (resolve ac ab abar kw) as [t|]; [|assumption].
  destruct (rows_crop_mixed db crop kw t); simpl.
  - constructor; [now apply card_unique_no_usages | assumption].
  - apply Forall_app. split; [assumption | apply group_rows_unique].
Qed.

Lemma single_bucket_unique (new_card : row -> card) (lookup : str -> list row)
  (kws : list str) :
  Forall card_unique (flat_map (fun kw => group_rows new_card (lookup kw)) kws).
Proof.
  apply Forall_flat_map_intro. intros kw _. apply group_rows_unique.
Qed.

Lemma route_split (db : database) (b : buckets) :
  exists before after,
    route db b = before ++ mixed_part db b ++ after /\
    Forall card_unique before /\ Forall card_unique after.
Proof.
  unfold route, mixed_part.
  eexists. eexists. split.
  - rewrite app_assoc. reflexivity.
  - split; repeat (apply Forall_app; split);
      repeat match goal with
             | |- Forall _ (if ?c then _ else _) => destruct c
             | |- Forall _ (match ?l with [] => _ | _ :: _ => _ end) =>
                 destruct l
             end;
      try constructor;
      try apply intersection_unique; try apply single_pest_unique;
      apply single_bucket_unique.
Qed.

(** *** Strategies without NoMatch cards *)

Lemma flat_map_skip (A B : Type) (f : A -> list B) (before after : list A)
  (x : A) :
  f x = [] -> flat_map f (before ++ x :: after) = flat_map f before ++ flat_map f after.
Proof. intros H. rewrite flat_map_app. simpl. now rewrite H. Qed.

Lemma no_match_absent_stable : usages_stable (fun c => get "no_match" c = None).
Proof.
  intros us c H. rewrite get_set_other; [assumption | discriminate].
Qed.

(** C9. A single-bucket strategy never produces a NoMatch card: a
    keyword whose lookup returns no rows contributes nothing, the cards
    of the other keywords follow one another as if it were not there,
    and no card of the strategy has the key [no_match]. *)
Theorem single_bucket_no_match_free (s : bucket) (db : database)
  (before after : list str) (kw : str) :
  bucket_lookup s db kw = [] ->
  bucket_handler s db [kw] = [] /\
  bucket_handler s db (before ++ kw :: after) =
  bucket_handler s db before ++ bucket_handler s db after /\
  (forall kws,
      Forall (fun c => get "no_match" c = None /\ is_no_match c = false)
        (bucket_handler s db kws)).
Proof.
  intros H.
  assert (N : forall c, get "no_match" c = None ->
                        get "no_match" c = None /\ is_no_match c = false).
  { intros c Hc. split; [assumption|]. unfold is_no_match. now rewrite Hc. }
  destruct s; simpl in H |- *;
    unfold handle_crop_only, handle_chem_only, handle_brand_only,
      handle_barcode_only, handle_fallback_partial_match;
    (split; [simpl; now rewrite H
            | split; [apply flat_map_skip; now rewrite H
                     | intros kws; eapply Forall_impl; [exact N|];
                       apply (single_bucket_Forall no_match_absent_stable);
                       reflexivity]]).
Qed.

(** *** The crop + single pest strategy *)

Lemma starts_with_app (p s : str) : starts_with p (p ++ s) = true.
Proof.
  induction p as [|a p IH]; simpl; [reflexivity|].
  now rewrite N.eqb_refl, IH.
Qed.

Lemma contains_app (p pre post : str) : contains p (pre ++ p ++ post) = true.
Proof.
  induction pre as [|a pre IH]; simpl.
  - destruct (p ++ post) eqn:E; simpl; rewrite <- E, starts_with_app; reflexivity.
  - rewrite IH. apply orb_true_r.
Qed.

Lemma contains_end (p pre : str) : contains p (pre ++ p) = true.
Proof.
  pose proof (contains_app p pre []) as H. now rewrite app_nil_r in H.
Qed.

(** C7. A crop keyword whose lookup with the pest keyword returns no
    rows yields exactly one card in the crop + single pest strategy: a
    NoMatch card for that crop and pest whose explanation contains both
    names; no product card is built for it. *)
Theorem single_pest_no_rows (db : database) (before after : list str)
  (crop pest : str) :
  rows_crop_pest db crop pest = [] ->
  exists msg,
    let nm := no_match_card msg crop pest in
    handle_crop_single_pest db [crop] pest = [nm] /\
    handle_crop_single_pest db (before ++ crop :: after) pest =
    handle_crop_single_pest db before pest ++ [nm] ++
    handle_crop_single_pest db after pest /\
    is_no_match nm = true /\
    get "error_message" nm = Some (VStr msg) /\
    contains crop msg = true /\ contains pest msg = true.
Proof.
  intros H.
  remember (u "無登記使用防治藥劑：" ++ crop ++ u "的" ++ pest) as msg eqn:Em.
  assert (Hc : contains crop msg = true) by (subst msg; apply contains_app).
  assert (Hp : contains pest msg = true).
  { subst msg. rewrite (app_assoc (u "無登記使用防治藥劑：")), app_assoc.
    apply contains_end. }
  assert (E : single_pest_for_crop db pest crop = [no_match_card msg crop pest]).
  { unfold single_pest_for_crop. rewrite H. now subst msg. }
  exists msg. cbv zeta. unfold handle_crop_single_pest.
  rewrite flat_map_app. cbn [flat_map]. rewrite E, app_nil_r.
  repeat split; assumption.
Qed.

(** *** The normalizer *)

Lemma remove_char_absent (c : N) (s : str) :
  ~ In c s -> remove_char c s = s.
Proof.
  unfold remove_char. induction s as [|a s IH]; simpl; [reflexivity|].
  intros H. destruct (a =? c) eqn:E.
  - apply N.eqb_eq in E. subst a. exfalso. apply H. now left.
  - simpl. rewrite IH; [reflexivity | tauto].
Qed.

Lemma remove_char_In (c d : N) (s : str) :
  In d (remove_char c s) <-> In d s /\ d <> c.
Proof.
  unfold remove_char. rewrite filter_In, negb_true_iff, N.eqb_neq. tauto.
Qed.

(** C6 (as amended). The normalizer is total; [None] and the empty
    string give the empty string, any other string is passed through
    NFKC, stripped of U+0020 and U+3000 and lowercased.  Lowercasing
    being idempotent and introducing neither of the two spaces,
    normalizing a normalized name gives the same name whenever that name
    is in NFKC form. *)
Theorem normalize_pest_name_fixed_point (s : str) :
  (forall x, lower (lower x) = lower x) ->
  (forall x, ~ In 32 x -> ~ In 12288 x ->
             ~ In 32 (lower x) /\ ~ In 12288 (lower x)) ->
  nfkc (normalize_pest_name (Some s)) = normalize_pest_name (Some s) ->
  normalize_pest_name None = [] /\
  normalize_pest_name (Some []) = [] /\
  (forall c r,
      normalize_pest_name (Some (c :: r)) =
      lower (remove_char 12288 (remove_char 32 (nfkc (c :: r))))) /\
  normalize_pest_name (Some (normalize_pest_name (Some s))) =
  normalize_pest_name (Some s).
Proof.
  intros Hl Hsp Hn. repeat split.
  destruct s as [|c r]; [reflexivity|].
  simpl normalize_pest_name in *.
  set (x := remove_char 12288 (remove_char 32 (nfkc (c :: r)))) in *.
  assert (H32 : ~ In 32 x).
  { unfold x. rewrite !remove_char_In. tauto. }
  assert (H3000 : ~ In 12288 x).
  { unfold x. rewrite remove_char_In. tauto. }
  destruct (Hsp x H32 H3000) as [L32 L3000].
  destruct (lower x) as [|d t] eqn:E; [reflexivity|].
  simpl. rewrite Hn.
  rewrite (remove_char_absent 32 (d :: t) L32).
  rewrite (remove_char_absent 12288 (d :: t) L3000).
  rewrite <- E. apply Hl.
Qed.

(** *** Null columns *)

Lemma mechanism_text_routed (db : database) (b : buckets) :
  Forall mechanism_text (route db b).
Proof.
  apply route_Forall.
  - intros us c [H|[H|(name & note & H1 & H2)]].
    + left. rewrite get_set_other; [assumption | discriminate].
    + right. left. rewrite get_set_other; [assumption | discriminate].
    + right. right. exists name, note.
      rewrite !get_set_other by discriminate. now split.
  - split; intros; unfold mechanism_text;
      first [ left; reflexivity
            | right; left; reflexivity
            | right; right; do 2 eexists; split; reflexivity ].
Qed.

(** *** The overlap detector *)

Lemma starts_with_prefix (p s : str) :
  starts_with p s = true <-> exists post, s = p ++ post.
Proof.
  revert s. induction p as [|a p IH]; intros s; simpl.
  - split; [intros _; now exists s | reflexivity].
  - destruct s as [|b s]; [split; [discriminate | intros [post H]; discriminate]|].
    rewrite andb_true_iff, N.eqb_eq, IH. split.
    + intros [-> [post ->]]. now exists post.
    + intros [post H]. injection H as -> ->. split; [reflexivity | now exists post].
Qed.

Lemma contains_substring (p s : str) : contains p s = true <-> substring p s.
Proof.
  split.
  - induction s as [|a s IH]; simpl; rewrite orb_true_iff; intros [H|H].
    + apply starts_with_prefix in H as [post ->]. now exists [], post.
    + discriminate.
    + apply starts_with_prefix in H as [post ->]. now exists [], post.
    + destruct (IH H) as (pre & post & ->). now exists (a :: pre), post.
  - intros (pre & post & ->). apply contains_app.
Qed.

Lemma same_pest_iff (p q : str) : same_pest p q = true <-> same_pest_rel p q.
Proof.
  unfold same_pest, same_pest_rel.
  rewrite !orb_true_iff, !str_eqb_eq, !contains_substring. tauto.
Qed.

Lemma same_pest_rel_sym (p q : str) : same_pest_rel p q -> same_pest_rel q p.
Proof. unfold same_pest_rel. intuition auto. Qed.

Lemma set_add_In (x y : str) (l : list str) :
  In x (set_add y l) <-> x = y \/ In x l.
Proof.
  unfold set_add. destruct (mem y l) eqn:E.
  - apply mem_In in E. split; [now right | intros [->|H]; assumption].
  - rewrite in_app_iff. simpl. intuition auto.
Qed.

Lemma fold_set_add_In (x : str) (l acc : list str) :
  In x (fold_left (fun d p => set_add p d) l acc) <-> In x l \/ In x acc.
Proof.
  revert acc. induction l as [|y l IH]; intros acc; simpl.
  - tauto.
  - rewrite IH, set_add_In. intuition auto.
Qed.

Lemma common_inner_In (p pest1 : str) (pests2 acc : list str) :
  In p (fold_left
          (fun acc pest2 =>
             if same_pest pest1 pest2 then set_add pest2 (set_add pest1 acc)
             else acc)
          pests2 acc) <->
  In p acc \/
  exists pest2, In pest2 pests2 /\ same_pest pest1 pest2 = true /\
                (p = pest1 \/ p = pest2).
Proof.
  revert acc. induction pests2 as [|q l IH]; intros acc; simpl.
  - split; [now left | intros [H|(q & [] & _)]; assumption].
  - rewrite IH. destruct (same_pest pest1 q) eqn:E.
    + rewrite !set_add_In. split.
      * intros [[->|[->|H]]|(q' & H1 & H2 & H3)].
        -- right. exists q. auto.
        -- right. exists q. auto.
        -- now left.
        -- right. exists q'. auto.
      * intros [H|(q' & [<-|H1] & H2 & H3)]; auto;
          try (destruct H3 as [-> | ->]; now auto).
        right. exists q'. auto.
    + split.
      * intros [H|(q' & H1 & H2 & H3)]; [now left|]. right. exists q'. auto.
      * intros [H|(q' & [<-|H1] & H2 & H3)]; [now left | congruence |].
        right. exists q'. auto.
Qed.

Lemma common_outer_In (p : str) (pests1 pests2 acc : list str) :
  In p (fold_left
          (fun acc pest1 =>
             fold_left
               (fun acc pest2 =>
                  if same_pest pest1 pest2
                  then set_add pest2 (set_add pest1 acc) else acc)
               pests2 acc)
          pests1 acc) <->
  In p acc \/
  exists pest1 pest2,
    In pest1 pests1 /\ In pest2 pests2 /\ same_pest pest1 pest2 = true /\
    (p = pest1 \/ p = pest2).
Proof.
  revert acc. induction pests1 as [|q l IH]; intros acc; simpl.
  - split; [now left | intros [H|(a & b & [] & _)]; assumption].
  - rewrite IH, common_inner_In. split.
    + intros [[H|(b & H1 & H2 & H3)]|(a & b & H1 & H2 & H3 & H4)].
      * now left.
      * right. exists q, b. auto.
      * right. exists a, b. auto.
    + intros [H|(a & b & [<-|H1] & H2 & H3 & H4)].
      * auto.
      * left. right. exists b. auto.
      * right. exists a, b. auto.
Qed.

Lemma common_pests_In (p : str) (pests1 pests2 : list str) :
  In p (common_pests pests1 pests2) <->
  exists pest1 pest2,
    In pest1 pests1 /\ In pest2 pests2 /\ same_pest pest1 pest2 = true /\
    (p = pest1 \/ p = pest2).
Proof.
  unfold common_pests. rewrite common_outer_In. simpl. tauto.
Qed.

Lemma pairs_In (A : Type) (l : list A) (a b : A) :
  In (a, b) (pairs l) -> In a l /\ In b l.
Proof.
  induction l as [|x l IH]; simpl; [tauto|].
  rewrite in_app_iff, in_map_iff. intros [(y & E & Hy)|H].
  - injection E as <- <-. auto.
  - destruct (IH H). auto.
Qed.

Lemma pairs_distinct (A : Type) (l : list A) (a b : A) :
  NoDup l -> In (a, b) (pairs l) -> a <> b.
Proof.
  induction 1 as [|x l Hx Hl IH]; simpl; [tauto|].
  rewrite in_app_iff, in_map_iff. intros [(y & E & Hy)|H].
  - injection E as <- <-. intros ->. contradiction.
  - now apply IH.
Qed.

Lemma pairs_total (A : Type) (l : list A) (a b : A) :
  In a l -> In b l -> a <> b -> In (a, b) (pairs l) \/ In (b, a) (pairs l).
Proof.
  induction l as [|x l IH]; simpl; [tauto|].
  rewrite !in_app_iff, !in_map_iff.
  intros [->|Ha] [->|Hb] Hab.
  - congruence.
  - left. left. now exists b.
  - right. left. now exists a.
  - destruct (IH Ha Hb Hab); auto.
Qed.

Lemma pn_get_key (c p : str) (m : pest_names) :
  In p (pn_get c m) -> In c (map fst m).
Proof.
  induction m as [|[c' ps] m IH]; simpl; [tauto|].
  destruct (str_eqb c c') eqn:E.
  - apply str_eqb_eq in E. auto.
  - auto.
Qed.

Lemma duplicate_fold_In (m : pest_names) (p : str) (cs : list (str * str))
  (acc : list str) :
  In p (fold_left
          (fun dup cc =>
             let pests1 := pn_get (fst cc) m in
             let pests2 := pn_get (snd cc) m in
             match pests1, pests2 with
             | [], _ | _, [] => dup
             | _, _ =>
                 fold_left (fun d p => set_add p d)
                   (common_pests pests1 pests2) dup
             end)
          cs acc) <->
  In p acc \/
  exists cc, In cc cs /\
             In p (common_pests (pn_get (fst cc) m) (pn_get (snd cc) m)).
Proof.
  revert acc. induction cs as [|cc cs IH]; intros acc; simpl.
  - split; [now left | intros [H|(cc & [] & _)]; assumption].
  - rewrite IH. clear IH.
    assert (E : forall x,
               In x (match pn_get (fst cc) m, pn_get (snd cc) m with
                     | [], _ | _, [] => acc
                     | _, _ =>
                         fold_left (fun d p => set_add p d)
                           (common_pests (pn_get (fst cc) m)
                              (pn_get (snd cc) m)) acc
                     end) <->
               In x acc \/
               In x (common_pests (pn_get (fst cc) m) (pn_get (snd cc) m))).
    { intros x.
      destruct (pn_get (fst cc) m) as [|a l1] eqn:E1.
      - rewrite common_pests_In. split; [now left|].
        intros [H|(a & b & [] & _)]. assumption.
      - destruct (pn_get (snd cc) m) as [|b l2] eqn:E2.
        + rewrite common_pests_In. split; [now left|].
          intros [H|(a' & b' & _ & [] & _)]. assumption.
        + rewrite fold_set_add_In. tauto. }
    rewrite E. split.
    + intros [[H|H]|(cc' & H1 & H2)]; auto.
      * right. exists cc. auto.
      * right. exists cc'. auto.
    + intros [H|(cc' & [<-|H1] & H2)]; auto.
      right. exists cc'. auto.
Qed.

Lemma duplicate_pests_recurs (m : pest_names) (p : str) :
  NoDup (map fst m) -> In p (duplicate_pests_of m) <-> recurs m p.
Proof.
  intros ND. unfold duplicate_pests_of. rewrite duplicate_fold_In. split.
  - intros [[]|([c1 c2] & Hcc & H)]. simpl in H.
    apply common_pests_In in H as (p1 & p2 & H1 & H2 & S & [-> | ->]).
    + exists c1, c2, p2. repeat split; auto.
      * eapply pairs_distinct; eauto.
      * now apply same_pest_iff.
    + exists c2, c1, p1. repeat split; auto.
      * intros E. symmetry in E. revert E. eapply pairs_distinct; eauto.
      * now apply same_pest_rel_sym, same_pest_iff.
  - intros (c1 & c2 & q & Hne & Hp & Hq & S). right.
    destruct (@pairs_total _ (map fst m) c1 c2) as [H|H]; auto.
    + eapply pn_get_key; eauto.
    + eapply pn_get_key; eauto.
    + exists (c1, c2). split; [assumption|]. simpl.
      apply common_pests_In. exists p, q. repeat split; auto.
      now apply same_pest_iff.
    + exists (c2, c1). split; [assumption|]. simpl.
      apply common_pests_In. exists q, p. repeat split; auto.
      now apply same_pest_iff, same_pest_rel_sym.
Qed.

(** The collected map: its keys are pairwise different and its sets
    hold the pest names of the rows the lookups returned. *)

Lemma fold_left_union (S B : Type) (f : S -> B -> S) (has : S -> Prop)
  (adds : B -> Prop) :
  (forall s b, has (f s b) <-> has s \/ adds b) ->
  forall l s, has (fold_left f l s) <-> has s \/ exists b, In b l /\ adds b.
Proof.
  intros Hf. induction l as [|b l IH]; intros s; simpl.
  - split; [now left | intros [H|(b & [] & _)]; assumption].
  - rewrite IH, Hf. split.
    + intros [[H|H]|(b' & H1 & H2)]; auto.
      * right. exists b. auto.
      * right. exists b'. auto.
    + intros [H|(b' & [<-|H1] & H2)]; auto.
      right. exists b'. auto.
Qed.

Lemma pn_has_In (c : str) (m : pest_names) :
  pn_has c m = true <-> In c (map fst m).
Proof.
  induction m as [|[c' ps] m IH]; simpl; [split; [discriminate | tauto]|].
  rewrite orb_true_iff, str_eqb_eq, IH. intuition auto.
Qed.

Lemma pn_update_keys (c : str) (f : list str -> list str) (m : pest_names) :
  map fst (pn_update c f m) = map fst m.
Proof.
  induction m as [|[c' ps] m IH]; simpl; [reflexivity|].
  destruct (str_eqb c c'); simpl; [reflexivity | now rewrite IH].
Qed.

Lemma collect_pest_keys (m : pest_names) (r : row) :
  NoDup (map fst m) -> NoDup (map fst (collect_pest m r)).
Proof.
  intros H. unfold collect_pest. rewrite pn_update_keys.
  destruct (pn_has (r_chem r) m) eqn:E; [assumption|].
  rewrite map_app. simpl.
  apply NoDup_app; [assumption | repeat constructor; simpl; tauto |].
  intros x Hx [<-|[]]. apply pn_has_In in Hx. congruence.
Qed.

Lemma pn_get_snoc (c c' p : str) (m : pest_names) :
  In p (pn_get c (m ++ [(c', [])])) <-> In p (pn_get c m).
Proof.
  induction m as [|[c0 ps] m IH]; simpl.
  - destruct (str_eqb c c'); simpl; tauto.
  - destruct (str_eqb c c0); [tauto | exact IH].
Qed.

Lemma pn_has_snoc (c : str) (m : pest_names) :
  pn_has c (m ++ [(c, [])]) = true.
Proof.
  apply pn_has_In. rewrite map_app, in_app_iff. right. now left.
Qed.

Lemma pn_get_update (c c' : str) (f : list str -> list str) (m : pest_names) :
  pn_has c' m = true ->
  pn_get c (pn_update c' f m) =
  if str_eqb c c' then f (pn_get c m) else pn_get c m.
Proof.
  induction m as [|[c0 ps] m IH]; simpl; [discriminate|].
  intros H. destruct (str_eqb c' c0) eqn:E0; simpl.
  - apply str_eqb_eq in E0. subst c0. now destruct (str_eqb c c').
  - simpl in H. specialize (IH H).
    destruct (str_eqb c c0) eqn:E1; [|exact IH].
    destruct (str_eqb c c') eqn:E2; [|reflexivity].
    apply str_eqb_eq in E1, E2. subst. rewrite str_eqb_refl in E0. discriminate.
Qed.

Lemma collect_pest_In (m : pest_names) (r : row) (c p : str) :
  In p (pn_get c (collect_pest m r)) <->
  In p (pn_get c m) \/ (r_chem r = c /\ r_pest r = p).
Proof.
  unfold collect_pest.
  assert (H : forall m', pn_has (r_chem r) m' = true ->
            (In p (pn_get c (pn_update (r_chem r) (set_add (r_pest r)) m')) <->
             In p (pn_get c m') \/ (r_chem r = c /\ r_pest r = p))).
  { intros m' Hm'. rewrite pn_get_update by assumption.
    destruct (str_eqb c (r_chem r)) eqn:E.
    - apply str_eqb_eq in E. subst c. rewrite set_add_In. intuition auto.
    - apply str_eqb_neq in E. intuition congruence. }
  destruct (pn_has (r_chem r) m) eqn:E.
  - now apply H.
  - rewrite H by apply pn_has_snoc. now rewrite pn_get_snoc.
Qed.

Lemma mixed_step_pests (db : database) (ac ab abar : list str) (crop : str)
  (st : list card * pest_names) (kw chem p : str) :
  In p (pn_get chem (snd (mixed_step db ac ab abar crop st kw))) <->
  In p (pn_get chem (snd st)) \/
  exists t r, resolve ac ab abar kw = Some t /\
              In r (rows_crop_mixed db crop kw t) /\
              r_chem r = chem /\ r_pest r = p.
Proof.
  unfold mixed_step. destruct (resolve ac ab abar kw) as [t|].
  - destruct (rows_crop_mixed db crop kw t) as [|r0 rows] eqn:E.
    + simpl. split; [now left|].
      intros [H|(t' & r & Ht & Hr & _)]; [assumption|].
      injection Ht as <-. rewrite E in Hr. destruct Hr.
    + cbn [snd]. rewrite <- E.
      rewrite (fold_left_union collect_pest
                 (fun m => In p (pn_get chem m))
                 (fun r => r_chem r = chem /\ r_pest r = p)
                 (fun m r => collect_pest_In m r chem p)).
      split.
      * intros [H|(r & H1 & H2 & H3)]; [now left|]. right. exists t, r. auto.
      * intros [H|(t' & r & Ht & H1 & H2 & H3)]; [now left|].
        injection Ht as <-. right. exists r. auto.
  - split; [now left|]. intros [H|(t & r & Ht & _)]; [assumption | discriminate].
Qed.

Lemma mixed_collect_pests (db : database) (crops mixed ac ab abar : list str)
  (chem p : str) :
  In p (pn_get chem (snd (mixed_collect db crops mixed ac ab abar))) <->
  recorded db crops mixed ac ab abar chem p.
Proof.
  unfold mixed_collect, recorded.
  rewrite (fold_left_union
             (fun st crop =>
                fold_left (mixed_step db ac ab abar crop) mixed st)
             (fun st => In p (pn_get chem (snd st)))
             (fun crop =>
                exists kw t r,
                  In kw mixed /\ resolve ac ab abar kw = Some t /\
                  In r (rows_crop_mixed db crop kw t) /\
                  r_chem r = chem /\ r_pest r = p)).
  - simpl. split.
    + intros [[]|(crop & Hc & kw & t & r & H)]. exists crop, kw, t, r. tauto.
    + intros (crop & kw & t & r & Hc & H). right. exists crop. split; [assumption|].
      exists kw, t, r. tauto.
  - intros st crop.
    rewrite (fold_left_union (mixed_step db ac ab abar crop)
               (fun st => In p (pn_get chem (snd st)))
               (fun kw =>
                  exists t r, resolve ac ab abar kw = Some t /\
                              In r (rows_crop_mixed db crop kw t) /\
                              r_chem r = chem /\ r_pest r = p)
               (fun st kw => mixed_step_pests db ac ab abar crop st kw chem p)).
    split.
    + intros [H|(kw & Hk & t & r & H)]; [now left|]. right. exists kw, t, r. tauto.
    + intros [H|(kw & t & r & Hk & H)]; [now left|]. right. exists kw.
      split; [assumption|]. exists t, r. tauto.
Qed.

Lemma mixed_collect_keys (db : database) (crops mixed ac ab abar : list str) :
  NoDup (map fst (snd (mixed_collect db crops mixed ac ab abar))).
Proof.
  unfold mixed_collect.
  apply (fold_left_invariant _ (fun st => NoDup (map fst (snd st))));
    [constructor|].
  intros st crop Hst.
  apply (fold_left_invariant _ (fun st => NoDup (map fst (snd st))));
    [assumption|].
  clear st Hst. intros st kw Hst. unfold mixed_step.
  destruct (resolve ac ab abar kw) as [t|]; [|assumption].
  destruct (rows_crop_mixed db crop kw t) as [|r0 rows]; [assumption|].
  cbn [snd]. apply fold_left_invariant; [assumption|].
  intros m r. apply collect_pest_keys.
Qed.

Lemma dedup_loop_Forall (P : usage -> Prop) (usages acc : list usage) :
  Forall P acc -> Forall P usages -> Forall P (dedup_loop acc usages).
Proof.
  revert acc. induction usages as [|x rest IH]; intros acc Ha Hu; simpl.
  - assumption.
  - inversion Hu; subst.
    destruct (existsb (fun y => same_usage y x) acc); apply IH; auto.
    apply Forall_app. split; [assumption | now repeat constructor].
Qed.

Lemma group_rows_from_rows (new_card : row -> card) (rows : list row) :
  (forall r, usages_of (new_card r) = []) ->
  Forall from_rows (group_rows new_card rows).
Proof.
  intros Hn. unfold group_rows. apply Forall_map.
  eapply Forall_impl;
    [| apply (fold_left_invariant (group_step new_card)
                (Forall (fun kc => from_rows (snd kc))) rows [])].
  - intros kc H. unfold from_rows, dedup_card. rewrite usages_of_set.
    apply dedup_loop_Forall; [constructor | exact H].
  - constructor.
  - intros m r Hm. unfold group_step. apply pm_update_Forall.
    + intros c Hc. unfold from_rows, append_usage. rewrite usages_of_set.
      apply Forall_app. split; [exact Hc|]. repeat constructor. now exists r.
    + destruct (pm_mem (key_of r) m); [assumption|].
      apply Forall_app. split; [assumption|]. repeat constructor.
      simpl. unfold from_rows. rewrite Hn. constructor.
Qed.

Lemma mixed_collect_from_rows (db : database) (crops mixed ac ab abar : list str) :
  Forall from_rows (fst (mixed_collect db crops mixed ac ab abar)).
Proof.
  unfold mixed_collect.
  apply (fold_left_invariant _ (fun st => Forall from_rows (fst st)));
    [constructor|].
  intros st crop Hst.
  apply (fold_left_invariant _ (fun st => Forall from_rows (fst st)));
    [assumption|].
  clear st Hst. intros st kw Hst. unfold mixed_step.
  destruct (resolve ac ab abar kw) as [t|]; [|assumption].
  destruct (rows_crop_mixed db crop kw t); simpl.
  - constructor; [constructor | assumption].
  - apply Forall_app. split; [assumption|].
    apply group_rows_from_rows. reflexivity.
Qed.

Lemma mark_usage_marked (m : pest_names) (x : usage) :
  NoDup (map fst m) ->
  u_pest_normalized x = normalize_pest_name (Some (u_pest x)) ->
  marked_usage m x (mark_usage (duplicate_pests_of m) x).
Proof.
  intros ND Hx. unfold marked_usage, mark_usage.
  destruct (mem (u_pest x) (duplicate_pests_of m)) eqn:E.
  - simpl. repeat split; auto.
    intros H. exfalso. apply H, duplicate_pests_recurs, mem_In; assumption.
  - repeat split; auto.
    intros H. apply duplicate_pests_recurs, mem_In in H; [|assumption].
    congruence.
Qed.

Lemma mark_card_usages (dup : list str) (c : card) :
  is_no_match c = false ->
  usages_of (mark_card dup c) = map (mark_usage dup) (usages_of c) /\
  forall k, k <> "usages"%string -> get k (mark_card dup c) = get k c.
Proof.
  intros H. unfold mark_card. rewrite H. unfold usages_of at 2.
  destruct (get "usages" c) as [[| ? | ? | us]|] eqn:E;
    try (split; [unfold usages_of; now rewrite E | reflexivity]).
  split; [apply usages_of_set|].
  intros k Hk. apply get_set_other. congruence.
Qed.

Lemma mark_card_marked (m : pest_names) (c : card) :
  NoDup (map fst m) -> from_rows c ->
  marked_card m c (mark_card (duplicate_pests_of m) c).
Proof.
  intros ND Hc. split.
  - intros H. unfold mark_card. now rewrite H.
  - intros H.
    destruct (mark_card_usages (duplicate_pests_of m) c H) as [E1 E2].
    split; [exact E2|]. rewrite E1. clear E1 E2 H.
    unfold from_rows in Hc. induction Hc as [|x l [r ->] Hl IH]; simpl.
    + constructor.
    + constructor; [|exact IH]. now apply mark_usage_marked.
Qed.

Lemma marked_count_zero (dup : list str) (results : list card) (n : nat) :
  fold_left (fun n c => (n + marked_in dup c)%nat) results n = 0%nat <->
  n = 0%nat /\ forall c, In c results -> marked_in dup c = 0%nat.
Proof.
  revert n. induction results as [|c l IH]; intros n; simpl.
  - intuition auto.
  - rewrite IH. split.
    + intros [H1 H2]. split; [lia|]. intros c' [<-|H]; [lia | auto].
    + intros [-> H]. split; [|auto]. rewrite (H c); auto.
Qed.

Lemma marked_in_zero (dup : list str) (c : card) :
  marked_in dup c = 0%nat <->
  (is_no_match c = false ->
   forall x, In x (usages_of c) -> mem (u_pest x) dup = false).
Proof.
  unfold marked_in. destruct (is_no_match c).
  - split; [discriminate | reflexivity].
  - rewrite length_zero_iff_nil. split.
    + intros H _ x Hx. destruct (mem (u_pest x) dup) eqn:E; [|reflexivity].
      assert (In x (filter (fun x => mem (u_pest x) dup) (usages_of c)))
        by (apply filter_In; now split).
      rewrite H in *. contradiction.
    + intros H. specialize (H eq_refl).
      induction (usages_of c) as [|x l IH]; [reflexivity|]. simpl.
      rewrite (H x) by now left. apply IH. intros; apply H. now right.
Qed.

Lemma none_marked_count (m : pest_names) (results : list card) :
  NoDup (map fst m) ->
  marked_count_of (duplicate_pests_of m) results = 0%nat <->
  none_marked m results.
Proof.
  intros ND. unfold marked_count_of, none_marked. rewrite marked_count_zero.
  split.
  - intros [_ H] c x Hc Hn Hx R.
    apply (@duplicate_pests_recurs m _ ND), mem_In in R.
    pose proof (proj1 (marked_in_zero _ c) (H c Hc) Hn x Hx). congruence.
  - intros H. split; [reflexivity|]. intros c Hc. apply marked_in_zero.
    intros Hn x Hx. destruct (mem (u_pest x) (duplicate_pests_of m)) eqn:E;
      [|reflexivity].
    apply mem_In, (@duplicate_pests_recurs m _ ND) in E.
    exfalso. exact (H c x Hc Hn Hx E).
Qed.

(** C3. In the crop + chemical/brand/barcode strategy, let [results]
    and [m] be the cards and the pest-name sets per raw chemical name
    that the first step collected.  The sets hold the pest names of the
    looked-up rows.  The strategy returns the cards in their order, each
    NoMatch card as it was and each other card with every usage entry
    rewritten: a pest name that recurs across two different chemicals
    (equal, contained one in the other, or equal once 葉 is removed) gets
    the marker # in front, any other name is kept, and the normalized
    name stays the one computed from the original name.  When no entry
    was marked and at least two mixed keywords were searched, a NoMatch
    card with the no-overlap message stands in front of them. *)
Theorem overlap_marker (db : database) (crops mixed ac ab abar : list str) :
  exists results m marked,
    mixed_collect db crops mixed ac ab abar = (results, m) /\
    (forall chem p,
        In p (pn_get chem m) <-> recorded db crops mixed ac ab abar chem p) /\
    Forall2 (marked_card m) results marked /\
    (none_marked m results /\ (2 <= List.length mixed)%nat ->
     handle_crop_mixed_keywords db crops mixed ac ab abar =
     overlap_notice crops mixed :: marked) /\
    (~ (none_marked m results /\ (2 <= List.length mixed)%nat) ->
     handle_crop_mixed_keywords db crops mixed ac ab abar = marked) /\
    is_no_match (overlap_notice crops mixed) = true /\
    get "error_message" (overlap_notice crops mixed) =
    Some (VStr (u "沒有重複防治的害物")).
Proof.
  pose proof (mixed_collect_keys db crops mixed ac ab abar) as ND.
  pose proof (mixed_collect_from_rows db crops mixed ac ab abar) as FR.
  pose proof (mixed_collect_pests db crops mixed ac ab abar) as RC.
  unfold handle_crop_mixed_keywords, mixed_mark.
  destruct (mixed_collect db crops mixed ac ab abar) as [results m].
  cbn [fst snd] in *.
  exists results, m, (map (mark_card (duplicate_pests_of m)) results).
  split; [reflexivity|]. split; [exact RC|]. split; [|split; [|split]].
  - clear RC. induction FR as [|c l Hc Hl IH]; simpl; constructor; auto.
    now apply mark_card_marked.
  - intros [H1 H2]. apply (@none_marked_count m results ND) in H1. rewrite H1.
    apply Nat.leb_le in H2. now rewrite H2.
  - intros H.
    destruct (Nat.eqb (marked_count_of (duplicate_pests_of m) results) 0) eqn:E1;
      [|reflexivity].
    destruct (Nat.leb 2 (List.length mixed)) eqn:E2; [|reflexivity].
    exfalso. apply H. apply Nat.eqb_eq in E1. apply Nat.leb_le in E2.
    split; [now apply (@none_marked_count m results ND) | assumption].
  - split; reflexivity.
Qed.

(** ** Further properties of the pipeline *)

(** *** remove_duplicate_pesticides *)

Lemma pm_mem_In (k : str) (m : pesticide_map) :
  pm_mem k m = true <-> In k (map fst m).
Proof using Type.
  clear nfkc lower int_max_str_digits.
  induction m as [|[k' c] m IH]; simpl; [split; [discriminate | tauto]|].
  rewrite orb_true_iff, str_eqb_eq, IH. intuition auto.
Qed.

Lemma rdp_loop_spec (pesticides : list card) (acc : pesticide_map) :
  NoDup (map fst acc) ->
  NoDup (map fst (rdp_loop acc pesticides)) /\
  forall kc,
    In kc (rdp_loop acc pesticides) <->
    In kc acc \/
    (~ In (fst kc) (map fst acc) /\ fst kc = card_key (snd kc) /\
     find (fun x => str_eqb (card_key x) (fst kc)) pesticides = Some (snd kc)).
Proof using Type.
  clear nfkc lower int_max_str_digits.
  revert acc. induction pesticides as [|p rest IH]; intros acc ND; simpl.
  - split; [assumption|]. intros kc. split; [now left|].
    intros [H|(_ & _ & H)]; [assumption | discriminate].
  - destruct (pm_mem (card_key p) acc) eqn:E.
    + destruct (IH acc ND) as [ND' H]. split; [assumption|].
      intros kc. rewrite H. apply pm_mem_In in E.
      split; (intros [Hin|(Hn & Hk & Hf)]; [now left | right]);
        (split; [assumption|]; split; [assumption|]).
      * destruct (str_eqb (card_key p) (fst kc)) eqn:E'; [|assumption].
        apply str_eqb_eq in E'. congruence.
      * destruct (str_eqb (card_key p) (fst kc)) eqn:E'; [|assumption].
        apply str_eqb_eq in E'. congruence.
    + assert (Hnot : ~ In (card_key p) (map fst acc)).
      { intros Hin. apply pm_mem_In in Hin. congruence. }
      assert (ND2 : NoDup (map fst (acc ++ [(card_key p, p)]))).
      { rewrite map_app. simpl.
        apply NoDup_app; [assumption | repeat constructor; simpl; tauto |].
        intros x Hx [<-|[]]. contradiction. }
      destruct (IH _ ND2) as [ND' H]. split; [assumption|].
      intros [k c]. rewrite H. rewrite map_app, !in_app_iff. simpl.
      split.
      * intros [[Hin|[Hin|[]]]|(Hn & Hk & Hf)].
        -- now left.
        -- injection Hin as <- <-. right. rewrite str_eqb_refl. auto.
        -- right. split; [tauto|]. split; [assumption|].
           destruct (str_eqb (card_key p) k) eqn:E'; [|assumption].
           apply str_eqb_eq in E'. tauto.
      * intros [Hin|(Hn & Hk & Hf)]; [now left; left|].
        destruct (str_eqb (card_key p) k) eqn:E'.
        -- apply str_eqb_eq in E'. injection Hf as <-. left. right. left.
           now subst k.
        -- apply str_eqb_neq in E'. right.
           split; [|split; assumption]. intros [Hin|[Hin|[]]]; auto.
Qed.

Lemma rdp_loop_keys (pesticides : list card) (acc : pesticide_map) :
  Forall (fun kc => fst kc = card_key (snd kc)) acc ->
  Forall (fun kc => fst kc = card_key (snd kc)) (rdp_loop acc pesticides).
Proof.
  revert acc. induction pesticides as [|p rest IH]; intros acc H; simpl.
  - assumption.
  - destruct (pm_mem (card_key p) acc); apply IH; [assumption|].
    apply Forall_app. split; [assumption | now repeat constructor].
Qed.

(** X1. On cards that hold the three identifying fields,
    [remove_duplicate_pesticides] returns, for every key of the input,
    the first card with that key and nothing else: the keys of the
    output are pairwise different, a card is in the output exactly when
    it is the first card of the input with its key, a list whose keys
    are pairwise different is returned unchanged, and the output holds
    the three fields again. *)
Theorem remove_duplicate_pesticides_first (pesticides : list card) :
  Forall key_fields pesticides ->
  NoDup (map card_key (remove_duplicate_pesticides pesticides)) /\
  (forall p,
      In p (remove_duplicate_pesticides pesticides) <->
      find (fun x => str_eqb (card_key x) (card_key p)) pesticides = Some p) /\
  remove_duplicate_pesticides (remove_duplicate_pesticides pesticides) =
  remove_duplicate_pesticides pesticides /\
  Forall key_fields (remove_duplicate_pesticides pesticides).
Proof using Type.
  clear nfkc lower int_max_str_digits.
  intros Hfields.
  assert (Hout : Forall key_fields (remove_duplicate_pesticides pesticides)).
  { rewrite Forall_forall in *. intros p Hp.
    apply Hfields. now apply remove_duplicate_pesticides_In. }
  clear Hfields. revert Hout. unfold remove_duplicate_pesticides. intros Hout.
  destruct (@rdp_loop_spec pesticides (@nil (str * card)) (NoDup_nil _))
    as [ND H].
  pose proof (@rdp_loop_keys pesticides (@nil (str * card)) (Forall_nil _)) as K.
  assert (E : map card_key (map snd (rdp_loop [] pesticides)) =
              map fst (rdp_loop [] pesticides)).
  { rewrite map_map. apply map_ext_in. intros kc Hkc.
    rewrite Forall_forall in K. symmetry. now apply K. }
  split; [now rewrite E|]. split; [|split; [|exact Hout]].
  - intros p. rewrite in_map_iff. split.
    + intros ([k c] & <- & Hin). apply H in Hin as [[]|(_ & Hk & Hf)].
      simpl in *. now subst k.
    + intros Hf. exists (card_key p, p). split; [reflexivity|].
      apply H. right. simpl. auto.
  - assert (G : forall l acc,
               NoDup (map fst acc ++ map card_key l) ->
               rdp_loop acc l = acc ++ map (fun c => (card_key c, c)) l).
    { induction l as [|c l IH]; intros acc N; simpl.
      - now rewrite app_nil_r.
      - assert (Hm : pm_mem (card_key c) acc = false).
        { apply not_true_is_false. intros T. apply pm_mem_In in T.
          apply NoDup_remove_2 in N. apply N, in_or_app. now left. }
        rewrite Hm, IH.
        + now rewrite <- app_assoc.
        + rewrite map_app. simpl. rewrite <- app_assoc. exact N. }
    rewrite G by (simpl; now rewrite E).
    simpl. rewrite map_map. simpl. apply map_id.
Qed.

(** *** remove_duplicate_usages keeps one entry of every kind *)

Lemma dedup_loop_covers (usages acc : list usage) (x : usage) :
  In x acc \/ In x usages ->
  exists y, In y (dedup_loop acc usages) /\ same_usage y x = true.
Proof.
  revert acc x. induction usages as [|a rest IH]; intros acc x [H|H]; simpl.
  - exists x. split; [assumption|]. apply same_usage_agree. repeat split.
  - destruct H.
  - destruct (existsb (fun y => same_usage y a) acc); apply IH; left; auto.
    apply in_or_app. now left.
  - destruct H as [<-|H].
    + destruct (existsb (fun y => same_usage y a) acc) eqn:E.
      * apply existsb_exists in E as [y [Hy Hs]].
        destruct (IH acc y (or_introl Hy)) as [z [Hz Hzy]].
        exists z. split; [assumption|].
        apply same_usage_agree in Hs, Hzy. apply same_usage_agree.
        unfold agree in *. intuition congruence.
      * apply IH. left. apply in_or_app. right. now left.
    + destruct (existsb (fun y => same_usage y a) acc); apply IH; now right.
Qed.

(** X2. [remove_duplicate_usages] only drops repetitions: every entry of
    the result is an entry of the input, and every entry of the input
    agrees with an entry of the result on the four compared fields,
    which are the pest name, the interval, the dilution and the dosage.
    The crop and the normalized pest name are not compared: of two
    entries that agree on the four fields the second is dropped,
    whatever its other two fields hold. *)
Theorem remove_duplicate_usages_covers (usages : list usage) :
  (forall y, In y (remove_duplicate_usages usages) -> In y usages) /\
  (forall x, In x usages ->
             exists y, In y (remove_duplicate_usages usages) /\ agree y x) /\
  (forall a b, agree a b -> remove_duplicate_usages [a; b] = [a]).
Proof.
  unfold remove_duplicate_usages. split; [|split].
  - intros y Hy.
    assert (F : Forall (fun z => In z usages) (dedup_loop [] usages))
      by (apply dedup_loop_Forall; [constructor | apply Forall_forall; auto]).
    rewrite Forall_forall in F. auto.
  - intros x Hx. destruct (dedup_loop_covers usages [] x (or_intror Hx))
      as [y [Hy Hs]].
    exists y. split; [assumption | now apply same_usage_agree].
  - intros a b A. apply same_usage_agree in A. simpl. now rewrite A.
Qed.

(** *** The keyword list *)

Lemma re_split_not_nil (s : str) (in_run : bool) : re_split in_run s <> [].
Proof.
  revert in_run. induction s as [|c s IH]; intros in_run; simpl.
  - discriminate.
  - destruct (is_sep c).
    + destruct in_run; [apply IH | discriminate].
    + destruct (re_split false s); discriminate.
Qed.

Lemma re_split_pieces (s : str) (in_run : bool) :
  Forall (fun p => forallb keyword_char p = true) (re_split in_run s).
Proof.
  revert in_run. induction s as [|c s IH]; intros in_run; simpl.
  - repeat constructor.
  - destruct (is_sep c) eqn:E.
    + destruct in_run; [apply IH | constructor; [reflexivity | apply IH]].
    + specialize (IH false). destruct (re_split false s) as [|p ps].
      * repeat constructor. simpl. unfold keyword_char. now rewrite E.
      * inversion IH; subst. constructor; [|assumption].
        simpl. unfold keyword_char at 1. now rewrite E.
Qed.

Lemma re_split_concat (s : str) (in_run : bool) :
  List.concat (re_split in_run s) = filter keyword_char s.
Proof.
  revert in_run. induction s as [|c s IH]; intros in_run; simpl.
  - reflexivity.
  - unfold keyword_char at 1. destruct (is_sep c) eqn:E; simpl.
    + destruct in_run; simpl; apply IH.
    + specialize (IH false). destruct (re_split false s) as [|p ps]; simpl in *.
      * now rewrite <- IH.
      * now rewrite <- IH.
Qed.

Lemma keyword_char_not_space (c : N) : keyword_char c = true -> is_space c = false.
Proof.
  unfold keyword_char, is_sep. rewrite negb_true_iff, !orb_false_iff. tauto.
Qed.

Lemma lstrip_keyword (k : str) : forallb keyword_char k = true -> lstrip k = k.
Proof.
  destruct k as [|c k]; [reflexivity|]. simpl. intros H.
  apply andb_true_iff in H as [H _].
  now rewrite (keyword_char_not_space c H).
Qed.

Lemma strip_keyword (k : str) : forallb keyword_char k = true -> strip k = k.
Proof.
  intros H. unfold strip. rewrite (lstrip_keyword k H), lstrip_keyword.
  - apply rev_involutive.
  - rewrite forallb_forall in *. intros c Hc. apply H. now apply in_rev.
Qed.

Lemma keyword_list_of_pieces (s : str) :
  keyword_list_of s = filter (@nonempty N) (re_split false s).
Proof.
  unfold keyword_list_of.
  pose proof (re_split_pieces s false) as F.
  induction F as [|p ps Hp F IH]; [reflexivity|].
  cbn [filter]. rewrite (strip_keyword p Hp).
  destruct p as [|c p]; cbn [map nonempty]; [exact IH|].
  now rewrite (strip_keyword (c :: p) Hp), IH.
Qed.

Lemma concat_filter_nonempty (A : Type) (l : list (list A)) :
  List.concat (filter (@nonempty A) l) = List.concat l.
Proof.
  induction l as [|[|a p] l IH]; simpl; [reflexivity | exact IH|].
  now rewrite IH.
Qed.

(** The first piece and the non-empty later pieces of a split. *)
Lemma re_split_flag (s : str) :
  filter (@nonempty N) (re_split true s) =
  filter (@nonempty N) (re_split false s).
Proof.
  destruct s as [|c s]; [reflexivity|]. simpl.
  destruct (is_sep c); reflexivity.
Qed.

Lemma re_split_separator (a b : str) (c : N) :
  is_sep c = true ->
  hd [] (re_split false (a ++ c :: b)) = hd [] (re_split false a) /\
  filter (@nonempty N) (tl (re_split false (a ++ c :: b))) =
  filter (@nonempty N) (tl (re_split false a)) ++
  filter (@nonempty N) (re_split false b).
Proof.
  intros Hc. induction a as [|x a [IH1 IH2]]; simpl.
  - rewrite Hc. simpl. split; [reflexivity | apply re_split_flag].
  - destruct (is_sep x) eqn:E; simpl.
    + split; [reflexivity|].
      rewrite !re_split_flag.
      pose proof (re_split_not_nil (a ++ c :: b) false) as N1.
      pose proof (re_split_not_nil a false) as N2.
      destruct (re_split false (a ++ c :: b)) as [|p ps]; [congruence|].
      destruct (re_split false a) as [|p' ps']; [congruence|].
      simpl in *. subst p'. rewrite IH2.
      destruct p; reflexivity.
    + pose proof (re_split_not_nil (a ++ c :: b) false) as N1.
      pose proof (re_split_not_nil a false) as N2.
      destruct (re_split false (a ++ c :: b)) as [|p ps]; [congruence|].
      destruct (re_split false a) as [|p' ps']; [congruence|].
      simpl in *. subst p'. split; [reflexivity | assumption].
Qed.

(** X3. The keyword list of a query: every keyword is non-empty and free
    of separators, the keywords put together are the query without its
    separators, a query without separators is its own single keyword,
    and splitting distributes over a separator. *)
Theorem keyword_list_of_tokens (s a b : str) (c : N) :
  is_sep c = true ->
  Forall (fun k => k <> [] /\ forallb keyword_char k = true)
    (keyword_list_of s) /\
  List.concat (keyword_list_of s) = filter keyword_char s /\
  (forall d k, forallb keyword_char (d :: k) = true ->
               keyword_list_of (d :: k) = [d :: k]) /\
  keyword_list_of (a ++ c :: b) = keyword_list_of a ++ keyword_list_of b.
Proof.
  intros Hc. rewrite !keyword_list_of_pieces. repeat split.
  - apply Forall_forall. intros k Hk. apply filter_In in Hk as [Hk Hn].
    pose proof (re_split_pieces s false) as F. rewrite Forall_forall in F.
    split; [now destruct k | now apply F].
  - rewrite concat_filter_nonempty. apply re_split_concat.
  - intros d k H. rewrite keyword_list_of_pieces.
    assert (G : forall t, forallb keyword_char t = true ->
                          re_split false t = [t]).
    { induction t as [|x t IH]; [reflexivity|]. simpl. intros Ht.
      apply andb_true_iff in Ht as [Hx Ht].
      unfold keyword_char in Hx. apply negb_true_iff in Hx.
      now rewrite Hx, (IH Ht). }
    now rewrite (G _ H).
  - destruct (re_split_separator a b c Hc) as [H1 H2].
    pose proof (re_split_not_nil (a ++ c :: b) false) as N1.
    pose proof (re_split_not_nil a false) as N2.
    destruct (re_split false (a ++ c :: b)) as [|p ps]; [congruence|].
    destruct (re_split false a) as [|p' ps']; [congruence|].
    simpl in *. subst p'. rewrite H2. now destruct p.
Qed.

(** X4. A query with at least one character that is not a separator has
    a keyword, so the entry point goes to the store: with a store that
    cannot be queried the answer is the error response. *)
Theorem search_needs_store (keywords : str) :
  existsb keyword_char keywords = true ->
  keyword_list_of keywords <> [] /\
  search_pesticides None keywords = Error.
Proof.
  intros H.
  assert (N : keyword_list_of keywords <> []).
  { intros E.
    pose proof (re_split_concat keywords false) as C.
    rewrite <- (concat_filter_nonempty (re_split false keywords)) in C.
    rewrite <- keyword_list_of_pieces, E in C. simpl in C.
    apply existsb_exists in H as [c [Hc Hk]].
    assert (In c (filter keyword_char keywords)) by (apply filter_In; auto).
    rewrite <- C in *. contradiction. }
  split; [assumption|]. unfold search_pesticides.
  destruct keywords as [|c s]; [discriminate|].
  destruct (keyword_list_of (c :: s)); [congruence | reflexivity].
Qed.

(** *** The classifier and the router *)

(** X5. Classification is by exact membership in the five reference
    sets: each bucket holds the keywords equal to a value of its column,
    [other_keywords] holds the keywords that equal no value of any of
    the five columns, and so every keyword is in [other_keywords] or in
    at least one bucket, never both. *)
Theorem classify_partition (db : database) (keyword_list : list str) (kw : str) :
  let b := classify db keyword_list in
  (In kw (crop_keywords b) <-> In kw keyword_list /\ In kw (map r_crop db)) /\
  (In kw (pest_keywords b) <-> In kw keyword_list /\ In kw (map r_pest db)) /\
  (In kw (chem_keywords b) <-> In kw keyword_list /\ In kw (map r_chem db)) /\
  (In kw (brand_keywords b) <-> In kw keyword_list /\ In kw (map r_brand db)) /\
  (In kw (barcode_keywords b) <->
   In kw keyword_list /\ In kw (map r_barcode db)) /\
  (In kw (other_keywords b) <-> In kw keyword_list /\ ~ classified db kw) /\
  (In kw (mixed_keywords b) <->
   In kw keyword_list /\
   (In kw (map r_chem db) \/ In kw (map r_brand db) \/
    In kw (map r_barcode db))).
Proof using Type.
  clear nfkc lower int_max_str_digits.
  cbv zeta. unfold mixed_keywords, classified. simpl.
  rewrite !in_app_iff, !filter_In, negb_true_iff, <- !mem_In.
  repeat split; try tauto.
  - destruct H as [_ H2]. intros H.
    assert (T : mem kw (map r_crop db ++ map r_pest db ++ map r_chem db ++
                        map r_brand db ++ map r_barcode db) = true).
    { apply mem_In. rewrite !in_app_iff, <- !mem_In. tauto. }
    congruence.
  - apply not_true_is_false. intros T.
    apply mem_In in T. rewrite !in_app_iff, <- !mem_In in T. tauto.
Qed.

Lemma nonempty_false (A : Type) (l : list A) : nonempty l = false <-> l = [].
Proof. destruct l; simpl; split; congruence. Qed.

(** X6. Pest names alone select nothing: when no keyword of the query is
    a crop, chemical, brand or barcode and at least one is a pest name,
    no strategy runs and the answer is the empty list. *)
Theorem search_pests_only (db : database) (keywords : str) :
  (forall kw, In kw (keyword_list_of keywords) ->
              ~ In kw (map r_crop db) /\ ~ In kw (map r_chem db) /\
              ~ In kw (map r_brand db) /\ ~ In kw (map r_barcode db)) ->
  (exists kw, In kw (keyword_list_of keywords) /\ In kw (map r_pest db)) ->
  routed db keywords = [] /\ search_pesticides (Some db) keywords = Ok [].
Proof.
  intros Hn [kw [Hk Hp]].
  assert (R : routed db keywords = [] /\ raises db keywords = false).
  { unfold routed, raises. destruct (keyword_list_of keywords) as [|k ks] eqn:E;
      [split; reflexivity|].
    set (b := classify db (k :: ks)).
    assert (Ec : forall col, (forall x, In x (k :: ks) -> ~ In x (map col db)) ->
                             filter (fun x => mem x (map col db)) (k :: ks) = []).
    { intros col H.
      destruct (filter (fun x => mem x (map col db)) (k :: ks)) as [|x xs] eqn:F;
        [reflexivity|].
      assert (Hx : In x (filter (fun x => mem x (map col db)) (k :: ks)))
        by (rewrite F; now left).
      apply filter_In in Hx as [Hx Hm]. apply mem_In in Hm.
      exfalso. exact (H x Hx Hm). }
    assert (C1 : crop_keywords b = []) by (apply Ec; intros x Hx; apply Hn, Hx).
    assert (C2 : chem_keywords b = []) by (apply Ec; intros x Hx; apply Hn, Hx).
    assert (C3 : brand_keywords b = []) by (apply Ec; intros x Hx; apply Hn, Hx).
    assert (C4 : barcode_keywords b = [])
      by (apply Ec; intros x Hx; apply Hn, Hx).
    assert (C5 : nonempty (pest_keywords b) = true).
    { assert (In kw (pest_keywords b))
        by (apply filter_In; split; [assumption | now apply mem_In]).
      destruct (pest_keywords b); [contradiction | reflexivity]. }
    unfold route, route_raises, mixed_keywords.
    rewrite C1, C2, C3, C4, C5. split; reflexivity. }
  destruct R as [R Hr]. split; [assumption|].
  rewrite search_pesticides_routed, R, Hr. reflexivity.
Qed.

(** X7. Unclassified keywords are read only when nothing was classified:
    as soon as a crop, pest, chemical, brand or barcode keyword is
    present, the routed list does not depend on [other_keywords]. *)
Theorem route_ignores_other (db : database) (b : buckets) (others : list str) :
  crop_keywords b <> [] \/ pest_keywords b <> [] \/ mixed_keywords b <> [] ->
  route db b =
  route db {| crop_keywords := crop_keywords b;
              pest_keywords := pest_keywords b;
              chem_keywords := chem_keywords b;
              brand_keywords := brand_keywords b;
              barcode_keywords := barcode_keywords b;
              other_keywords := others |}.
Proof.
  intros H. unfold route, mixed_keywords in *. simpl.
  assert (E : negb (nonempty (crop_keywords b)) &&
              negb (nonempty (pest_keywords b)) &&
              negb (nonempty (chem_keywords b ++ brand_keywords b ++
                              barcode_keywords b)) = false).
  { destruct (crop_keywords b); [|reflexivity].
    destruct (pest_keywords b); [|reflexivity].
    destruct (chem_keywords b ++ brand_keywords b ++ barcode_keywords b);
      [|reflexivity].
    destruct H as [H|[H|H]]; congruence. }
  rewrite E. reflexivity.
Qed.

(** X8. With a crop keyword the chemical-only, brand-only, barcode-only
    and fallback strategies do not run; at most one of the two pest
    strategies runs, by the number of pest keywords, and the crop-only
    strategy runs exactly when there is neither a pest nor a mixed
    keyword. *)
Theorem route_with_crop (db : database) (b : buckets) :
  crop_keywords b <> [] ->
  route db b =
  match pest_keywords b with
  | [] => []
  | [pest] => handle_crop_single_pest db (crop_keywords b) pest
  | _ :: _ :: _ =>
      handle_crop_pests_intersection db (crop_keywords b) (pest_keywords b)
  end ++
  match mixed_keywords b with
  | [] => []
  | _ :: _ =>
      handle_crop_mixed_keywords db (crop_keywords b) (mixed_keywords b)
        (map r_chem db) (map r_brand db) (map r_barcode db)
  end ++
  match pest_keywords b, mixed_keywords b with
  | [], [] => handle_crop_only db (crop_keywords b)
  | _, _ => []
  end.
Proof.
  intros H. unfold route.
  destruct (crop_keywords b) as [|c cs]; [congruence|].
  destruct (pest_keywords b) as [|p [|q ps]];
    destruct (mixed_keywords b) as [|m ms]; simpl;
    rewrite ?andb_false_r, ?app_nil_r; reflexivity.
Qed.

(** *** The ranker, once more *)

Lemma sort_keyed_fixed (A K : Type) (ltb : K -> K -> bool) (l : list (K * A)) :
  StronglySorted (in_order ltb) l -> sort_keyed ltb l = l.
Proof.
  induction 1 as [|x l Hl IH Hx]; [reflexivity|].
  simpl. rewrite IH. destruct l as [|y l']; [reflexivity|].
  simpl. inversion Hx as [|? ? Hy _]; subst. unfold in_order in Hy.
  now rewrite Hy.
Qed.

(** X9. Ranking is idempotent: handing the ranker its own result gives
    that result again. *)
Theorem ranker_idempotent (results sorted : list card) :
  deduplicate_and_sort_results results = Some sorted ->
  deduplicate_and_sort_results sorted = Some sorted.
Proof.
  unfold deduplicate_and_sort_results.
  destruct (keyed sort_key results) as [kl|] eqn:E; [|discriminate].
  intros H. injection H as <-.
  pose proof (keyed_total results E) as T.
  rewrite (keyed_rank_key results T) in E. injection E as <-.
  set (kl := map (fun c => (rank_key c, c)) results).
  assert (Hkl : forall x, In x (sort_keyed key_ltb kl) -> fst x = rank_key (snd x)).
  { intros x Hx.
    apply (Permutation_in _ (Permutation_sym (sort_keyed_perm key_ltb kl))) in Hx.
    apply in_map_iff in Hx as [c [<- _]]. reflexivity. }
  rewrite keyed_rank_key.
  - rewrite map_map.
    replace (map (fun x => (rank_key (snd x), snd x)) (sort_keyed key_ltb kl))
      with (sort_keyed key_ltb kl).
    + rewrite sort_keyed_fixed; [reflexivity|].
      apply (sort_keyed_sorted key_ltb key_ltb_asym key_geb_trans).
    + rewrite <- (map_id (sort_keyed key_ltb kl)) at 1.
      apply map_ext_in. intros [k c] Hx. simpl. f_equal. exact (Hkl _ Hx).
  - intros c Hc. apply in_map_iff in Hc as [x [<- Hx]].
    apply (Permutation_in _ (Permutation_sym (sort_keyed_perm key_ltb kl))) in Hx.
    apply in_map_iff in Hx as [c' [<- Hc']]. simpl. now apply T.
Qed.

(** *** The two kinds of cards *)

Section Two_kinds.

Variables P Q : card -> Prop.
Hypothesis P_stable : usages_stable P.
Hypothesis P_product : forall c, P c -> is_no_match c = false.
Hypothesis Q_notice : forall c, Q c -> is_no_match c = true.
Hypothesis Q_no_match : forall msg crop kw, Q (no_match_card msg crop kw).
Hypothesis Q_mixed : forall db crop kw t, Q (mixed_no_match db crop kw t).
Hypothesis P_intersection : forall crop pests r, P (intersection_card crop pests r).
Hypothesis P_single : forall crop pest r, P (single_pest_card crop pest r).
Hypothesis P_mixed : forall crop kw t r, P (mixed_card crop kw t r).
Hypothesis P_plain : forall r, P (plain_card r).
Hypothesis P_chem : forall r, P (chem_card r).
Hypothesis P_decorated : forall name r, P (decorated_card name r).

Lemma Forall_left (l : list card) : Forall P l -> Forall (either P Q) l.
Proof. apply Forall_impl. intros c H. now left. Qed.

Lemma route_kinds (db : database) (b : buckets) : Forall (either P Q) (route db b).
Proof.
  assert (I : forall crops pests,
             Forall (either P Q) (handle_crop_pests_intersection db crops pests)).
  { intros crops pests. apply Forall_flat_map_intro. intros crop _.
    unfold intersection_for_crop.
    destruct (all_pesticides_of db crop pests) as [|k ks].
    - constructor; [right; apply Q_no_match | constructor].
    - apply Forall_left, Forall_map, Forall_forall. intros p Hp.
      apply filter_In in Hp as [Hp _].
      apply remove_duplicate_pesticides_In, in_map_iff in Hp as [r [<- _]].
      apply fill_usages_stable; [assumption | apply P_intersection]. }
  assert (S1 : forall crops pest,
             Forall (either P Q) (handle_crop_single_pest db crops pest)).
  { intros crops pest. apply Forall_flat_map_intro. intros crop _.
    unfold single_pest_for_crop.
    destruct (rows_crop_pest db crop pest) as [|r rows].
    - constructor; [right; apply Q_no_match | constructor].
    - apply Forall_left, group_rows_Forall; [assumption | intros; apply P_single]. }
  assert (M : forall crops mixed ac ab abar,
             Forall (either P Q) (handle_crop_mixed_keywords db crops mixed ac ab abar)).
  { intros crops mixed ac ab abar.
    unfold handle_crop_mixed_keywords, mixed_mark.
    assert (C : Forall (either P Q) (fst (mixed_collect db crops mixed ac ab abar))).
    { unfold mixed_collect.
      apply (fold_left_invariant _ (fun st => Forall (either P Q) (fst st)));
        [constructor|].
      intros st crop Hst.
      apply (fold_left_invariant _ (fun st => Forall (either P Q) (fst st)));
        [assumption|].
      clear st Hst. intros st kw Hst. unfold mixed_step.
      destruct (resolve ac ab abar kw) as [t|]; [|assumption].
      destruct (rows_crop_mixed db crop kw t) as [|r rows]; simpl.
      - constructor; [right; apply Q_mixed | assumption].
      - apply Forall_app. split; [assumption|].
        apply Forall_left, group_rows_Forall;
          [assumption | intros; apply P_mixed]. }
    assert (C' : Forall (either P Q)
              (map (mark_card (duplicate_pests_of
                      (snd (mixed_collect db crops mixed ac ab abar))))
                 (fst (mixed_collect db crops mixed ac ab abar)))).
    { apply Forall_map. eapply Forall_impl; [|exact C].
      intros c [Hc|Hc].
      - left. unfold mark_card. rewrite (P_product Hc).
        destruct (get "usages" c) as [[| | |us]|]; try assumption.
        apply P_stable, Hc.
      - right. unfold mark_card. now rewrite (Q_notice Hc). }
    match goal with |- Forall _ (if ?b then _ else _) => destruct b end;
      [constructor; [right; apply Q_no_match | assumption] | assumption]. }
  unfold route.
  repeat (apply Forall_app; split);
    repeat match goal with
           | |- Forall _ (if ?c then _ else _) => destruct c
           | |- Forall _ (match ?l with [] => _ | _ :: _ => _ end) =>
               destruct l
           end;
    try constructor; try apply I; try apply S1; try apply M;
    try (apply Forall_left, single_bucket_Forall;
         [assumption | intros; first [apply P_plain | apply P_chem
                                     | apply P_decorated]]).
Qed.

End Two_kinds.

Lemma product_card_stable : usages_stable product_card.
Proof.
  intros us c (H1 & (n & f & k & H2 & H3 & H4) & _). split; [|split].
  - rewrite get_set_other; [assumption | discriminate].
  - exists n, f, k. rewrite !get_set_other by discriminate. auto.
  - exists us. apply get_set_same.
Qed.

Lemma route_product_or_notice (db : database) (b : buckets) :
  Forall (fun c => product_card c \/ notice_card c) (route db b).
Proof.
  apply route_kinds.
  - apply product_card_stable.
  - intros c (H & _). unfold is_no_match. now rewrite H.
  - intros c (H & _). unfold is_no_match. now rewrite H.
  - intros. repeat split; repeat eexists; reflexivity.
  - intros. repeat split; repeat eexists; reflexivity.
  - intros. split; [reflexivity|]. split; repeat eexists; reflexivity.
  - intros. split; [reflexivity|]. split; repeat eexists; reflexivity.
  - intros. split; [reflexivity|]. split; repeat eexists; reflexivity.
  - intros. split; [reflexivity|]. split; repeat eexists; reflexivity.
  - intros. split; [reflexivity|]. split; repeat eexists; reflexivity.
  - intros. split; [reflexivity|]. split; repeat eexists; reflexivity.
Qed.

(** X10. Every routed card is of one of two kinds: a product card,
    without the key [no_match], with text for name, formulation and
    concentration and a list of usages; or a NoMatch card, with
    [no_match] set, texts for the explanation, the crop and the keyword,
    and no usages. *)
Theorem route_card_kinds (db : database) (b : buckets) :
  Forall (fun c => product_card c \/ notice_card c) (route db b).
Proof. apply route_product_or_notice. Qed.

Lemma StronglySorted_after (A : Type) (R : A -> A -> Prop) (l1 l2 : list A)
  (x : A) :
  StronglySorted R (l1 ++ x :: l2) -> Forall (R x) l2.
Proof.
  induction l1 as [|a l1 IH]; simpl; intros H; inversion H; subst; auto.
Qed.

Lemma notice_card_days (c : card) : notice_card c -> interval_days c = Inf.
Proof.
  intros (_ & H & _). unfold interval_days, usages_of. now rewrite H.
Qed.

(** X11. In the answer to a query no NoMatch card stands in front of a
    card whose interval gives a number of days: the cards behind a
    NoMatch card all have infinite days, wherever the handler had put
    the NoMatch card. *)
Theorem no_match_cards_last (db : database) (keywords : str)
  (before after : list card) (c : card) :
  search_pesticides (Some db) keywords = Ok (before ++ c :: after) ->
  is_no_match c = true ->
  Forall (fun c' => interval_days c' = Inf) after.
Proof.
  intros H Hc.
  pose proof (search_pesticides_perm db keywords H) as Pm.
  apply search_pesticides_Ok in H as [_ H].
  destruct (ranker_sorted (routed db keywords) (routed_sort_keys db keywords))
    as (sorted & E & _ & S & _).
  rewrite E in H. injection H as ->.
  assert (K : forall x, In x (before ++ c :: after) ->
                        product_card x \/ notice_card x).
  { intros x Hx. apply (Permutation_in _ (Permutation_sym Pm)) in Hx.
    unfold routed in Hx.
    destruct (keyword_list_of keywords) as [|k ks]; [destruct Hx|].
    pose proof (route_product_or_notice db (classify db (k :: ks))) as F.
    rewrite Forall_forall in F. now apply F. }
  assert (Dc : interval_days c = Inf).
  { destruct (K c) as [(Hn & _)|Hn].
    - apply in_or_app. right. now left.
    - unfold is_no_match in Hc. rewrite Hn in Hc. discriminate.
    - now apply notice_card_days. }
  apply StronglySorted_after in S.
  rewrite Forall_forall in *. intros x Hx. specialize (S x Hx).
  destruct (interval_days x) as [n|] eqn:Dx; [|reflexivity].
  exfalso. apply S. right.
  assert (Fx : exact_match x = false).
  { unfold exact_match.
    destruct (K x) as [(Hn & _)|(Hn & _)];
      [apply in_or_app; right; now right| |];
      pose proof (routed_rankable db keywords) as Rk;
      rewrite Forall_forall in Rk;
      assert (Hin : In x (routed db keywords))
        by (apply (Permutation_in _ (Permutation_sym Pm)), in_or_app;
            right; now right);
      destruct (Rk x Hin) as [Hf _]; now rewrite Hf. }
  assert (Fc : exact_match c = false).
  { unfold exact_match.
    pose proof (routed_rankable db keywords) as Rk.
    rewrite Forall_forall in Rk.
    assert (Hin : In c (routed db keywords))
      by (apply (Permutation_in _ (Permutation_sym Pm)), in_or_app;
          right; now left).
    destruct (Rk c Hin) as [Hf _]. now rewrite Hf. }
  split; [congruence|]. rewrite Dx, Dc. reflexivity.
Qed.

(** X12. Only the decimal digits of an interval text count: two
    non-empty texts with the same digits, in the same order, give the
    same days, and a text gives infinite days exactly when it is empty,
    has no digit, or has more digits than the interpreter converts. *)
Theorem extract_days_digits (text text' : str) :
  text <> [] -> text' <> [] ->
  (filter is_digit text = filter is_digit text' ->
   extract_days text = extract_days text') /\
  (extract_days text = Inf <->
   filter is_digit text = [] \/
   (0 < int_max_str_digits /\
    int_max_str_digits < N.of_nat (List.length (filter is_digit text)))).
Proof.
  intros H H'. destruct text as [|c t]; [congruence|].
  destruct text' as [|c' t']; [congruence|]. split.
  - unfold extract_days. now intros ->.
  - unfold extract_days, int_of_digits.
    destruct (filter is_digit (c :: t)) as [|d ds].
    + split; [now left | reflexivity].
    + destruct ((0 <? int_max_str_digits) &&
                (int_max_str_digits <? N.of_nat (List.length (d :: ds)))) eqn:E.
      * apply andb_true_iff in E as [E1 E2].
        apply N.ltb_lt in E1, E2. split; [now right | reflexivity].
      * split; [discriminate|]. intros [D|[E1 E2]]; [discriminate|].
        apply N.ltb_lt in E1, E2. rewrite E1, E2 in E. discriminate.
Qed.

(** *** The running set of the intersection strategy *)

Lemma intersection_In (k : str) (a b : list str) :
  In k (intersection a b) <-> In k a /\ In k b.
Proof. unfold intersection. now rewrite filter_In, mem_In. Qed.

Lemma running_set_common (db : database) (crop : str) (pests : list str)
  (acc : list str) (k0 : str) :
  In k0 acc -> (forall p, In p pests -> In k0 (pesticides_of db crop p)) ->
  forall k,
    In k (fold_left (all_pesticides_step db crop) pests acc) <->
    In k acc /\ forall p, In p pests -> In k (pesticides_of db crop p).
Proof using Type.
  clear nfkc lower int_max_str_digits.
  revert acc. induction pests as [|p ps IH]; intros acc H0 Hc k; simpl.
  - intuition auto.
  - assert (E : all_pesticides_step db crop acc p =
                intersection acc (pesticides_of db crop p)).
    { unfold all_pesticides_step. destruct acc; [destruct H0 | reflexivity]. }
    rewrite E, IH.
    + rewrite intersection_In. split.
      * intros [[H1 H2] H3]. split; [assumption|].
        intros q [<-|Hq]; auto.
      * intros [H1 H2]. split; [split; [assumption|]|].
        -- apply H2. now left.
        -- intros q Hq. apply H2. now right.
    + apply intersection_In. split; [assumption|]. apply Hc. now left.
    + intros q Hq. apply Hc. now right.
Qed.

Lemma running_set_last (db : database) (crop : str) (pests : list str)
  (p : str) (acc : list str) (k : str) :
  In k (fold_left (all_pesticides_step db crop) (pests ++ [p]) acc) ->
  In k (pesticides_of db crop p).
Proof.
  rewrite fold_left_app. simpl. unfold all_pesticides_step at 1.
  destruct (fold_left (all_pesticides_step db crop) pests acc); [trivial|].
  intros H. now apply intersection_In in H.
Qed.

(** X13. What the running set of the intersection strategy is good for:
    it always lies within the set of the last pest keyword and contains
    every key common to all pest keywords, and when the pest keywords
    have a key in common it is exactly the set of their common keys. *)
Theorem all_pesticides_of_common (db : database) (crop : str)
  (pests : list str) (last_pest : str) :
  (forall k, In k (all_pesticides_of db crop (pests ++ [last_pest])) ->
             In k (pesticides_of db crop last_pest)) /\
  (forall k, common_pesticide db crop (pests ++ [last_pest]) k ->
             In k (all_pesticides_of db crop (pests ++ [last_pest]))) /\
  ((exists k, common_pesticide db crop (pests ++ [last_pest]) k) ->
   forall k, In k (all_pesticides_of db crop (pests ++ [last_pest])) <->
             common_pesticide db crop (pests ++ [last_pest]) k).
Proof using Type.
  clear nfkc lower int_max_str_digits.
  assert (G : forall k0, common_pesticide db crop (pests ++ [last_pest]) k0 ->
              forall k, In k (all_pesticides_of db crop (pests ++ [last_pest])) <->
                        common_pesticide db crop (pests ++ [last_pest]) k).
  { intros k0 H0 k. unfold all_pesticides_of, common_pesticide in *.
    destruct (pests ++ [last_pest]) as [|p ps] eqn:E.
    - destruct pests; discriminate.
    - cbn [fold_left].
      change (all_pesticides_step db crop [] p) with (pesticides_of db crop p).
      rewrite (running_set_common db crop ps (pesticides_of db crop p) k0).
      + split.
        * intros [H1 H2] q [<-|Hq]; auto.
        * intros H. split; [apply H; now left|]. intros q Hq. apply H. now right.
      + apply H0. now left.
      + intros q Hq. apply H0. now right. }
  split; [|split].
  - intros k. apply running_set_last.
  - intros k Hk. now apply (G k Hk).
  - intros [k0 H0] k. now apply (G k0).
Qed.

(** *** The grouping loop *)

Lemma set_set (k : string) (v1 v2 : value) (c : card) :
  set k v2 (set k v1 c) = set k v2 c.
Proof.
  induction c as [|[k' v'] c IH]; simpl.
  - now rewrite String.eqb_refl.
  - destruct (String.eqb k k') eqn:E; simpl; rewrite E; [reflexivity|].
    now rewrite IH.
Qed.

Lemma mem_ext (k : str) (l1 l2 : list str) :
  (forall x, In x l1 <-> In x l2) -> mem k l1 = mem k l2.
Proof.
  intros H. destruct (mem k l1) eqn:E1, (mem k l2) eqn:E2; trivial.
  - apply mem_In, H, mem_In in E1. congruence.
  - apply mem_In, H, mem_In in E2. congruence.
Qed.

Lemma first_rows_snoc (rows : list row) (r : row) (seen : list str) :
  first_rows seen (rows ++ [r]) =
  first_rows seen rows ++
  (if mem (key_of r) (seen ++ map key_of rows) then [] else [r]).
Proof using Type.
  clear nfkc lower int_max_str_digits.
  revert seen. induction rows as [|a rows IH]; intros seen; simpl.
  - rewrite app_nil_r. now destruct (mem (key_of r) seen).
  - destruct (mem (key_of a) seen) eqn:E.
    + rewrite IH. f_equal.
      rewrite (mem_ext (key_of r) (seen ++ map key_of rows)
                 (seen ++ key_of a :: map key_of rows)); [reflexivity|].
      intros x. rewrite !in_app_iff. simpl. apply mem_In in E.
      split; [tauto|]. intros [H|[<-|H]]; auto.
    + rewrite IH.
      rewrite (mem_ext (key_of r) ((key_of a :: seen) ++ map key_of rows)
                 (seen ++ key_of a :: map key_of rows)); [reflexivity|].
      intros x. simpl. rewrite !in_app_iff. simpl. tauto.
Qed.

Lemma first_rows_keys (rows : list row) (seen : list str) (k : str) :
  In k (map key_of (first_rows seen rows)) <->
  In k (map key_of rows) /\ ~ In k seen.
Proof using Type.
  clear nfkc lower int_max_str_digits.
  revert seen. induction rows as [|a rows IH]; intros seen; simpl.
  - tauto.
  - destruct (mem (key_of a) seen) eqn:E.
    + rewrite IH. apply mem_In in E. split; [tauto|].
      intros [[<-|H] Hn]; [contradiction | auto].
    + simpl. rewrite IH. simpl.
      assert (Hn : ~ In (key_of a) seen)
        by (intros T; apply mem_In in T; congruence).
      destruct (list_eq_dec N.eq_dec (key_of a) k) as [<-|Hne]; tauto.
Qed.

Lemma first_rows_nodup (rows : list row) (seen : list str) :
  NoDup (map key_of (first_rows seen rows)).
Proof using Type.
  clear nfkc lower int_max_str_digits.
  revert seen. induction rows as [|a rows IH]; intros seen; simpl.
  - constructor.
  - destruct (mem (key_of a) seen); [apply IH|]. simpl. constructor; [|apply IH].
    rewrite first_rows_keys. simpl. tauto.
Qed.

Lemma first_rows_In (rows : list row) (seen : list str) (r : row) :
  In r (first_rows seen rows) -> In r rows.
Proof.
  revert seen. induction rows as [|a rows IH]; intros seen; simpl; [tauto|].
  destruct (mem (key_of a) seen); [eauto|]. intros [<-|H]; eauto.
Qed.

Lemma pm_update_entries (L : list row) (g : row -> card) (k : str)
  (f : card -> card) :
  NoDup (map key_of L) ->
  pm_update k f (map (fun r0 => (key_of r0, g r0)) L) =
  map (fun r0 => (key_of r0, if str_eqb k (key_of r0) then f (g r0) else g r0)) L.
Proof.
  induction L as [|a L IH]; intros ND; simpl; [reflexivity|].
  inversion ND as [|? ? Ha ND']; subst.
  destruct (str_eqb k (key_of a)) eqn:E.
  - f_equal. apply map_ext_in. intros r0 Hr0.
    destruct (str_eqb k (key_of r0)) eqn:E0; [|reflexivity].
    apply str_eqb_eq in E, E0. exfalso. apply Ha. rewrite <- E, E0.
    now apply in_map.
  - f_equal. now apply IH.
Qed.

Lemma pm_mem_entries (L : list row) (g : row -> card) (k : str) :
  pm_mem k (map (fun r0 => (key_of r0, g r0)) L) = mem k (map key_of L).
Proof.
  induction L as [|a L IH]; simpl; [reflexivity|]. now rewrite IH.
Qed.

Lemma group_fold_spec (new_card : row -> card) (rows : list row) :
  (forall r, usages_of (new_card r) = []) ->
  fold_left (group_step new_card) rows [] =
  map (fun r0 =>
         (key_of r0,
          set "usages"
            (VUsages (map usage_of_row (filter (same_key r0) rows)))
            (new_card r0)))
    (first_rows [] rows).
Proof.
  intros Hn. unfold same_key.
  induction rows as [|r pre IH] using rev_ind; [reflexivity|].
  rewrite fold_left_app. cbn [fold_left]. rewrite IH. clear IH.
  rewrite first_rows_snoc. cbn [app]. unfold group_step.
  rewrite pm_mem_entries.
  rewrite (mem_ext (key_of r) (map key_of (first_rows [] pre)) (map key_of pre))
    by (intros x; rewrite first_rows_keys; simpl; tauto).
  destruct (mem (key_of r) (map key_of pre)) eqn:E.
  - rewrite app_nil_r, pm_update_entries by apply first_rows_nodup.
    apply map_ext. intros r0. f_equal. rewrite filter_app. cbn [filter].
    destruct (str_eqb (key_of r) (key_of r0)).
    + unfold append_usage. rewrite usages_of_set, set_set, map_app. reflexivity.
    + now rewrite app_nil_r.
  - assert (Hnone : forall r0, In r0 pre -> str_eqb (key_of r) (key_of r0) = false).
    { intros r0 Hr0. apply str_eqb_neq. intros Ek.
      assert (T : mem (key_of r) (map key_of pre) = true)
        by (apply mem_In; rewrite Ek; now apply in_map).
      congruence. }
    assert (Hnone' : forall r0, In r0 pre -> str_eqb (key_of r0) (key_of r) = false).
    { intros r0 Hr0. apply str_eqb_neq. intros Ek. symmetry in Ek.
      apply str_eqb_eq in Ek. rewrite (Hnone r0 Hr0) in Ek. discriminate. }
    assert (Hfil : filter (fun x => str_eqb (key_of x) (key_of r)) pre = []).
    { clear E Hnone. induction pre as [|x pre IHp]; [reflexivity|]. simpl.
      rewrite (Hnone' x) by now left.
      apply IHp. intros; apply Hnone'; now right. }
    set (g := fun r0 =>
                if str_eqb (key_of r0) (key_of r) then new_card r0
                else set "usages"
                       (VUsages
                          (map usage_of_row
                             (filter (fun x => str_eqb (key_of x) (key_of r0)) pre)))
                       (new_card r0)).
    replace (map
               (fun r0 =>
                  (key_of r0,
                   set "usages"
                     (VUsages
                        (map usage_of_row
                           (filter (fun x => str_eqb (key_of x) (key_of r0)) pre)))
                     (new_card r0)))
               (first_rows [] pre) ++ [(key_of r, new_card r)])
      with (map (fun r0 => (key_of r0, g r0)) (first_rows [] pre ++ [r])).
    + rewrite pm_update_entries.
      * apply map_ext_in. intros r0 Hr0. f_equal.
        rewrite filter_app. cbn [filter]. unfold g.
        apply in_app_or in Hr0 as [Hr0|[<-|[]]].
        -- apply first_rows_In in Hr0.
           rewrite (Hnone r0 Hr0), (Hnone' r0 Hr0), app_nil_r. reflexivity.
        -- rewrite str_eqb_refl. unfold append_usage. rewrite Hn, Hfil.
           reflexivity.
      * rewrite map_app. simpl.
        apply NoDup_app; [apply first_rows_nodup | repeat constructor; simpl; tauto|].
        intros x Hx [<-|[]]. apply first_rows_keys in Hx as [Hx _].
        apply mem_In in Hx. congruence.
    + rewrite map_app. simpl. unfold g at 2. rewrite str_eqb_refl.
      f_equal. apply map_ext_in. intros r0 Hr0. f_equal.
      apply first_rows_In in Hr0. unfold g. now rewrite (Hnone' r0 Hr0).
Qed.

Lemma group_rows_equation (new_card : row -> card) (rows : list row) :
  (forall r, usages_of (new_card r) = []) ->
  group_rows new_card rows =
  map (fun r0 =>
         set "usages"
           (VUsages
              (remove_duplicate_usages
                 (map usage_of_row (filter (same_key r0) rows))))
           (new_card r0))
    (first_rows [] rows).
Proof.
  intros Hn.
  unfold group_rows. rewrite (group_fold_spec new_card rows Hn), map_map.
  apply map_ext. intros r0. simpl. unfold dedup_card.
  now rewrite usages_of_set, set_set.
Qed.

(** X14. The grouping loop shared by the handlers, as an equation: for a
    card literal that starts without usages, the cards returned for a
    lookup are, in table order, one card per key, built from the first
    row with that key, whose usages are the deduplicated entries of all
    rows with that key; the keys of these first rows are pairwise
    different and every row of the lookup has its key among them. *)
Theorem group_rows_spec (new_card : row -> card) (rows : list row) :
  (forall r, usages_of (new_card r) = []) ->
  group_rows new_card rows =
  map (fun r0 =>
         set "usages"
           (VUsages
              (remove_duplicate_usages
                 (map usage_of_row (filter (same_key r0) rows))))
           (new_card r0))
    (first_rows [] rows) /\
  NoDup (map key_of (first_rows [] rows)) /\
  (forall r0, In r0 (first_rows [] rows) -> In r0 rows) /\
  (forall r, In r rows ->
             exists r0, In r0 (first_rows [] rows) /\ key_of r0 = key_of r).
Proof.
  intros Hn. split; [|split; [apply first_rows_nodup|split]].
  - now apply group_rows_equation.
  - intros r0. apply first_rows_In.
  - intros r Hr.
    assert (H : In (key_of r) (map key_of (first_rows [] rows))).
    { apply first_rows_keys. split; [now apply in_map | tauto]. }
    apply in_map_iff in H as [r0 [E H]]. now exists r0.
Qed.

(** *** Display names *)

Lemma group_rows_card (new_card : row -> card) (rows : list row) (c : card) :
  (forall r, usages_of (new_card r) = []) ->
  In c (group_rows new_card rows) ->
  exists r0,
    In r0 rows /\
    (forall k, k <> "usages"%string -> get k c = get k (new_card r0)) /\
    usages_of c =
    remove_duplicate_usages (map usage_of_row (filter (same_key r0) rows)).
Proof.
  intros Hn Hc. rewrite (group_rows_equation new_card rows Hn) in Hc.
  apply in_map_iff in Hc as [r0 [<- Hr0]]. exists r0.
  split; [now apply first_rows_In in Hr0|]. split.
  - intros k Hk. apply get_set_other. congruence.
  - apply usages_of_set.
Qed.

(** X15. The display name of a card of the brand-only strategy is the
    chemical name of a row of the searched brand followed by the brand
    in full-width parentheses; in the barcode-only strategy the name is
    followed by the brand in parentheses and by the searched barcode. *)
Theorem decorated_display_names (db : database) (kws : list str) :
  Forall (fun c =>
            exists kw r0,
              In kw kws /\ In r0 db /\ r_brand r0 = kw /\
              get "中文名稱" c =
              Some (VStr (r_chem r0 ++ u "（" ++ kw ++ u "）")))
    (handle_brand_only db kws) /\
  Forall (fun c =>
            exists kw r0,
              In kw kws /\ In r0 db /\ r_barcode r0 = kw /\
              get "中文名稱" c =
              Some (VStr (r_chem r0 ++ u "（" ++ r_brand r0 ++ u "） 條碼：" ++ kw)))
    (handle_barcode_only db kws).
Proof.
  split; apply Forall_flat_map_intro; intros kw Hkw; apply Forall_forall;
    intros c Hc; apply group_rows_card in Hc; try reflexivity;
    destruct Hc as (r0 & Hr0 & Hg & _);
    apply filter_In in Hr0 as [Hr0 E]; apply str_eqb_eq in E;
    exists kw, r0; (split; [assumption|]); (split; [assumption|]);
    (split; [assumption|]); rewrite Hg by discriminate; simpl;
    unfold brand_name, barcode_name; now rewrite E.
Qed.

(** *** The result list of the crop + mixed strategy *)

Lemma is_no_match_set_usages (v : value) (c : card) :
  is_no_match (set "usages" v c) = is_no_match c.
Proof. unfold is_no_match. rewrite get_set_other; [reflexivity | discriminate]. Qed.

Lemma is_no_match_mark_card (dup : list str) (c : card) :
  is_no_match (mark_card dup c) = is_no_match c.
Proof.
  unfold mark_card. destruct (is_no_match c) eqn:E; [assumption|].
  destruct (get "usages" c) as [[| | |us]|]; try assumption.
  now rewrite is_no_match_set_usages.
Qed.

Lemma group_rows_products (new_card : row -> card) (rows : list row) :
  (forall r, get "no_match" (new_card r) = None) ->
  Forall (fun c => is_no_match c = false) (group_rows new_card rows).
Proof.
  intros H.
  eapply Forall_impl;
    [| apply (@group_rows_Forall (fun c => get "no_match" c = None));
       [apply no_match_absent_stable | exact H]].
  intros c Hc. unfold is_no_match. now rewrite Hc.
Qed.

(** X16. The crop + chemical/brand/barcode strategy returns its NoMatch
    cards in front of its product cards: the cards for failed lookups
    and the no-overlap notice are inserted at the head of the list, the
    product cards are appended to its end. *)
Theorem mixed_notices_first (db : database) (crops mixed ac ab abar : list str) :
  notices_first (handle_crop_mixed_keywords db crops mixed ac ab abar).
Proof.
  unfold handle_crop_mixed_keywords, mixed_mark.
  assert (C : notices_first (fst (mixed_collect db crops mixed ac ab abar))).
  { unfold mixed_collect.
    apply (fold_left_invariant _ (fun st => notices_first (fst st)));
      [exists [], []; repeat split; constructor|].
    intros st crop Hst.
    apply (fold_left_invariant _ (fun st => notices_first (fst st)));
      [assumption|].
    clear st Hst. intros st kw (ns & ps & E & Hns & Hps). unfold mixed_step.
    destruct (resolve ac ab abar kw) as [t|]; [|now exists ns, ps].
    destruct (rows_crop_mixed db crop kw t) as [|r rows]; simpl.
    - exists (mixed_no_match db crop kw t :: ns), ps. rewrite E.
      repeat split; [constructor; [reflexivity | assumption] | assumption].
    - exists ns, (ps ++ group_rows (mixed_card crop kw t) (r :: rows)).
      rewrite E, app_assoc. repeat split; [assumption|].
      apply Forall_app. split; [assumption|].
      apply group_rows_products. reflexivity. }
  destruct C as (ns & ps & E & Hns & Hps). rewrite E, map_app.
  set (dup := duplicate_pests_of (snd (mixed_collect db crops mixed ac ab abar))).
  assert (Hns' : Forall (fun c => is_no_match c = true) (map (mark_card dup) ns)).
  { apply Forall_map. eapply Forall_impl; [|exact Hns].
    intros c Hc. now rewrite is_no_match_mark_card. }
  assert (Hps' : Forall (fun c => is_no_match c = false) (map (mark_card dup) ps)).
  { apply Forall_map. eapply Forall_impl; [|exact Hps].
    intros c Hc. now rewrite is_no_match_mark_card. }
  match goal with |- notices_first (if ?b then _ else _) => destruct b end.
  - exists (overlap_notice crops mixed :: map (mark_card dup) ns),
      (map (mark_card dup) ps).
    repeat split; [constructor; [reflexivity | assumption] | assumption].
  - exists (map (mark_card dup) ns), (map (mark_card dup) ps). now repeat split.
Qed.

(** *** Usages of the searched crops *)

Lemma group_rows_usages (U : usage -> Prop) (new_card : row -> card)
  (rows : list row) :
  (forall r, usages_of (new_card r) = []) ->
  (forall r, In r rows -> U (usage_of_row r)) ->
  Forall (fun c => Forall U (usages_of c)) (group_rows new_card rows).
Proof.
  intros Hn HU. apply Forall_forall. intros c Hc.
  apply group_rows_card in Hc as (r0 & _ & _ & E); [|assumption].
  rewrite E. unfold remove_duplicate_usages.
  apply dedup_loop_Forall; [constructor|].
  apply Forall_map, Forall_forall. intros r Hr.
  apply filter_In in Hr as [Hr _]. auto.
Qed.

Lemma fill_usages_usages (U : usage -> Prop) (all_rows : list row) (p : card) :
  (forall r, In r all_rows -> U (usage_of_row r)) ->
  Forall U (usages_of p) -> Forall U (usages_of (fill_usages all_rows p)).
Proof.
  intros HU Hp. unfold fill_usages, dedup_card. rewrite usages_of_set.
  unfold remove_duplicate_usages. apply dedup_loop_Forall; [constructor|].
  revert p Hp. induction all_rows as [|r rows IH]; intros p Hp; simpl.
  - assumption.
  - apply IH.
    + intros; apply HU; now right.
    + destruct (value_is (get "中文名稱" p) (r_chem r) &&
                value_is (get "劑型" p) (r_form r) &&
                value_is (get "含量" p) (r_conc r)); [|assumption].
      unfold append_usage. rewrite usages_of_set.
      apply Forall_app. split; [assumption|].
      constructor; [apply HU; now left | constructor].
Qed.

Lemma usages_for_no_usages (crops : list str) (c : card) :
  usages_of c = [] -> usages_for crops c.
Proof. unfold usages_for. intros ->. constructor. Qed.

Lemma rows_crop_pest_crop (db : database) (crop pest : str) (r : row) :
  In r (rows_crop_pest db crop pest) -> r_crop r = crop.
Proof.
  intros H. apply filter_In in H as [_ H].
  apply andb_true_iff in H as [H _]. now apply str_eqb_eq in H.
Qed.

(** X17. A query with crop keywords only shows usages of those crops:
    every usage entry of every routed card names one of the crop
    keywords as its crop. *)
Theorem route_usages_of_crops (db : database) (b : buckets) :
  crop_keywords b <> [] ->
  Forall (usages_for (crop_keywords b)) (route db b).
Proof.
  intros Hc. remember (crop_keywords b) as crops eqn:Ecr.
  assert (I : forall pests,
             Forall (usages_for crops)
               (handle_crop_pests_intersection db crops pests)).
  { intros pests. apply Forall_flat_map_intro. intros crop Hcrop.
    unfold intersection_for_crop.
    destruct (all_pesticides_of db crop pests) as [|k ks].
    - constructor; [now apply usages_for_no_usages | constructor].
    - apply Forall_map, Forall_forall. intros p Hp.
      apply filter_In in Hp as [Hp _].
      apply remove_duplicate_pesticides_In, in_map_iff in Hp as [r [<- _]].
      apply fill_usages_usages; [|constructor].
      intros r' Hr'. apply in_flat_map in Hr' as [pest [_ Hr']].
      simpl. now rewrite (rows_crop_pest_crop db crop pest r' Hr'). }
  assert (S1 : forall pest,
             Forall (usages_for crops) (handle_crop_single_pest db crops pest)).
  { intros pest. apply Forall_flat_map_intro. intros crop Hcrop.
    unfold single_pest_for_crop.
    destruct (rows_crop_pest db crop pest) as [|r rows] eqn:E.
    - constructor; [now apply usages_for_no_usages | constructor].
    - apply group_rows_usages; [reflexivity|].
      intros r' Hr'. rewrite <- E in Hr'. simpl.
      now rewrite (rows_crop_pest_crop db crop pest r' Hr'). }
  assert (M : forall mixed ac ab abar,
             Forall (usages_for crops)
               (handle_crop_mixed_keywords db crops mixed ac ab abar)).
  { intros mixed ac ab abar. unfold handle_crop_mixed_keywords, mixed_mark.
    assert (C : Forall (usages_for crops)
                  (fst (mixed_collect db crops mixed ac ab abar))).
    { unfold mixed_collect.
      assert (G : forall cs st,
                 (forall x, In x cs -> In x crops) ->
                 Forall (usages_for crops) (fst st) ->
                 Forall (usages_for crops)
                   (fst (fold_left
                           (fun st crop =>
                              fold_left (mixed_step db ac ab abar crop) mixed st)
                           cs st))).
      { induction cs as [|crop cs IH]; intros st Hcs Hst; [assumption|].
        simpl. apply IH; [intros; apply Hcs; now right|].
        apply (fold_left_invariant _
                 (fun st => Forall (usages_for crops) (fst st)));
          [assumption|].
        intros st' kw Hst'. unfold mixed_step.
        destruct (resolve ac ab abar kw) as [t|]; [|assumption].
        destruct (rows_crop_mixed db crop kw t) as [|r rows] eqn:E; simpl.
        - constructor; [now apply usages_for_no_usages | assumption].
        - apply Forall_app. split; [assumption|].
          apply group_rows_usages; [reflexivity|].
          intros r' Hr'. rewrite <- E in Hr'. apply filter_In in Hr' as [_ Hr'].
          apply andb_true_iff in Hr' as [Hr' _]. apply str_eqb_eq in Hr'.
          simpl. rewrite Hr'. apply Hcs. now left. }
      apply G; [auto | constructor]. }
    assert (C' : Forall (usages_for crops)
              (map (mark_card (duplicate_pests_of
                      (snd (mixed_collect db crops mixed ac ab abar))))
                 (fst (mixed_collect db crops mixed ac ab abar)))).
    { apply Forall_map. eapply Forall_impl; [|exact C].
      intros c Hcu. destruct (is_no_match c) eqn:En.
      - unfold mark_card. now rewrite En.
      - unfold usages_for.
        rewrite (proj1 (mark_card_usages _ c En)).
        apply Forall_map. eapply Forall_impl; [|exact Hcu].
        intros x Hx. unfold mark_usage.
        now destruct (mem (u_pest x) _). }
    match goal with |- Forall _ (if ?b then _ else _) => destruct b end;
      [constructor; [now apply usages_for_no_usages | assumption]
      | assumption]. }
  assert (O : Forall (usages_for crops) (handle_crop_only db crops)).
  { apply Forall_flat_map_intro. intros crop Hcrop.
    apply group_rows_usages; [reflexivity|].
    intros r Hr. apply filter_In in Hr as [_ Hr]. apply str_eqb_eq in Hr.
    simpl. now rewrite Hr. }
  assert (N1 : nonempty crops = true) by (destruct crops; [congruence | reflexivity]).
  unfold route. rewrite <- Ecr, N1. simpl. rewrite !andb_false_r.
  repeat (apply Forall_app; split);
    repeat match goal with
           | |- Forall _ (if ?c then _ else _) => destruct c
           | |- Forall _ (match ?l with [] => _ | _ :: _ => _ end) =>
               destruct l
           end;
    try constructor; auto.
Qed.

(** *** A lookup that raises *)

Lemma keyword_list_of_single (d : N) (k : str) :
  forallb keyword_char (d :: k) = true -> keyword_list_of (d :: k) = [d :: k].
Proof.
  intros H. rewrite keyword_list_of_pieces.
  assert (G : forall t, forallb keyword_char t = true ->
                        re_split false t = [t]).
  { induction t as [|x t IH]; [reflexivity|]. simpl. intros Ht.
    apply andb_true_iff in Ht as [Hx Ht].
    unfold keyword_char in Hx. apply negb_true_iff in Hx.
    now rewrite Hx, (IH Ht). }
  now rewrite (G _ H).
Qed.

Lemma mem_app_false (x : str) (l1 l2 : list str) :
  mem x (l1 ++ l2) = false -> mem x l1 = false /\ mem x l2 = false.
Proof.
  intros H. split; apply not_true_is_false; intros T; apply mem_In in T;
    assert (T' : mem x (l1 ++ l2) = true)
      by (apply mem_In, in_or_app; auto);
    congruence.
Qed.

(** A query of one keyword that no column holds goes to the fallback
    lookup.  When its pattern is over the length limit the lookup
    raises on the first row, and the request is answered by the error
    response; on a table without rows [LIKE] is not evaluated. *)
Lemma search_pattern_too_complex (db : database) (d : N) (k : str) :
  forallb keyword_char (d :: k) = true ->
  mem (d :: k)
    (map r_crop db ++ map r_pest db ++ map r_chem db ++ map r_brand db ++
     map r_barcode db) = false ->
  like_raises (d :: k) = true ->
  search_pesticides (Some db) (d :: k) =
  match db with [] => Ok [] | _ :: _ => Error end.
Proof.
  intros Hk Hm Hr.
  pose proof Hm as Hm'.
  apply mem_app_false in Hm' as [E1 Hm']. apply mem_app_false in Hm' as [E2 Hm'].
  apply mem_app_false in Hm' as [E3 Hm']. apply mem_app_false in Hm' as [E4 E5].
  unfold search_pesticides. rewrite (keyword_list_of_single d k Hk).
  unfold route_raises, route, classify, mixed_keywords,
    handle_fallback_partial_match_raises, rows_fallback_raises.
  cbn [crop_keywords pest_keywords chem_keywords brand_keywords
       barcode_keywords other_keywords filter].
  rewrite E1, E2, E3, E4, E5, Hm. cbn [negb app nonempty andb orb existsb].
  rewrite Hr. destruct db as [|r db']; reflexivity.
Qed.

(** *** Usage entries after the overlap marker *)

Lemma mark_preserves_unique (dup : list str) (l : list usage) :
  Forall (fun x => starts_with (u "#") (u_pest x) = false) l ->
  unique_usages l -> unique_usages (map (mark_usage dup) l).
Proof.
  intros F U i j a' b' Ha Hb Hij A.
  rewrite nth_error_map in Ha, Hb.
  destruct (nth_error l i) as [a|] eqn:Ea; [|discriminate].
  destruct (nth_error l j) as [b|] eqn:Eb; [|discriminate].
  injection Ha as <-. injection Hb as <-.
  apply (U i j a b Ea Eb Hij).
  rewrite Forall_forall in F.
  pose proof (F a (nth_error_In _ _ Ea)) as Fa.
  pose proof (F b (nth_error_In _ _ Eb)) as Fb.
  unfold agree, mark_usage in *.
  destruct (mem (u_pest a) dup), (mem (u_pest b) dup);
    cbn [u_pest u_phi u_dilution u_dosage] in A.
  - destruct A as (A1 & A2 & A3 & A4). apply app_inv_head in A1. auto.
  - exfalso. destruct A as [A1 _]. rewrite <- A1, starts_with_app in Fb.
    discriminate.
  - exfalso. destruct A as [A1 _]. rewrite A1, starts_with_app in Fa.
    discriminate.
  - assumption.
Qed.

Lemma mixed_collect_usages (U : usage -> Prop) (db : database)
  (crops mixed ac ab abar : list str) :
  (forall r, In r db -> U (usage_of_row r)) ->
  Forall (fun c => Forall U (usages_of c))
    (fst (mixed_collect db crops mixed ac ab abar)).
Proof.
  intros HU. unfold mixed_collect.
  apply (fold_left_invariant _
           (fun st => Forall (fun c => Forall U (usages_of c)) (fst st)));
    [constructor|].
  intros st crop Hst.
  apply (fold_left_invariant _
           (fun st => Forall (fun c => Forall U (usages_of c)) (fst st)));
    [assumption|].
  clear st Hst. intros st kw Hst. unfold mixed_step.
  destruct (resolve ac ab abar kw) as [t|]; [|assumption].
  destruct (rows_crop_mixed db crop kw t) as [|r rows] eqn:E; simpl.
  - constructor; [constructor | assumption].
  - apply Forall_app. split; [assumption|].
    apply group_rows_usages; [reflexivity|].
    intros r' Hr'. rewrite <- E in Hr'. apply filter_In in Hr' as [Hr' _].
    now apply HU.
Qed.

Lemma mixed_unique (db : database) (crops mixed ac ab abar : list str) :
  marker_free db ->
  Forall card_unique (handle_crop_mixed_keywords db crops mixed ac ab abar).
Proof.
  intros Hm. unfold handle_crop_mixed_keywords, mixed_mark.
  pose proof (mixed_collect_unique db crops mixed ac ab abar) as Un.
  pose proof (mixed_collect_usages
                (fun x => starts_with (u "#") (u_pest x) = false)
                db crops mixed ac ab abar Hm) as Us.
  set (st := mixed_collect db crops mixed ac ab abar) in *.
  assert (M : Forall card_unique
                (map (mark_card (duplicate_pests_of (snd st))) (fst st))).
  { apply Forall_map. rewrite Forall_forall in *. intros c Hc.
    destruct (is_no_match c) eqn:En.
    - unfold mark_card. rewrite En. now apply Un.
    - unfold card_unique. rewrite (proj1 (mark_card_usages _ c En)).
      apply mark_preserves_unique; [now apply Us | now apply Un]. }
  match goal with |- Forall _ (if ?b then _ else _) => destruct b end;
    [constructor; [now apply card_unique_no_usages | exact M] | exact M].
Qed.

(** C5 (as amended). When no pest name of the table starts with the
    overlap marker, every card of the list a search returns has usage
    entries that pairwise differ in pest name, interval, dilution or
    dosage.  For every table this holds of the cards that do not come
    from the crop + chemical/brand/barcode strategy, and of the cards
    of that strategy when their usages are deduplicated, before the
    marker is written into the pest names.  Deduplication yields such
    a list and leaves such a list unchanged. *)
Theorem usages_unique_in_results (db : database) (keywords : str)
  (results : list card) :
  search_pesticides (Some db) keywords = Ok results ->
  (marker_free db -> Forall card_unique results) /\
  (exists before marked after,
      Permutation (before ++ marked ++ after) results /\
      Forall card_unique before /\ Forall card_unique after /\
      (marked = [] \/
       exists crops mixed collected,
         collected = mixed_collect db crops mixed
                       (map r_chem db) (map r_brand db) (map r_barcode db) /\
         marked = mixed_mark crops mixed collected /\
         Forall card_unique (fst collected))) /\
  (forall l, unique_usages (remove_duplicate_usages l)) /\
  (forall l, unique_usages l -> remove_duplicate_usages l = l) /\
  (forall l, remove_duplicate_usages (remove_duplicate_usages l) =
             remove_duplicate_usages l).
Proof.
  intros H. apply search_pesticides_perm in H.
  split; [| split; [| split; [apply remove_duplicate_usages_unique
                             | split; [apply remove_duplicate_usages_fixed
                                      | apply remove_duplicate_usages_idempotent]]]].
  - intros Hm. apply (Permutation_Forall H). unfold routed.
    destruct (keyword_list_of keywords) as [|k ks]; [constructor|].
    destruct (route_split db (classify db (k :: ks))) as (bf & af & E & Hb & Ha).
    rewrite E. apply Forall_app. split; [assumption|].
    apply Forall_app. split; [|assumption].
    unfold mixed_part.
    destruct (nonempty (crop_keywords (classify db (k :: ks))) &&
              nonempty (mixed_keywords (classify db (k :: ks))));
      [now apply mixed_unique | constructor].
  - unfold routed in H. destruct (keyword_list_of keywords) as [|k ks].
    + exists [], [], []. repeat split; auto.
    + destruct (route_split db (classify db (k :: ks)))
        as (bf & af & E & Hb & Ha).
      exists bf, (mixed_part db (classify db (k :: ks))), af.
      rewrite <- E. repeat split; auto.
      unfold mixed_part.
      destruct (nonempty (crop_keywords (classify db (k :: ks))) &&
                nonempty (mixed_keywords (classify db (k :: ks)))); [|now left].
      right. do 3 eexists. split; [reflexivity|]. split; [reflexivity|].
      apply mixed_collect_unique.
Qed.

(** *** LIKE and substrings *)















End Pipeline.

(** ** Concrete runs

    The handlers on small tables, with the excerpt of the Unicode tables
    and the default digit limit. *)

Example u_literal : u "7天" = [55; 22825].
Proof. reflexivity. Qed.

(** Pattern and text end at U+0000: [%] followed by U+0000 matches
    every text, and what follows U+0000 in a text is not searched. *)
Example like_c_strings :
  like_kw [0] (u "abc") = true /\
  like_kw (u "cd") (u "ab" ++ 0 :: u "cd") = false /\
  like_kw (u "b" ++ 0 :: u "zzz") (u "ab" ++ 0 :: u "cd") = true /\
  like_kw (u "a" ++ 0 :: u "zzz") (u "ab" ++ 0 :: u "cd") = false.
Proof. repeat split. Qed.

(** A pattern of 50,000 bytes is matched, one of 50,001 bytes raises. *)
Example like_pattern_length :
  like_raises (N.iter 49998 (cons 97) []) = false /\
  like_raises (N.iter 49999 (cons 97) []) = true /\
  like_raises (N.iter 16666 (cons 27700) []) = false /\
  like_raises (N.iter 16667 (cons 27700) []) = true.
Proof. vm_compute. repeat split. Qed.

(** The fallback lookup of a keyword of 50,000 bytes raises: the
    request is answered by the error response. *)
Example search_long_keyword :
  search_pesticides nfkc_excerpt lower_excerpt default_max_str_digits
    (Some db_rice) (131072 :: N.iter 12499 (cons 131072) []) = Error.
Proof.
  apply (@search_pattern_too_complex nfkc_excerpt lower_excerpt
           default_max_str_digits db_rice 131072
           (N.iter 12499 (cons 131072) []));
    vm_compute; reflexivity.
Qed.

Example like_kw_ex :
  like_kw (u "葉蟎") (u "二點葉蟎類") = true /\
  like_kw (u "ab") (u "xAByz") = true /\
  like_kw (u "a_c") (u "xabcx") = true /\
  like_kw (u "蚜蟲") (u "葉蟎") = false.
Proof. repeat split. Qed.

Example keyword_list_ex :
  keyword_list_of (u " 甘藍,甲基拌磷， 乙託　") =
  [u "甘藍"; u "甲基拌磷"; u "乙託"].
Proof. reflexivity. Qed.

Example extract_days_ex :
  extract_days default_max_str_digits (u "採收前14天") = Days 14 /\
  extract_days default_max_str_digits (u "７天") = Days 7 /\
  extract_days default_max_str_digits (u "—") = Inf /\
  extract_days default_max_str_digits [] = Inf.
Proof. repeat split. Qed.

(** *** C4 *)

Lemma search_blank_query_witness :
  forallb is_sep (u " ,， 　") = true /\
  search_pesticides nfkc_excerpt lower_excerpt default_max_str_digits
    None (u " ,， 　") = Ok [].
Proof.
  split; [reflexivity|].
  apply (search_blank_query nfkc_excerpt lower_excerpt default_max_str_digits).
  reflexivity.
Defined.

(** A query with a keyword does go to the store. *)
Example search_reaches_store :
  search_pesticides nfkc_excerpt lower_excerpt default_max_str_digits
    None (u " ,， 　x") = Error.
Proof. reflexivity. Qed.

(** *** C1 *)

(** C1 (the code departs from it). For 番茄 the pest 蚜蟲 has no triple
    and 葉蟎 has one, so the two sets have no triple in common; the
    running set is emptied by the first pest and then replaced by the
    set of the second, and the strategy builds a product card instead of
    the single NoMatch card.  With the two pests in the other order the
    NoMatch card is returned. *)
Theorem intersection_restarts_when_empty :
  pesticides_of db_reset (u "番茄") (u "蚜蟲") = [] /\
  pesticides_of db_reset (u "番茄") (u "葉蟎") = [u "乙託__乳劑__50%"] /\
  intersection (pesticides_of db_reset (u "番茄") (u "蚜蟲"))
    (pesticides_of db_reset (u "番茄") (u "葉蟎")) = [] /\
  all_pesticides_of db_reset (u "番茄") [u "蚜蟲"; u "葉蟎"] =
    [u "乙託__乳劑__50%"] /\
  (exists c,
      handle_crop_pests_intersection nfkc_excerpt lower_excerpt db_reset
        [u "番茄"] [u "蚜蟲"; u "葉蟎"] = [c] /\
      search_pesticides nfkc_excerpt lower_excerpt default_max_str_digits
        (Some db_reset) (u "番茄 蚜蟲 葉蟎") = Ok [c] /\
      is_no_match c = false /\
      get "中文名稱" c = Some (VStr (u "乙託")) /\
      get "has_common_pesticide" c = Some (VBool true)) /\
  (exists c,
      handle_crop_pests_intersection nfkc_excerpt lower_excerpt db_reset
        [u "番茄"] [u "葉蟎"; u "蚜蟲"] = [c] /\
      is_no_match c = true /\
      get "error_message" c =
        Some (VStr (u "無共同防治藥劑：番茄的葉蟎, 蚜蟲"))).
Proof.
  split; [vm_compute; reflexivity|].
  split; [vm_compute; reflexivity|].
  split; [vm_compute; reflexivity|].
  split; [vm_compute; reflexivity|].
  split; eexists; (split; [vm_compute; reflexivity|]).
  - split; [vm_compute; reflexivity|]. repeat split.
  - repeat split.
Qed.

Example intersection_common_ex :
  map (fun c => (get "中文名稱" c, get "has_common_pesticide" c,
                 map u_pest (usages_of c)))
    (handle_crop_pests_intersection nfkc_excerpt lower_excerpt db_common
       [u "番茄"] [u "葉蟎"; u "蚜蟲"]) =
  [ (Some (VStr (u "乙託")), Some (VBool true), [u "葉蟎"; u "蚜蟲"]) ].
Proof. vm_compute. reflexivity. Qed.

(** *** C8 *)

(** C8 (the code departs from it). The intersection strategy stores the
    NULL mechanism name and note of a row as [None]; the single-pest
    strategy stores the empty string for the same row. *)
Theorem intersection_keeps_null_mechanism :
  (exists c,
      search_pesticides nfkc_excerpt lower_excerpt default_max_str_digits
        (Some db_null) (u "番茄 葉蟎 蚜蟲") = Ok [c] /\
      handle_crop_pests_intersection nfkc_excerpt lower_excerpt db_null
        [u "番茄"] [u "葉蟎"; u "蚜蟲"] = [c] /\
      get "作用機制名稱" c = Some VNone /\
      get "作用機制備註" c = Some VNone) /\
  (exists c,
      handle_crop_single_pest nfkc_excerpt lower_excerpt db_null
        [u "番茄"] (u "葉蟎") = [c] /\
      get "作用機制名稱" c = Some (VStr []) /\
      get "作用機制備註" c = Some (VStr [])).
Proof.
  split; eexists; (split; [vm_compute; reflexivity|]).
  - split; [vm_compute; reflexivity|]. split; reflexivity.
  - split; reflexivity.
Qed.

(** *** C2 *)

Lemma ranker_stable_two_key_witness :
  deduplicate_and_sort_results default_max_str_digits [card_14; card_7] =
    Some [card_7; card_14] /\
  deduplicate_and_sort_results default_max_str_digits [card_7; card_14] =
    Some [card_7; card_14].
Proof.
  refine (proj2 (proj2 (proj2 (proj2
    (@ranker_stable_two_key default_max_str_digits [card_14; card_7]
       card_7 card_14
       [sample_usage []; sample_usage (u "7天")]
       [sample_usage (u "14天"); sample_usage (u "3天")]
       _ _ eq_refl eq_refl eq_refl eq_refl eq_refl eq_refl))))).
  - intros c [<-|[<-|[]]]; discriminate.
  - right. discriminate.
Defined.

(** *** C5 *)

(** C5 fails as stated: the marker turns 蚜蟲 into #蚜蟲, which the card
    already lists with the same interval, dilution and dosage. *)
Lemma usages_unique_counterexample :
  exists c rest a b,
    search_pesticides nfkc_excerpt lower_excerpt default_max_str_digits
      (Some db_marker) (u "甘藍 甲基拌磷 乙託") = Ok (c :: rest) /\
    usages_of c = [a; b] /\ agree a b /\ ~ card_unique c.
Proof.
  do 4 eexists. split; [vm_compute; reflexivity|].
  split; [reflexivity|].
  assert (A : agree
            {| u_crop := u "甘藍"; u_pest := u "#蚜蟲";
               u_pest_normalized := u "蚜蟲"; u_phi := u "7天";
               u_dilution := u "1000"; u_dosage := [] |}
            {| u_crop := u "甘藍"; u_pest := u "#蚜蟲";
               u_pest_normalized := u "#蚜蟲"; u_phi := u "7天";
               u_dilution := u "1000"; u_dosage := [] |})
    by (repeat split).
  split; [exact A|].
  intros U. exact (U 0%nat 1%nat _ _ eq_refl eq_refl (fun E => O_S _ E) A).
Qed.

Lemma usages_unique_in_results_witness :
  exists results,
    search_pesticides nfkc_excerpt lower_excerpt default_max_str_digits
      (Some db_overlap) (u "甘藍 甲基拌磷 乙託") = Ok results /\
    existsb
      (fun c => existsb (fun x => starts_with (u "#") (u_pest x)) (usages_of c))
      results = true /\
    Forall card_unique results.
Proof.
  pose (results :=
          match search_pesticides nfkc_excerpt lower_excerpt
                  default_max_str_digits (Some db_overlap)
                  (u "甘藍 甲基拌磷 乙託")
          with
          | Ok l => l
          | Error => []
          end).
  exists results.
  assert (E : search_pesticides nfkc_excerpt lower_excerpt
                default_max_str_digits (Some db_overlap)
                (u "甘藍 甲基拌磷 乙託") = Ok results)
    by (vm_compute; reflexivity).
  split; [exact E|]. split; [vm_compute; reflexivity|].
  apply (proj1 (@usages_unique_in_results nfkc_excerpt lower_excerpt
                  default_max_str_digits db_overlap (u "甘藍 甲基拌磷 乙託")
                  results E)).
  intros r [<-|[<-|[<-|[]]]]; reflexivity.
Defined.

(** *** C6 *)

(** C6 fails as stated: J followed by the combining caron normalizes to
    j followed by the caron, which NFKC then composes to U+01F0. *)
Lemma normalize_pest_name_counterexample :
  normalize_pest_name nfkc_excerpt lower_excerpt (Some [74; 780]) = [106; 780] /\
  normalize_pest_name nfkc_excerpt lower_excerpt (Some [106; 780]) = [496] /\
  normalize_pest_name nfkc_excerpt lower_excerpt
    (Some (normalize_pest_name nfkc_excerpt lower_excerpt (Some [74; 780]))) <>
  normalize_pest_name nfkc_excerpt lower_excerpt (Some [74; 780]).
Proof. repeat split. discriminate. Qed.

Lemma lower_char_excerpt_cases (c : N) :
  lower_char_excerpt c = c \/
  (65 <= c <= 90 /\ lower_char_excerpt c = c + 32) \/
  (In c [461; 268; 270; 282; 486; 542; 463; 488; 317; 327; 465; 344;
         352; 356; 467; 381] /\
   lower_char_excerpt c = c + 1).
Proof.
  unfold lower_char_excerpt.
  destruct ((65 <=? c) && (c <=? 90)) eqn:E.
  - right. left. apply andb_true_iff in E as [E1 E2].
    apply N.leb_le in E1, E2. auto.
  - match goal with |- (if ?b then _ else _) = _ \/ _ => destruct b eqn:E' end.
    + right. right. split; [|reflexivity].
      apply existsb_exists in E' as [y [Hy Hc]].
      apply N.eqb_eq in Hc. now subst.
    + now left.
Qed.

Lemma lower_char_excerpt_idempotent (c : N) :
  lower_char_excerpt (lower_char_excerpt c) = lower_char_excerpt c.
Proof.
  destruct (lower_char_excerpt_cases c) as [H|[[R H]|[I H]]]; rewrite H.
  - exact H.
  - destruct (lower_char_excerpt_cases (c + 32)) as [H'|[[R' _]|[I' _]]];
      [exact H' | lia |].
    simpl in I'. repeat (destruct I' as [I'|I']; [lia|]). destruct I'.
  - simpl in I.
    repeat (destruct I as [I|I]; [subst c; reflexivity|]). destruct I.
Qed.

Lemma lower_char_excerpt_space (c d : N) :
  d = 32 \/ d = 12288 -> lower_char_excerpt c = d -> c = d.
Proof.
  intros Hd.
  destruct (lower_char_excerpt_cases c) as [H|[[R H]|[I H]]]; rewrite H.
  - trivial.
  - lia.
  - simpl in I. repeat (destruct I as [I|I]; [lia|]). destruct I.
Qed.

Lemma lower_excerpt_idempotent (x : str) :
  lower_excerpt (lower_excerpt x) = lower_excerpt x.
Proof.
  unfold lower_excerpt. rewrite map_map. apply map_ext.
  apply lower_char_excerpt_idempotent.
Qed.

Lemma lower_excerpt_spaces (x : str) :
  ~ In 32 x -> ~ In 12288 x ->
  ~ In 32 (lower_excerpt x) /\ ~ In 12288 (lower_excerpt x).
Proof.
  unfold lower_excerpt. intros H1 H2.
  split; intros H; apply in_map_iff in H as [c [Hc Hin]];
    apply lower_char_excerpt_space in Hc; auto; subst c; contradiction.
Qed.

Lemma normalize_pest_name_fixed_point_witness :
  normalize_pest_name nfkc_excerpt lower_excerpt (Some (u " Ab C　葉蟎")) =
    u "abc葉蟎" /\
  normalize_pest_name nfkc_excerpt lower_excerpt
    (Some (normalize_pest_name nfkc_excerpt lower_excerpt
             (Some (u " Ab C　葉蟎")))) =
  normalize_pest_name nfkc_excerpt lower_excerpt (Some (u " Ab C　葉蟎")).
Proof.
  split; [reflexivity|].
  exact (proj2 (proj2 (proj2
    (@normalize_pest_name_fixed_point nfkc_excerpt lower_excerpt
       (u " Ab C　葉蟎") lower_excerpt_idempotent lower_excerpt_spaces
       eq_refl)))).
Defined.

(** *** C7 *)

Lemma single_pest_no_rows_witness :
  rows_crop_pest db_rice (u "水稻") (u "稻飛蝱") = [] /\
  exists msg,
    search_pesticides nfkc_excerpt lower_excerpt default_max_str_digits
      (Some db_rice) (u "水稻 稻飛蝱") =
      Ok [no_match_card msg (u "水稻") (u "稻飛蝱")] /\
    contains (u "水稻") msg = true /\ contains (u "稻飛蝱") msg = true.
Proof.
  split; [reflexivity|].
  destruct (@single_pest_no_rows nfkc_excerpt lower_excerpt db_rice [] []
              (u "水稻") (u "稻飛蝱") eq_refl)
    as (msg & H1 & _ & _ & _ & H2 & H3).
  exists msg. split; [|split; assumption].
  change (search_pesticides nfkc_excerpt lower_excerpt default_max_str_digits
            (Some db_rice) (u "水稻 稻飛蝱"))
    with (Ok (handle_crop_single_pest nfkc_excerpt lower_excerpt db_rice
                [u "水稻"] (u "稻飛蝱"))) .
  now rewrite H1.
Defined.

(** *** C9 *)

Lemma single_bucket_no_match_free_witness :
  bucket_lookup Fallback db_rice (u "蘋果") = [] /\
  bucket_handler nfkc_excerpt lower_excerpt Fallback db_rice
    [u "熱病"; u "蘋果"; u "飛"] =
  bucket_handler nfkc_excerpt lower_excerpt Fallback db_rice [u "熱病"] ++
  bucket_handler nfkc_excerpt lower_excerpt Fallback db_rice [u "飛"].
Proof.
  split; [reflexivity|].
  exact (proj1 (proj2
    (@single_bucket_no_match_free nfkc_excerpt lower_excerpt Fallback db_rice
       [u "熱病"] [u "飛"] (u "蘋果") eq_refl))).
Defined.

(** *** C3 *)

Example marked_names_on_sample :
  map (fun c => map u_pest (usages_of c))
    (handle_crop_mixed_keywords nfkc_excerpt lower_excerpt db_overlap
       [u "甘藍"] [u "甲基拌磷"; u "乙託"]
       (map r_chem db_overlap) (map r_brand db_overlap)
       (map r_barcode db_overlap)) =
  [ [u "#夜蛾"]; [u "#斜紋夜蛾"; u "蚜蟲"] ].
Proof. vm_compute. reflexivity. Qed.

(** Two chemicals without a common pest: the notice leads the list. *)
Example notice_on_sample :
  map (fun c => (is_no_match c, text_of (get "error_message" c)))
    (handle_crop_mixed_keywords nfkc_excerpt lower_excerpt db_rice
       [u "水稻"] [u "甲基拌磷"; u "乙託"]
       (map r_chem db_rice) (map r_brand db_rice) (map r_barcode db_rice)) =
  [ (true, u "沒有重複防治的害物");
    (true, u "乙託 無法使用於作物：水稻");
    (false, []) ].
Proof. vm_compute. reflexivity. Qed.

(** *** Witnesses of the further properties *)

Lemma keyword_list_of_tokens_witness :
  is_sep 44 = true /\
  keyword_list_of (u "水稻 ,稻熱病") = [u "水稻"; u "稻熱病"] /\
  keyword_list_of (u "水稻 " ++ 44 :: u "稻熱病") =
  keyword_list_of (u "水稻 ") ++ keyword_list_of (u "稻熱病").
Proof.
  split; [reflexivity|]. split; [reflexivity|].
  exact (proj2 (proj2 (proj2
    (@keyword_list_of_tokens (u "水稻 ,稻熱病") (u "水稻 ") (u "稻熱病") 44
       eq_refl)))).
Defined.

Lemma search_needs_store_witness :
  existsb keyword_char (u " 水稻") = true /\
  search_pesticides nfkc_excerpt lower_excerpt default_max_str_digits
    None (u " 水稻") = Error.
Proof.
  split; [reflexivity|].
  exact (proj2
    (@search_needs_store nfkc_excerpt lower_excerpt default_max_str_digits
       (u " 水稻") eq_refl)).
Defined.

Lemma search_pests_only_witness :
  keyword_list_of (u "稻飛蝱 稻熱病") = [u "稻飛蝱"; u "稻熱病"] /\
  In (u "稻飛蝱") (map r_pest db_rice) /\
  search_pesticides nfkc_excerpt lower_excerpt default_max_str_digits
    (Some db_rice) (u "稻飛蝱 稻熱病") = Ok [].
Proof.
  split; [reflexivity|]. split; [right; left; reflexivity|].
  apply (@search_pests_only nfkc_excerpt lower_excerpt default_max_str_digits
           db_rice (u "稻飛蝱 稻熱病")).
  - intros kw [<-|[<-|[]]]; repeat split; intros I; apply mem_In in I;
      vm_compute in I; discriminate I.
  - exists (u "稻飛蝱"). split; [left; reflexivity | right; left; reflexivity].
Defined.

Lemma route_ignores_other_witness :
  route nfkc_excerpt lower_excerpt db_rice
    (mkBuckets [u "水稻"] [] [] [] [] [u "蘋果"]) =
  route nfkc_excerpt lower_excerpt db_rice
    (mkBuckets [u "水稻"] [] [] [] [] []).
Proof.
  apply (@route_ignores_other nfkc_excerpt lower_excerpt db_rice
           (mkBuckets [u "水稻"] [] [] [] [] [u "蘋果"]) []).
  left. discriminate.
Defined.

Lemma route_with_crop_witness :
  route nfkc_excerpt lower_excerpt db_rice
    (mkBuckets [u "水稻"] [u "稻熱病"] [u "甲基拌磷"] [] [] []) =
  handle_crop_single_pest nfkc_excerpt lower_excerpt db_rice [u "水稻"]
    (u "稻熱病") ++
  handle_crop_mixed_keywords nfkc_excerpt lower_excerpt db_rice [u "水稻"]
    [u "甲基拌磷"] (map r_chem db_rice) (map r_brand db_rice)
    (map r_barcode db_rice) ++ [].
Proof.
  refine (@route_with_crop nfkc_excerpt lower_excerpt db_rice
            (mkBuckets [u "水稻"] [u "稻熱病"] [u "甲基拌磷"] [] [] []) _).
  discriminate.
Defined.

Lemma ranker_idempotent_witness :
  deduplicate_and_sort_results default_max_str_digits
    [card_14; card_7; card_14] = Some [card_7; card_14; card_14] /\
  deduplicate_and_sort_results default_max_str_digits
    [card_7; card_14; card_14] = Some [card_7; card_14; card_14].
Proof.
  split; [reflexivity|].
  exact (@ranker_idempotent default_max_str_digits [card_14; card_7; card_14]
           [card_7; card_14; card_14] eq_refl).
Defined.

Lemma no_match_cards_last_witness :
  exists product notice after,
    search_pesticides nfkc_excerpt lower_excerpt default_max_str_digits
      (Some db_rice) (u "水稻 甲基拌磷 乙託") =
      Ok (product :: notice :: after) /\
    is_no_match product = false /\ is_no_match notice = true /\
    after <> [] /\
    Forall (fun c => interval_days default_max_str_digits c = Inf) after.
Proof.
  pose (results :=
          match search_pesticides nfkc_excerpt lower_excerpt
                  default_max_str_digits (Some db_rice) (u "水稻 甲基拌磷 乙託")
          with
          | Ok l => l
          | Error => []
          end).
  exists (nth 0 results []), (nth 1 results []), (skipn 2 results).
  assert (E : search_pesticides nfkc_excerpt lower_excerpt
                default_max_str_digits (Some db_rice) (u "水稻 甲基拌磷 乙託") =
              Ok ([nth 0 results []] ++ nth 1 results [] :: skipn 2 results))
    by (vm_compute; reflexivity).
  split; [exact E|]. split; [vm_compute; reflexivity|].
  split; [vm_compute; reflexivity|]. split; [vm_compute; discriminate|].
  apply (@no_match_cards_last nfkc_excerpt lower_excerpt default_max_str_digits
           db_rice (u "水稻 甲基拌磷 乙託") [nth 0 results []]
           (skipn 2 results) (nth 1 results []) E).
  vm_compute. reflexivity.
Defined.

Lemma extract_days_digits_witness :
  u "7天" <> [] /\ u "採收前7日" <> [] /\
  extract_days default_max_str_digits (u "7天") =
  extract_days default_max_str_digits (u "採收前7日").
Proof.
  assert (H1 : u "7天" <> []) by (vm_compute; discriminate).
  assert (H2 : u "採收前7日" <> []) by (vm_compute; discriminate).
  split; [exact H1|]. split; [exact H2|].
  apply (proj1 (@extract_days_digits default_max_str_digits (u "7天")
                  (u "採收前7日") H1 H2)).
  vm_compute. reflexivity.
Defined.

Lemma group_rows_spec_witness :
  (forall r, usages_of (plain_card r) = []) /\
  group_rows nfkc_excerpt lower_excerpt plain_card db_plain =
  map (fun r0 =>
         set "usages"
           (VUsages
              (remove_duplicate_usages
                 (map (usage_of_row nfkc_excerpt lower_excerpt)
                    (filter (same_key r0) db_plain))))
           (plain_card r0))
    (first_rows [] db_plain).
Proof.
  split; [reflexivity|].
  exact (proj1 (@group_rows_spec nfkc_excerpt lower_excerpt plain_card db_plain
                  (fun r => eq_refl))).
Defined.

Lemma route_usages_of_crops_witness :
  Forall (usages_for [u "水稻"])
    (route nfkc_excerpt lower_excerpt db_rice
       (mkBuckets [u "水稻"] [u "稻熱病"] [u "甲基拌磷"] [] [] [])).
Proof.
  apply (@route_usages_of_crops nfkc_excerpt lower_excerpt db_rice
           (mkBuckets [u "水稻"] [u "稻熱病"] [u "甲基拌磷"] [] [] [])).
  discriminate.
Defined.


Lemma remove_duplicate_pesticides_first_witness :
  Forall key_fields (map plain_card db_plain) /\
  List.length (remove_duplicate_pesticides (map plain_card db_plain)) = 2%nat /\
  NoDup (map card_key (remove_duplicate_pesticides (map plain_card db_plain))).
Proof.
  assert (F : Forall key_fields (map plain_card db_plain)).
  { apply Forall_forall. intros c Hc.
    apply in_map_iff in Hc as [r [<- _]]. repeat split. }
  split; [exact F|]. split; [reflexivity|].
  exact (proj1 (@remove_duplicate_pesticides_first (map plain_card db_plain) F)).
Defined.
